(** * mongoimport: buffered bulk insertion and the ingestion pipeline

    A shallow embedding of the Go sources

    - package [db]: the buffered bulk inserter ([BufferedBulkInserter],
      [BulkInserter], [LegacyBulkInserter], [WriteCommandBulk]);
    - package [mongoimport]: [ValidateSettings], [importDocuments],
      [ingestDocuments], [runInsertionWorker] and the [upserter].

    Go values of type [error] are modelled as [option error] ([None] is
    [nil]); methods with pointer receivers take the receiver and return the
    updated one; calls that reach the server thread a [World]. *)

From Stdlib Require Import ZArith List String Ascii Bool Lia.
From Stdlib Require Import Strings.Byte.
Import ListNotations.

Local Open Scope string_scope.
Local Open Scope list_scope.
Local Open Scope Z_scope.

Set Warnings "-register-all,-notation-for-abbreviation".

(** ** Go machine integers *)

Module GoInt.

(** Go's [int] on the 64-bit targets the tools are built for: a signed
    64-bit integer whose arithmetic wraps around. *)
Definition minInt : Z := - 2 ^ 63.
Definition maxInt : Z := 2 ^ 63 - 1.

Definition wrap (z : Z) : Z := (z + 2 ^ 63) mod 2 ^ 64 - 2 ^ 63.

Definition add (a b : Z) : Z := wrap (a + b).

(** [uint64] addition, as performed by [atomic.AddUint64]. *)
Definition addUint64 (a b : Z) : Z := (a + b) mod 2 ^ 64.

Definition inRange (z : Z) : Prop := minInt <= z <= maxInt.

End GoInt.

(** ** Errors *)

(** One entry of the [writeErrors] array of a write command reply. *)
Record writeError : Type := mkWriteError {
  we_index : Z;
  we_code : Z;
  we_errmsg : string
}.

(** Go [error] values that occur in the two packages. *)
Inductive error : Type :=
| ErrNoReachableServers
| ErrConnection (msg : string)
| ErrOther (msg : string)
| Errorf (format : string) (arg : error)
| ErrWriteCommandBulk (Errors : list writeError) (RootError : option error).

Definition dquote : ascii := ascii_of_nat 34.
Definition backslash : ascii := ascii_of_nat 92.

(** The digit [d] of [strconv]'s [lowerhex]. *)
Definition lowerhex (d : N) : ascii :=
  if (d <? 10)%N then ascii_of_N (48 + d) else ascii_of_N (87 + d).

(** What [strconv.Quote] writes for one byte below [0x80]: the quote and
    the backslash are backslashed; the control characters that have a short
    escape take it; the other control characters are written as a backslash,
    [x] and two hexadecimal digits; a printable character stands for itself.
    From [0x80] on Go decodes UTF-8 and consults the Unicode tables: a
    printable rune is kept, as it is here, and what Go escapes there is not
    modelled.  DEL is written as the current [strconv] does. *)
Definition escape (c : ascii) : string :=
  let n := N_of_ascii c in
  let short (x : ascii) := String backslash (String x EmptyString) in
  if (n =? 34)%N then short dquote
  else if (n =? 92)%N then short backslash
  else if (n =? 7)%N then short "a"%char
  else if (n =? 8)%N then short "b"%char
  else if (n =? 12)%N then short "f"%char
  else if (n =? 10)%N then short "n"%char
  else if (n =? 13)%N then short "r"%char
  else if (n =? 9)%N then short "t"%char
  else if (n =? 11)%N then short "v"%char
  else if ((n <? 32) || (n =? 127))%N
       then String backslash
              (String "x"%char (String (lowerhex (n / 16))
                             (String (lowerhex (n mod 16)) EmptyString)))
  else String c EmptyString.

Fixpoint escapes (s : string) : string :=
  match s with
  | EmptyString => EmptyString
  | String c r => (escape c ++ escapes r)%string
  end.

(** [fmt]'s [%#v] of a string, which is [strconv.Quote]: a Go string
    literal in double quotes. *)
Definition quote (s : string) : string :=
  String dquote (escapes s ++ String dquote EmptyString)%string.

(** The strings [quote] renders as every version of Go does: those of
    bytes below DEL. *)
Fixpoint quotable (s : string) : bool :=
  match s with
  | EmptyString => true
  | String c r => (N_of_ascii c <? 127)%N && quotable r
  end.

Definition newline : string := String (ascii_of_nat 10) EmptyString.

(** [err.Error()].  [Errorf prefix arg] is [fmt.Errorf(prefix + "%v", arg)];
    [ErrWriteCommandBulk.Error] writes each [errmsg] with [%#v]. *)
Fixpoint Error (e : error) : string :=
  match e with
  | ErrNoReachableServers => "no reachable servers"
  | ErrConnection msg => msg
  | ErrOther msg => msg
  | Errorf prefix arg => (prefix ++ Error arg)%string
  | ErrWriteCommandBulk errs root =>
      ((match root with Some r => Error r | None => EmptyString end)
       ++ fold_left (fun acc e => acc ++ newline ++ quote (we_errmsg e)) errs EmptyString)%string
  end.

(** ** BSON documents *)

(** Values held by a [bson.D] element.  [VUnsupported] stands for a Go value
    of a kind the encoder rejects (a channel, a function). *)
Inductive Value : Type :=
| VNull
| VInt32 (z : Z)
| VString (s : string)
| VBinary (data : list byte)
| VUnsupported.

Record DocElem : Type := mkDocElem { Name : string; Val : Value }.

(** [bson.D]: an ordered document. *)
Definition D : Type := list DocElem.

(** [bson.Raw] *)
Record Raw : Type := mkRaw { Kind : byte; Data : list byte }.

(** [len] of a byte slice. *)
Definition len (b : list byte) : Z := Z.of_nat (List.length b).

(** ** The server as seen by the client *)

(** [mgo.Safe], the write concern attached to a session or a command. *)
Record Safe : Type := mkSafe {
  W : Z; WMode : string; WTimeout : Z; FSync : bool; J : bool
}.

(** [mgo.Collection] *)
Record mgoCollection : Type := mkCollection { DatabaseName : string; CName : string }.

(** The [insert] write command built by [WriteCommandBulk.Run]. *)
Record Command : Type := mkCommand {
  cmd_insert : string;
  cmd_ordered : bool;
  cmd_documents : list Raw;
  cmd_writeConcern : option Safe
}.

(** A request that goes over the wire. *)
Inductive Request : Type :=
| ReqCommand (c : Command)                          (* Database.Run *)
| ReqBulk (c : mgoCollection) (ordered : bool) (docs : list Raw) (* mgo Bulk.Run *)
| ReqInsert (c : mgoCollection) (doc : D)              (* Collection.Insert *)
| ReqUpsert (c : mgoCollection) (selector doc : D)     (* Collection.Upsert *)
| ReqDrop (c : mgoCollection).                       (* Collection.DropCollection *)

Record Reply : Type := mkReply {
  reply_err : option error;
  reply_writeErrors : list writeError
}.

(** Documents carried by a request that writes a batch. *)
Definition batch_of (r : Request) : option (list Raw) :=
  match r with
  | ReqCommand c => Some (cmd_documents c)
  | ReqBulk _ _ docs => Some docs
  | _ => None
  end.

(** Accumulated serialized size of a batch. *)
Definition batch_bytes (docs : list Raw) : Z :=
  fold_right (fun r acc => len (Data r) + acc) 0 docs.

(** The records carried by the write requests of a log, in the order
    sent. *)
Definition batches (rs : list Request) : list Raw :=
  flat_map (fun r => match batch_of r with
                     | Some docs => docs
                     | None => []
                     end) rs.

(** The [ordered] flag of a request that writes a batch. *)
Definition ordered_of (r : Request) : option bool :=
  match r with
  | ReqCommand c => Some (cmd_ordered c)
  | ReqBulk _ ordered _ => Some ordered
  | _ => None
  end.

Module db.

Definition MaxBulkSize : Z := 16790000.
Definition BulkDocLimit : Z := 1000.

Section Server.

(** The remote store is external: its state and the way it answers are
    parameters.  [wire] records every request issued, oldest first. *)
Variable Store : Type.
Variable exec : Request -> Store -> Reply * Store.

Record World : Type := mkWorld { store : Store; wire : list Request }.

Definition send (r : Request) (w : World) : Reply * World :=
  let '(rep, s') := exec r (store w) in
  (rep, {| store := s'; wire := wire w ++ [r] |}).

(** [bson.Marshal] *)
Variable Marshal : D -> error + list byte.

(** *** [BulkInserter] *)

Class BulkInserter (B : Type) : Type := {
  Unordered : B -> B;
  BulkInsert : Raw -> B -> B;
  Run : B -> World -> option error * World;
  Reset : B -> B
}.

(** [mgo.Bulk], as far as [LegacyBulkInserter] uses it. *)
Record Bulk : Type := mkBulk {
  bulk_c : mgoCollection; bulk_ordered : bool; bulk_docs : list Raw
}.

Definition Collection_Bulk (c : mgoCollection) : Bulk :=
  {| bulk_c := c; bulk_ordered := true; bulk_docs := [] |}.

Definition Bulk_Unordered (b : Bulk) : Bulk :=
  {| bulk_c := bulk_c b; bulk_ordered := false; bulk_docs := bulk_docs b |}.

Definition Bulk_Insert (d : Raw) (b : Bulk) : Bulk :=
  {| bulk_c := bulk_c b; bulk_ordered := bulk_ordered b;
     bulk_docs := bulk_docs b ++ [d] |}.

Definition Bulk_Run (b : Bulk) (w : World) : option error * World :=
  let '(rep, w') := send (ReqBulk (bulk_c b) (bulk_ordered b) (bulk_docs b)) w in
  (reply_err rep, w').

Record LegacyBulkInserter : Type := mkLegacy {
  lbi_b : Bulk; lbi_c : mgoCollection; lbi_unordered : bool
}.

Definition LegacyBulkInserter_Reset (lbi : LegacyBulkInserter) : LegacyBulkInserter :=
  let b := Collection_Bulk (lbi_c lbi) in
  {| lbi_b := if lbi_unordered lbi then Bulk_Unordered b else b;
     lbi_c := lbi_c lbi; lbi_unordered := lbi_unordered lbi |}.

Definition LegacyBulkInserter_Unordered (lbi : LegacyBulkInserter) : LegacyBulkInserter :=
  {| lbi_b := Bulk_Unordered (lbi_b lbi); lbi_c := lbi_c lbi; lbi_unordered := true |}.

Definition LegacyBulkInserter_Insert (d : Raw) (lbi : LegacyBulkInserter) : LegacyBulkInserter :=
  {| lbi_b := Bulk_Insert d (lbi_b lbi); lbi_c := lbi_c lbi;
     lbi_unordered := lbi_unordered lbi |}.

Definition LegacyBulkInserter_Run (lbi : LegacyBulkInserter) (w : World)
  : option error * World :=
  Bulk_Run (lbi_b lbi) w.

Definition NewLegacyBulk (c : mgoCollection) (ordered : bool) : LegacyBulkInserter :=
  {| lbi_b := Collection_Bulk c; lbi_c := c; lbi_unordered := negb ordered |}.

#[local] Instance LegacyBulkInserter_BulkInserter : BulkInserter LegacyBulkInserter := {
  Unordered := LegacyBulkInserter_Unordered;
  BulkInsert := LegacyBulkInserter_Insert;
  Run := LegacyBulkInserter_Run;
  Reset := LegacyBulkInserter_Reset
}.

Record WriteCommandBulk : Type := mkWCB {
  wcb_c : mgoCollection;
  wcb_docs : list Raw;
  wcb_unordered : bool;
  wcb_writeConcern : option Safe
}.

Definition WriteCommandBulk_Reset (wcb : WriteCommandBulk) : WriteCommandBulk :=
  {| wcb_c := wcb_c wcb; wcb_docs := []; wcb_unordered := wcb_unordered wcb;
     wcb_writeConcern := wcb_writeConcern wcb |}.

Definition WriteCommandBulk_Unordered (wcb : WriteCommandBulk) : WriteCommandBulk :=
  {| wcb_c := wcb_c wcb; wcb_docs := wcb_docs wcb; wcb_unordered := true;
     wcb_writeConcern := wcb_writeConcern wcb |}.

Definition WriteCommandBulk_Insert (d : Raw) (wcb : WriteCommandBulk) : WriteCommandBulk :=
  {| wcb_c := wcb_c wcb; wcb_docs := wcb_docs wcb ++ [d];
     wcb_unordered := wcb_unordered wcb;
     wcb_writeConcern := wcb_writeConcern wcb |}.

(** The line printed on standard output by [Run] is not modelled. *)
Definition WriteCommandBulk_Run (wcb : WriteCommandBulk) (w : World)
  : option error * World :=
  let restoreDoc :=
    {| cmd_insert := CName (wcb_c wcb);
       cmd_ordered := negb (wcb_unordered wcb);
       cmd_documents := wcb_docs wcb;
       cmd_writeConcern := wcb_writeConcern wcb |} in
  let '(result, w') := send (ReqCommand restoreDoc) w in
  match reply_err result with
  | Some err => (Some err, w')
  | None =>
      if 0 <? Z.of_nat (List.length (reply_writeErrors result))
      then (Some (ErrWriteCommandBulk (reply_writeErrors result) None), w')
      else (None, w')
  end.

Definition NewWriteCommandBulk (c : mgoCollection) (ordered : bool)
           (writeConcern : option Safe) : WriteCommandBulk :=
  {| wcb_c := c; wcb_docs := []; wcb_unordered := negb ordered;
     wcb_writeConcern := writeConcern |}.

#[local] Instance WriteCommandBulk_BulkInserter : BulkInserter WriteCommandBulk := {
  Unordered := WriteCommandBulk_Unordered;
  BulkInsert := WriteCommandBulk_Insert;
  Run := WriteCommandBulk_Run;
  Reset := WriteCommandBulk_Reset
}.

(** What the buffered inserter relies on, whichever the implementation:
    [pending] are the documents queued in the bulk, [request] is what [Run]
    sends. *)
Class BulkInserterSpec (B : Type) `{BulkInserter B} : Type := {
  pending : B -> list Raw;
  request : B -> Request;
  pending_Reset : forall b, pending (Reset b) = [];
  pending_BulkInsert : forall d b, pending (BulkInsert d b) = pending b ++ [d];
  pending_Unordered : forall b, pending (Unordered b) = pending b;
  request_batch : forall b, batch_of (request b) = Some (pending b);
  Run_wire : forall b w, wire (snd (Run b w)) = wire w ++ [request b]
}.

(** *** [BufferedBulkInserter] *)

Section Buffered.

Context {B : Type} `{BI : BulkInserter B}.

Record BufferedBulkInserter : Type := mkBB {
  bulk : B;
  collection : mgoCollection;
  continueOnError : bool;
  docLimit : Z;
  byteCount : Z;
  docCount : Z
}.

Definition set_bulk (b : B) (bb : BufferedBulkInserter) : BufferedBulkInserter :=
  {| bulk := b; collection := collection bb;
     continueOnError := continueOnError bb; docLimit := docLimit bb;
     byteCount := byteCount bb; docCount := docCount bb |}.

Definition set_counts (bytes docs : Z) (bb : BufferedBulkInserter)
  : BufferedBulkInserter :=
  {| bulk := bulk bb; collection := collection bb;
     continueOnError := continueOnError bb; docLimit := docLimit bb;
     byteCount := bytes; docCount := docs |}.

(** The [bulk] argument and the field share one object, so the
    [Reset] shows in the field. *)
Definition NewBufferedBulkInserter (c : mgoCollection) (limit : Z)
           (continue : bool) (b : B) : BufferedBulkInserter :=
  {| bulk := Reset b; collection := c; continueOnError := continue;
     docLimit := limit; byteCount := 0; docCount := 0 |}.

Definition resetBulk (b : B) (bb : BufferedBulkInserter) : BufferedBulkInserter :=
  let bb1 := set_bulk b bb in
  let bb2 := if continueOnError bb1 then set_bulk (Unordered (bulk bb1)) bb1 else bb1 in
  set_counts 0 0 bb2.

(** [Flush]: the deferred [bb.bulk.Reset()] runs after [Run], on both
    return paths. *)
Definition Flush (bb : BufferedBulkInserter) (w : World)
  : option error * BufferedBulkInserter * World :=
  if docCount bb =? 0 then (None, bb, w)
  else
    let '(err, w') := Run (bulk bb) w in
    (err, set_bulk (Reset (bulk bb)) bb, w').

(** The flush test of [Insert]. *)
Definition full (bb : BufferedBulkInserter) (rawBytes : list byte) : bool :=
  (docLimit bb <=? docCount bb)
  || (MaxBulkSize <? GoInt.add (byteCount bb) (len rawBytes))
  || (BulkDocLimit <=? docCount bb).

Definition Insert (doc : D) (bb : BufferedBulkInserter) (w : World)
  : option error * BufferedBulkInserter * World :=
  match Marshal doc with
  | inl err => (Some (Errorf "bson encoding error: " err), bb, w)
  | inr rawBytes =>
      let '(err, bb1, w1) :=
        if full bb rawBytes then Flush bb w else (None, bb, w) in
      let bb2 := set_counts (GoInt.add (byteCount bb1) (len rawBytes))
                            (GoInt.add (docCount bb1) 1) bb1 in
      let bb3 := set_bulk (BulkInsert (mkRaw x00 rawBytes) (bulk bb2)) bb2 in
      (err, bb3, w1)
  end.

(** A caller's use of the inserter: the calls it makes, whatever they
    return. *)
Inductive Call : Type :=
| DoInsert (doc : D)
| DoFlush.

Definition call (c : Call) (bb : BufferedBulkInserter) (w : World)
  : option error * BufferedBulkInserter * World :=
  match c with
  | DoInsert doc => Insert doc bb w
  | DoFlush => Flush bb w
  end.

Fixpoint calls (cs : list Call) (bb : BufferedBulkInserter) (w : World)
  : BufferedBulkInserter * World :=
  match cs with
  | [] => (bb, w)
  | c :: rest => let '(_, bb', w') := call c bb w in calls rest bb' w'
  end.

(** The records a sequence of calls hands to the bulk: those of the
    [Insert] calls whose document serializes, in order. *)
Fixpoint accepted (cs : list Call) : list Raw :=
  match cs with
  | [] => []
  | DoInsert doc :: rest =>
      match Marshal doc with
      | inr rawBytes => mkRaw x00 rawBytes :: accepted rest
      | inl _ => accepted rest
      end
  | DoFlush :: rest => accepted rest
  end.

(** Modelled from the spec: [BufferedBulkInserter.Unordered], which the
    insertion worker calls and this revision of the package does not
    define.  The spec's [Unordered] flag instructs the write executor, so the
    call is passed on to the bulk. *)
Definition BufferedBulkInserter_Unordered (bb : BufferedBulkInserter)
  : BufferedBulkInserter :=
  set_bulk (Unordered (bulk bb)) bb.

End Buffered.

(** *** The ceilings *)

Section Ceilings.

Context {B : Type} `{BS : BulkInserterSpec B}.

Notation BufferedBulkInserter := (@BufferedBulkInserter B).

(** A request respects the ceilings for the doc limit [limit]. *)
Definition withinCeilings (limit : Z) (r : Request) : Prop :=
  forall docs, batch_of r = Some docs ->
    Z.of_nat (List.length docs) <= Z.min limit BulkDocLimit
    /\ batch_bytes docs <= MaxBulkSize.

(** The state of an inserter after [k] records were accepted: [docCount]
    is [k], [byteCount] is the wrapped total [T] of their sizes, and the
    buffer holds no more than the counters say and respects both ceilings. *)
Definition counted (limit k : Z) (bb : BufferedBulkInserter) : Prop :=
  docLimit bb = limit
  /\ docCount bb = k
  /\ 0 <= k
  /\ (exists T, byteCount bb = GoInt.wrap T
                /\ batch_bytes (pending (bulk bb)) <= T
                /\ T <= k * MaxBulkSize)
  /\ Z.of_nat (List.length (pending (bulk bb))) <= k
  /\ Z.of_nat (List.length (pending (bulk bb))) <= Z.min limit BulkDocLimit
  /\ batch_bytes (pending (bulk bb)) <= MaxBulkSize.

End Ceilings.

End Server.

Arguments store {Store} w.
Arguments wire {Store} w.
Arguments mkWorld {Store} store wire.

End db.

(** ** Package [mongoimport] *)

Module mongoimport.

Definition CSV : string := "csv".
Definition TSV : string := "tsv".
Definition JSON : string := "json".

Definition workerBufferSize : Z := 16.

(** *** Options and the importer *)

Record ToolOptionsT : Type := mkToolOptions {
  DB : string;
  Collection : string;
  Host : string;
  Port : string;
  NumDecodingWorkers : Z;
  MaxProcs : Z;
  BulkBufferSize : Z
}.

Record InputOptionsT : Type := mkInputOptions {
  Fields : option string;
  HeaderLine : bool;
  JSONArray : bool;
  InputType : string;
  File : string;
  FieldFile : option string
}.

Record IngestOptionsT : Type := mkIngestOptions {
  Drop : bool;
  IgnoreBlanks : bool;
  MaintainInsertionOrder : bool;
  NumInsertionWorkers : Z;
  StopOnError : bool;
  Upsert : bool;
  UpsertFields : string;
  WriteConcern : string
}.

(** [db.NodeType] *)
Inductive NodeType : Type := Standalone | ReplSet | Mongos.

(** [mgo.Session], as far as [configureSession] touches it. *)
Record Session : Type := mkSession { socketTimeout : Z; safe : option Safe }.

(** [db.SessionProvider], by what its calls return. *)
Record SessionProviderT : Type := mkSessionProvider {
  GetSession : error + Session;
  GetNodeType : error + NodeType
}.

(** [tomb.Tomb]: [dying] tells whether the [Dying()] channel is closed. *)
Record TombT : Type := mkTomb { dying : bool; reason : option error }.

Definition Kill (r : option error) (t : TombT) : TombT :=
  if dying t
  then match reason t with
       | None => {| dying := true; reason := r |}
       | Some _ => t
       end
  else {| dying := true; reason := r |}.

Record MongoImport : Type := mkMongoImport {
  ToolOptions : ToolOptionsT;
  InputOptions : InputOptionsT;
  IngestOptions : IngestOptionsT;
  SessionProvider : SessionProviderT;
  insertionCount : Z;
  Tomb : TombT;
  upsertFields : list string;
  nodeType : NodeType
}.

(** Field updates. *)
Definition with_ToolOptions (f : ToolOptionsT -> ToolOptionsT) (imp : MongoImport) : MongoImport :=
  {| ToolOptions := f (ToolOptions imp); InputOptions := InputOptions imp;
     IngestOptions := IngestOptions imp; SessionProvider := SessionProvider imp;
     insertionCount := insertionCount imp; Tomb := Tomb imp;
     upsertFields := upsertFields imp; nodeType := nodeType imp |}.

Definition with_InputOptions (f : InputOptionsT -> InputOptionsT) (imp : MongoImport) : MongoImport :=
  {| ToolOptions := ToolOptions imp; InputOptions := f (InputOptions imp);
     IngestOptions := IngestOptions imp; SessionProvider := SessionProvider imp;
     insertionCount := insertionCount imp; Tomb := Tomb imp;
     upsertFields := upsertFields imp; nodeType := nodeType imp |}.

Definition with_IngestOptions (f : IngestOptionsT -> IngestOptionsT) (imp : MongoImport) : MongoImport :=
  {| ToolOptions := ToolOptions imp; InputOptions := InputOptions imp;
     IngestOptions := f (IngestOptions imp); SessionProvider := SessionProvider imp;
     insertionCount := insertionCount imp; Tomb := Tomb imp;
     upsertFields := upsertFields imp; nodeType := nodeType imp |}.

Definition set_upsertFields (l : list string) (imp : MongoImport) : MongoImport :=
  {| ToolOptions := ToolOptions imp; InputOptions := InputOptions imp;
     IngestOptions := IngestOptions imp; SessionProvider := SessionProvider imp;
     insertionCount := insertionCount imp; Tomb := Tomb imp;
     upsertFields := l; nodeType := nodeType imp |}.

Definition set_nodeType (n : NodeType) (imp : MongoImport) : MongoImport :=
  {| ToolOptions := ToolOptions imp; InputOptions := InputOptions imp;
     IngestOptions := IngestOptions imp; SessionProvider := SessionProvider imp;
     insertionCount := insertionCount imp; Tomb := Tomb imp;
     upsertFields := upsertFields imp; nodeType := n |}.

Definition set_insertionCount (n : Z) (imp : MongoImport) : MongoImport :=
  {| ToolOptions := ToolOptions imp; InputOptions := InputOptions imp;
     IngestOptions := IngestOptions imp; SessionProvider := SessionProvider imp;
     insertionCount := n; Tomb := Tomb imp;
     upsertFields := upsertFields imp; nodeType := nodeType imp |}.

Definition set_Tomb (t : TombT) (imp : MongoImport) : MongoImport :=
  {| ToolOptions := ToolOptions imp; InputOptions := InputOptions imp;
     IngestOptions := IngestOptions imp; SessionProvider := SessionProvider imp;
     insertionCount := insertionCount imp; Tomb := t;
     upsertFields := upsertFields imp; nodeType := nodeType imp |}.

Definition set_DB (v : string) (o : ToolOptionsT) : ToolOptionsT :=
  {| DB := v; Collection := Collection o; Host := Host o; Port := Port o;
     NumDecodingWorkers := NumDecodingWorkers o; MaxProcs := MaxProcs o;
     BulkBufferSize := BulkBufferSize o |}.

Definition set_Collection (v : string) (o : ToolOptionsT) : ToolOptionsT :=
  {| DB := DB o; Collection := v; Host := Host o; Port := Port o;
     NumDecodingWorkers := NumDecodingWorkers o; MaxProcs := MaxProcs o;
     BulkBufferSize := BulkBufferSize o |}.

Definition set_NumDecodingWorkers (v : Z) (o : ToolOptionsT) : ToolOptionsT :=
  {| DB := DB o; Collection := Collection o; Host := Host o; Port := Port o;
     NumDecodingWorkers := v; MaxProcs := MaxProcs o;
     BulkBufferSize := BulkBufferSize o |}.

Definition set_BulkBufferSize (v : Z) (o : ToolOptionsT) : ToolOptionsT :=
  {| DB := DB o; Collection := Collection o; Host := Host o; Port := Port o;
     NumDecodingWorkers := NumDecodingWorkers o; MaxProcs := MaxProcs o;
     BulkBufferSize := v |}.

Definition set_InputType (v : string) (o : InputOptionsT) : InputOptionsT :=
  {| Fields := Fields o; HeaderLine := HeaderLine o; JSONArray := JSONArray o;
     InputType := v; File := File o; FieldFile := FieldFile o |}.

Definition set_File (v : string) (o : InputOptionsT) : InputOptionsT :=
  {| Fields := Fields o; HeaderLine := HeaderLine o; JSONArray := JSONArray o;
     InputType := InputType o; File := v; FieldFile := FieldFile o |}.

Definition set_Upsert (v : bool) (o : IngestOptionsT) : IngestOptionsT :=
  {| Drop := Drop o; IgnoreBlanks := IgnoreBlanks o;
     MaintainInsertionOrder := MaintainInsertionOrder o;
     NumInsertionWorkers := NumInsertionWorkers o; StopOnError := StopOnError o;
     Upsert := v; UpsertFields := UpsertFields o; WriteConcern := WriteConcern o |}.

Definition set_MaintainInsertionOrder (v : bool) (o : IngestOptionsT) : IngestOptionsT :=
  {| Drop := Drop o; IgnoreBlanks := IgnoreBlanks o;
     MaintainInsertionOrder := v;
     NumInsertionWorkers := NumInsertionWorkers o; StopOnError := StopOnError o;
     Upsert := Upsert o; UpsertFields := UpsertFields o; WriteConcern := WriteConcern o |}.

Definition set_NumInsertionWorkers (v : Z) (o : IngestOptionsT) : IngestOptionsT :=
  {| Drop := Drop o; IgnoreBlanks := IgnoreBlanks o;
     MaintainInsertionOrder := MaintainInsertionOrder o;
     NumInsertionWorkers := v; StopOnError := StopOnError o;
     Upsert := Upsert o; UpsertFields := UpsertFields o; WriteConcern := WriteConcern o |}.

(** *** Go library functions on strings *)

(** [strings.ToLower], on the ASCII letters. *)
Definition lower_ascii (c : ascii) : ascii :=
  let n := N_of_ascii c in
  if ((65 <=? n) && (n <=? 90))%N then ascii_of_N (n + 32) else c.

Fixpoint ToLower (s : string) : string :=
  match s with
  | EmptyString => EmptyString
  | String c r => String (lower_ascii c) (ToLower r)
  end.

(** [strings.Split(s, sep)] for a one-byte separator. *)
Fixpoint Split (s : string) (sep : ascii) : list string :=
  match s with
  | EmptyString => [EmptyString]
  | String c r =>
      if Ascii.eqb c sep then EmptyString :: Split r sep
      else match Split r sep with
           | h :: t => String c h :: t
           | [] => [String c EmptyString]
           end
  end.

(** [strings.LastIndex(s, sep)] for a one-byte separator: scanning from
    index [i], with [last] the latest index found so far. *)
Fixpoint LastIndex_from (s : string) (sep : ascii) (i last : Z) : Z :=
  match s with
  | EmptyString => last
  | String c r => LastIndex_from r sep (i + 1) (if Ascii.eqb c sep then i else last)
  end.

Definition LastIndex (s : string) (sep : ascii) : Z := LastIndex_from s sep 0 (-1).

(** [s[0:n]] *)
Definition slice_to (s : string) (n : Z) : string := substring 0 (Z.to_nat n) s.

Fixpoint dropSlashes (l : list ascii) : list ascii :=
  match l with
  | c :: r => if Ascii.eqb c "/" then dropSlashes r else l
  | [] => []
  end.

(** The part of [l] after its last slash, [acc] being the part read since
    the latest slash. *)
Fixpoint afterLastSlash (l acc : list ascii) : list ascii :=
  match l with
  | [] => acc
  | c :: r => if Ascii.eqb c "/" then afterLastSlash r [] else afterLastSlash r (acc ++ [c])
  end.

(** [filepath.Base] with the slash as separator. *)
Definition Base (path : string) : string :=
  if String.eqb path EmptyString then "."
  else
    let p := rev (dropSlashes (rev (list_ascii_of_string path))) in
    let p := afterLastSlash p [] in
    match p with
    | [] => "/"
    | _ => string_of_list_ascii p
    end.

(** *** A state and error monad for the methods of [MongoImport] *)

Definition Step (A : Type) : Type := MongoImport -> MongoImport * (error + A).

Definition ret {A} (a : A) : Step A := fun imp => (imp, inr a).

Definition bind {A B} (c : Step A) (k : A -> Step B) : Step B :=
  fun imp =>
    match c imp with
    | (imp', inl e) => (imp', inl e)
    | (imp', inr a) => k a imp'
    end.

Definition fail {A} (e : error) : Step A := fun imp => (imp, inl e).

Definition gets {A} (f : MongoImport -> A) : Step A := fun imp => (imp, inr (f imp)).

Definition modify (f : MongoImport -> MongoImport) : Step unit :=
  fun imp => (f imp, inr tt).

Definition when (b : bool) (c : Step unit) : Step unit := if b then c else ret tt.

(** [if err := e; err != nil { return fmt.Errorf(prefix + "%v", err) }] *)
Definition orFail (prefix : string) (e : option error) : Step unit :=
  match e with
  | Some err => fail (Errorf prefix err)
  | None => ret tt
  end.

Notation "x <- c ;; k" := (bind c (fun x => k))
  (at level 61, c at next level, right associativity).
Notation "c ;;; k" := (bind c (fun _ => k))
  (at level 61, right associativity).

Definition isSome {A} (o : option A) : bool :=
  match o with Some _ => true | None => false end.

Section Validate.

(** [util.ValidateDBName], [validateFields] and
    [util.ValidateCollectionName] live in files of the repository that are
    not part of this development. *)
Variable ValidateDBName : string -> option error.
Variable validateFields : list string -> option error.
Variable ValidateCollectionName : string -> option error.

(** Calls to [log.Logf] are left out. *)
Definition ValidateSettings (args : list string) : Step unit :=
  (* namespace must have a valid database; if none is specified, use 'test' *)
  db <- gets (fun imp => DB (ToolOptions imp)) ;;
  when (String.eqb db "") (modify (with_ToolOptions (set_DB "test"))) ;;;
  db <- gets (fun imp => DB (ToolOptions imp)) ;;
  orFail "invalid database name: " (ValidateDBName db) ;;;
  modify (fun imp => with_InputOptions (set_InputType (ToLower (InputType (InputOptions imp)))) imp) ;;;
  (* use JSON as default input type *)
  ty <- gets (fun imp => InputType (InputOptions imp)) ;;
  (if String.eqb ty ""
   then modify (with_InputOptions (set_InputType JSON))
   else when (negb (String.eqb ty TSV || String.eqb ty JSON || String.eqb ty CSV))
             (fail (Errorf "unknown type " (ErrOther ty)))) ;;;
  (* ensure headers are supplied for CSV/TSV *)
  io <- gets InputOptions ;;
  ignoreBlanks <- gets (fun imp => IgnoreBlanks (IngestOptions imp)) ;;
  (if String.eqb (InputType io) CSV || String.eqb (InputType io) TSV
   then
     if negb (HeaderLine io)
     then
       when (negb (isSome (Fields io)) && negb (isSome (FieldFile io)))
            (fail (ErrOther "must specify --fields, --fieldFile or --headerline to import this file type")) ;;;
       when (match FieldFile io with Some f => String.eqb f "" | None => false end)
            (fail (ErrOther "--fieldFile can not be empty string")) ;;;
       when (isSome (Fields io) && isSome (FieldFile io))
            (fail (ErrOther "incompatible options: --fields and --fieldFile"))
     else
       when (isSome (Fields io))
            (fail (ErrOther "incompatible options: --fields and --headerline")) ;;;
       when (isSome (FieldFile io))
            (fail (ErrOther "incompatible options: --fieldFile and --headerline"))
   else
     (* input type is JSON *)
     when (HeaderLine io)
          (fail (ErrOther "can not use --headerline when input type is JSON")) ;;;
     when (isSome (Fields io))
          (fail (ErrOther "can not use --fields when input type is JSON")) ;;;
     when (isSome (FieldFile io))
          (fail (ErrOther "can not use --fieldFile when input type is JSON")) ;;;
     when ignoreBlanks
          (fail (ErrOther "can not use --ignoreBlanks when input type is JSON"))) ;;;
  uf <- gets (fun imp => UpsertFields (IngestOptions imp)) ;;
  up <- gets (fun imp => Upsert (IngestOptions imp)) ;;
  (if negb (String.eqb uf "")
   then
     modify (with_IngestOptions (set_Upsert true)) ;;;
     modify (set_upsertFields (Split uf ",")) ;;;
     orFail "invalid --upsertFields argument: " (validateFields (Split uf ","))
   else
     when up (modify (set_upsertFields ["_id"]))) ;;;
  up <- gets (fun imp => Upsert (IngestOptions imp)) ;;
  when up (modify (with_IngestOptions (set_MaintainInsertionOrder true))) ;;;
  (* set the number of decoding workers to use for imports *)
  to <- gets ToolOptions ;;
  when (NumDecodingWorkers to <=? 0)
       (modify (with_ToolOptions (set_NumDecodingWorkers (MaxProcs to)))) ;;;
  (* set the number of insertion workers to use for imports *)
  n <- gets (fun imp => NumInsertionWorkers (IngestOptions imp)) ;;
  when (n <=? 0) (modify (with_IngestOptions (set_NumInsertionWorkers 1))) ;;;
  (* if --maintainInsertionOrder is set, we can only allow 1 insertion worker *)
  mio <- gets (fun imp => MaintainInsertionOrder (IngestOptions imp)) ;;
  when mio (modify (with_IngestOptions (set_NumInsertionWorkers 1))) ;;;
  (* get the number of documents per batch *)
  bbs <- gets (fun imp => BulkBufferSize (ToolOptions imp)) ;;
  when (bbs <=? 0) (modify (with_ToolOptions (set_BulkBufferSize 10000))) ;;;
  (* ensure no more than one positional argument is supplied *)
  when (1 <? Z.of_nat (List.length args))
       (fail (ErrOther "only one positional argument is allowed")) ;;;
  (* either a positional argument or --file, and not both *)
  file <- gets (fun imp => File (InputOptions imp)) ;;
  when (negb (String.eqb file "") && negb (Z.of_nat (List.length args) =? 0))
       (fail (ErrOther "incompatible options: --file and positional argument(s)")) ;;;
  when (String.eqb file "")
       (match args with
        | a :: _ => modify (with_InputOptions (set_File a))
        | [] => ret tt
        end) ;;;
  (* ensure we have a valid string to use for the collection *)
  coll <- gets (fun imp => Collection (ToolOptions imp)) ;;
  file <- gets (fun imp => File (InputOptions imp)) ;;
  when (String.eqb coll "")
       (let fileBaseName := Base file in
        let lastDotIndex := LastIndex fileBaseName "." in
        let fileBaseName :=
          if negb (lastDotIndex =? -1) then slice_to fileBaseName lastDotIndex
          else fileBaseName in
        modify (with_ToolOptions (set_Collection fileBaseName))) ;;;
  coll <- gets (fun imp => Collection (ToolOptions imp)) ;;
  orFail "invalid collection name: " (ValidateCollectionName coll).

End Validate.

(** Partial correctness of a step: from a state in [P], a run that does
    not fail ends in [Q]. *)
Definition post {A} (c : Step A) (P : MongoImport -> Prop)
           (Q : A -> MongoImport -> Prop) : Prop :=
  forall imp imp' a, P imp -> c imp = (imp', inr a) -> Q a imp'.

(** An assertion on the ingest options and the upsert fields only. *)
Definition ingest (A : IngestOptionsT -> list string -> Prop) : MongoImport -> Prop :=
  fun imp => A (IngestOptions imp) (upsertFields imp).

(** What a successful validation has done to the ingest options [io0] and
    the upsert fields [uf0] it started from. *)
Definition validated (io0 : IngestOptionsT) (uf0 : list string)
           (io : IngestOptionsT) (uf : list string) : Prop :=
  (Upsert io0 = true \/ UpsertFields io0 <> EmptyString ->
   Upsert io = true /\ MaintainInsertionOrder io = true)
  /\ (MaintainInsertionOrder io0 = true -> MaintainInsertionOrder io = true)
  /\ (MaintainInsertionOrder io = true -> NumInsertionWorkers io = 1)
  /\ 1 <= NumInsertionWorkers io
  /\ (UpsertFields io0 = EmptyString -> Upsert io0 = true -> uf = ["_id"])
  /\ (UpsertFields io0 <> EmptyString -> uf = Split (UpsertFields io0) ",")
  /\ (UpsertFields io0 = EmptyString -> Upsert io0 = false ->
      uf = uf0 /\ Upsert io = false).

(** *** Upserts *)

(** Modelled from the spec: [getUpsertValue], the helper of
    [constructUpsertDocument], defined like it in a file of the package that
    is not part of this development.  It is the record's value for a field;
    a field the record lacks reads as [VNull]. *)
Fixpoint getUpsertValue (field : string) (document : D) : Value :=
  match document with
  | [] => VNull
  | e :: r => if String.eqb (Name e) field then Val e else getUpsertValue field r
  end.

(** Modelled from the spec: [constructUpsertDocument], defined in a file of
    the package that is not part of this development.  Given the key set and
    a record it builds a selector mapping each key field to the record's
    value for that field, preserving field order; for an empty key set it
    returns no selector. *)
Definition constructUpsertDocument (upsertFields : list string) (document : D)
  : option D :=
  match upsertFields with
  | [] => None
  | _ => Some (map (fun key => mkDocElem key (getUpsertValue key document)) upsertFields)
  end.

(** *** Error classification *)

Definition isConnectionError (e : error) : bool :=
  match e with
  | ErrNoReachableServers | ErrConnection _ => true
  | _ => false
  end.

(** Modelled from the spec: [filterIngestError], defined in a file of the
    package that is not part of this development.  Under the stop policy a
    write failure is returned; under the continue policy it is logged
    and ignored; a connection-level failure is fatal under both. *)
Definition filterIngestError (stopOnError : bool) (err : option error) : option error :=
  match err with
  | None => None
  | Some e => if stopOnError || isConnectionError e then Some e else None
  end.

(** Modelled from the spec: [channelQuorumError], defined in a file of the
    package that is not part of this development.  The coordinator awaits
    the terminal signals of [quorum] parties and returns the first non-nil
    error among them, in the order read.  [ch] lists the values sent on the
    channel in arrival order; the result is [None] while fewer than [quorum]
    have arrived. *)
Fixpoint channelQuorumError (ch : list (option error)) (quorum : nat)
  : option (option error) :=
  match quorum with
  | O => Some None
  | S q =>
      match ch with
      | [] => None
      | e :: rest =>
          match channelQuorumError rest q with
          | None => None
          | Some later => Some (match e with Some _ => e | None => later end)
          end
      end
  end.

(** *** The ingestion pipeline *)

Section Pipeline.

Variable Store : Type.
Variable exec : Request -> Store -> Reply * Store.
Variable Marshal : D -> error + list byte.

(** [db.BuildWriteConcern], [removeBlankFields] and [db.ErrNsNotFound] are
    defined outside this development. *)
Variable BuildWriteConcern : string -> NodeType -> error + option Safe.
Variable removeBlankFields : D -> D.
Variable ErrNsNotFound : string.

(** The worker's call of [db.NewBufferedBulkInserter] predates the [bulk]
    parameter; [newBulk] is the bulk it is given for a collection. *)
Context {B : Type} {BI : db.BulkInserter Store B}.
Variable newBulk : mgoCollection -> B.

Notation World := (db.World Store).
Notation BufferedBulkInserter := (@db.BufferedBulkInserter B).

Definition configureSession (imp : MongoImport) (session : Session)
  : Session * option error :=
  (* sockets to the database will never be forcibly closed *)
  let session := {| socketTimeout := 0; safe := safe session |} in
  match BuildWriteConcern (WriteConcern (IngestOptions imp)) (nodeType imp) with
  | inl err => (session, Some (Errorf "write concern error: " err))
  | inr sessionSafety =>
      ({| socketTimeout := socketTimeout session; safe := sessionSafety |}, None)
  end.

Record upserter : Type := mkUpserter { up_collection : mgoCollection }.

Definition newUpserter (collection : mgoCollection) : upserter :=
  {| up_collection := collection |}.

(** [up.imp] is the importer itself, passed here as [imp]. *)
Definition upserter_Insert (imp : MongoImport) (up : upserter) (document : D) (w : World)
  : option error * World :=
  let selector := constructUpsertDocument (upsertFields imp) document in
  match selector with
  | None =>
      let '(rep, w') := db.send Store exec (ReqInsert (up_collection up) document) w in
      (reply_err rep, w')
  | Some sel =>
      let '(rep, w') := db.send Store exec (ReqUpsert (up_collection up) sel document) w in
      (reply_err rep, w')
  end.

Definition upserter_Flush (up : upserter) (w : World) : option error * World :=
  (None, w).

(** The two implementations of [flushInserter]. *)
Inductive flushInserter : Type :=
| Upserter (up : upserter)
| Buffered (bb : BufferedBulkInserter).

Definition flushInserter_Insert (imp : MongoImport) (ins : flushInserter)
           (document : D) (w : World) : option error * flushInserter * World :=
  match ins with
  | Upserter up =>
      let '(err, w') := upserter_Insert imp up document w in (err, Upserter up, w')
  | Buffered bb =>
      let '(err, bb', w') := db.Insert Store Marshal document bb w in
      (err, Buffered bb', w')
  end.

Definition flushInserter_Flush (ins : flushInserter) (w : World)
  : option error * flushInserter * World :=
  match ins with
  | Upserter up =>
      let '(err, w') := upserter_Flush up w in (err, Upserter up, w')
  | Buffered bb =>
      let '(err, bb', w') := db.Flush Store bb w in (err, Buffered bb', w')
  end.

(** [runInsertionWorker] up to the label [readLoop]: the error it returns,
    or the inserter it enters the loop with. *)
Definition startWorker (imp : MongoImport) : error + flushInserter :=
  match GetSession (SessionProvider imp) with
  | inl err => inl (Errorf "error connecting to mongod: " err)
  | inr session =>
      match configureSession imp session with
      | (_, Some err) => inl (Errorf "error configuring session: " err)
      | (_, None) =>
          let collection :=
            mkCollection (DB (ToolOptions imp)) (Collection (ToolOptions imp)) in
          if Upsert (IngestOptions imp)
          then inr (Upserter (newUpserter collection))
          else
            let bb := db.NewBufferedBulkInserter Store collection
                        (BulkBufferSize (ToolOptions imp))
                        (negb (StopOnError (IngestOptions imp)))
                        (newBulk collection) in
            if negb (MaintainInsertionOrder (IngestOptions imp))
            then inr (Buffered (db.BufferedBulkInserter_Unordered Store bb))
            else inr (Buffered bb)
      end
  end.

Definition ignoreBlanks (imp : MongoImport) : bool :=
  IgnoreBlanks (IngestOptions imp)
  && negb (String.eqb (InputType (InputOptions imp)) JSON).

(** One goroutine started by [ingestDocuments]. *)
Inductive Goroutine : Type :=
| Spawned
| Looping (ins : flushInserter)
| Finished (err : option error).

(** What the goroutines of [importDocuments] share: the importer (with its
    [insertionCount] and [Tomb]), the [readDocs] channel, the server, the
    result variable [retErr] of [ingestDocuments] (written under the mutex
    [mt]) and the value returned by [StreamDocument], once it has returned. *)
Record Pipeline : Type := mkPipeline {
  importer : MongoImport;
  readDocs : list D;
  closed : bool;
  world : World;
  retErr : option error;
  workers : list Goroutine;
  streamed : option (option error)
}.

Definition set_imp (i : MongoImport) (p : Pipeline) : Pipeline :=
  {| importer := i; readDocs := readDocs p; closed := closed p; world := world p;
     retErr := retErr p; workers := workers p; streamed := streamed p |}.

Definition set_readDocs (q : list D) (p : Pipeline) : Pipeline :=
  {| importer := importer p; readDocs := q; closed := closed p; world := world p;
     retErr := retErr p; workers := workers p; streamed := streamed p |}.

Definition set_world (w : World) (p : Pipeline) : Pipeline :=
  {| importer := importer p; readDocs := readDocs p; closed := closed p; world := w;
     retErr := retErr p; workers := workers p; streamed := streamed p |}.

Definition set_retErr (e : option error) (p : Pipeline) : Pipeline :=
  {| importer := importer p; readDocs := readDocs p; closed := closed p; world := world p;
     retErr := e; workers := workers p; streamed := streamed p |}.

Definition set_workers (l : list Goroutine) (p : Pipeline) : Pipeline :=
  {| importer := importer p; readDocs := readDocs p; closed := closed p; world := world p;
     retErr := retErr p; workers := l; streamed := streamed p |}.

Definition close_with (e : option error) (p : Pipeline) : Pipeline :=
  {| importer := importer p; readDocs := readDocs p; closed := true; world := world p;
     retErr := retErr p; workers := workers p; streamed := Some e |}.

Fixpoint update {A} (i : nat) (a : A) (l : list A) : list A :=
  match l, i with
  | [], _ => []
  | _ :: r, O => a :: r
  | x :: r, S j => x :: update j a r
  end.

Definition set_worker (i : nat) (g : Goroutine) (p : Pipeline) : Pipeline :=
  set_workers (update i g (workers p)) p.

(** The end of the goroutine body in [ingestDocuments]: worker [i] has
    returned [err]; under the mutex, only the first insertion error is set
    and the sibling goroutines are told to terminate. *)
Definition finish (i : nat) (err : option error) (p : Pipeline) : Pipeline :=
  let p := set_worker i (Finished err) p in
  match err, retErr p with
  | Some _, None =>
      set_imp (set_Tomb (Kill err (Tomb (importer p))) (importer p)) (set_retErr err p)
  | _, _ => p
  end.

(** The steps of the goroutines.  [Send] and [Return] are those of
    [StreamDocument]; [Recv i] and [Die i] are the two cases of the [select]
    of worker [i], each possible only when its channel is ready. *)
Inductive Action : Type :=
| Send (document : D)
| Return (err : option error)
| Start (i : nat)
| Recv (i : nat)
| Die (i : nat).

Definition step (a : Action) (p : Pipeline) : option Pipeline :=
  match a with
  | Send document =>
      if negb (closed p) && (Z.of_nat (List.length (readDocs p)) <? workerBufferSize)
      then Some (set_readDocs (readDocs p ++ [document]) p)
      else None
  | Return err =>
      if closed p then None else Some (close_with err p)
  | Start i =>
      match nth_error (workers p) i with
      | Some Spawned =>
          match startWorker (importer p) with
          | inl err => Some (finish i (Some err) p)
          | inr inserter => Some (set_worker i (Looping inserter) p)
          end
      | _ => None
      end
  | Recv i =>
      match nth_error (workers p) i with
      | Some (Looping inserter) =>
          match readDocs p with
          | document :: rest =>
              (* ignore blank fields if specified *)
              let document :=
                if ignoreBlanks (importer p) then removeBlankFields document else document in
              let '(e, inserter', w') :=
                flushInserter_Insert (importer p) inserter document (world p) in
              let p := set_world w' (set_readDocs rest p) in
              match filterIngestError (StopOnError (IngestOptions (importer p))) e with
              | Some err => Some (finish i (Some err) p)
              | None =>
                  let n := GoInt.addUint64 (insertionCount (importer p)) 1 in
                  Some (set_worker i (Looping inserter')
                          (set_imp (set_insertionCount n (importer p)) p))
              end
          | [] =>
              if closed p
              then
                (* break readLoop *)
                let '(e, _, w') := flushInserter_Flush inserter (world p) in
                let p := set_world w' p in
                Some (finish i (filterIngestError (StopOnError (IngestOptions (importer p))) e) p)
              else None
          end
      | _ => None
      end
  | Die i =>
      match nth_error (workers p) i with
      | Some (Looping _) =>
          if dying (Tomb (importer p)) then Some (finish i None p) else None
      | _ => None
      end
  end.

(** A schedule: the steps taken, in order.  [None] when a step is not
    possible in the state it is taken in. *)
Fixpoint run (sched : list Action) (p : Pipeline) : option Pipeline :=
  match sched with
  | [] => Some p
  | a :: rest =>
      match step a p with
      | Some p' => run rest p'
      | None => None
      end
  end.

(** The worker a step belongs to. *)
Definition actor (a : Action) : option nat :=
  match a with
  | Start i | Recv i | Die i => Some i
  | _ => None
  end.

(** The records the producer sends under a schedule, in order. *)
Fixpoint sentDocs (sched : list Action) : list D :=
  match sched with
  | [] => []
  | Send document :: rest => document :: sentDocs rest
  | _ :: rest => sentDocs rest
  end.

Definition isFinished (g : Goroutine) : bool :=
  match g with Finished _ => true | _ => false end.

Definition numInsertionWorkers (imp : MongoImport) : Z :=
  let n := NumInsertionWorkers (IngestOptions imp) in
  if n <=? 0 then 1 else n.

(** [ingestDocuments]: the goroutines it starts ... *)
Definition spawn (imp : MongoImport) : list Goroutine :=
  repeat Spawned (Z.to_nat (numInsertionWorkers imp)).

(** ... and what it returns once [wg.Wait()] has returned. *)
Definition ingestDocuments (p : Pipeline) : option (option error) :=
  if forallb isFinished (workers p) then Some (retErr p) else None.

(** The state in which [importDocuments] starts its two goroutines. *)
Definition begin (imp : MongoImport) (w : World) : Pipeline :=
  {| importer := imp; readDocs := []; closed := false; world := w;
     retErr := None; workers := spawn imp; streamed := None |}.

(** The end of [importDocuments]: both goroutines have sent on
    [processingErrChan], the one named by [ingestFirst] first.  [None] while
    one of them has not returned. *)
Definition collect (p : Pipeline) (ingestFirst : bool)
  : option (Z * option error * World) :=
  match streamed p, ingestDocuments p with
  | Some e1, Some e2 =>
      let processingErrChan := if ingestFirst then [e2; e1] else [e1; e2] in
      match channelQuorumError processingErrChan 2 with
      | Some e1 => Some (insertionCount (importer p), e1, world p)
      | None => None
      end
  | _, _ => None
  end.

(** [importDocuments], run under a schedule.  The result is [None] when the
    schedule does not bring both goroutines to their end. *)
Definition importDocuments (imp : MongoImport) (w : World) (sched : list Action)
           (ingestFirst : bool) : option (Z * option error * World) :=
  match GetSession (SessionProvider imp) with
  | inl err => Some (0, Some err, w)
  | inr session =>
      (* check if the server is a replica set, mongos, or standalone *)
      match GetNodeType (SessionProvider imp) with
      | inl err => Some (0, Some (Errorf "error checking connected node type: " err), w)
      | inr nt =>
          let imp := set_nodeType nt imp in
          match configureSession imp session with
          | (_, Some err) => Some (0, Some (Errorf "error configuring session: " err), w)
          | (_, None) =>
              (* drop the database if necessary *)
              let collection :=
                mkCollection (DB (ToolOptions imp)) (Collection (ToolOptions imp)) in
              let '(dropErr, w) :=
                if Drop (IngestOptions imp)
                then
                  let '(rep, w') := db.send Store exec (ReqDrop collection) w in
                  match reply_err rep with
                  | Some err =>
                      if negb (String.eqb (Error err) ErrNsNotFound)
                      then (Some err, w') else (None, w')
                  | None => (None, w')
                  end
                else (None, w) in
              match dropErr with
              | Some err => Some (0, Some err, w)
              | None =>
                  match run sched (begin imp w) with
                  | None => None
                  | Some p => collect p ingestFirst
                  end
              end
          end
      end
  end.

End Pipeline.

Arguments importer {Store B} p.
Arguments readDocs {Store B} p.
Arguments closed {Store B} p.
Arguments world {Store B} p.
Arguments retErr {Store B} p.
Arguments workers {Store B} p.
Arguments streamed {Store B} p.
Arguments finish {Store B} i err p.
Arguments begin {Store B} imp w.
Arguments collect {Store B} p ingestFirst.
Arguments ingestDocuments {Store B} p.

End mongoimport.

(** ** A test double for the collaborators

    A small BSON encoder standing for [bson.Marshal] and an in-memory
    collection with a unique index on [_id] standing for the server. *)

Module Mock.

Definition byte_of_Z (z : Z) : byte :=
  match Byte.of_N (Z.to_N (z mod 256)) with
  | Some b => b
  | None => x00
  end.

Definition Z_of_byte (b : byte) : Z := Z.of_N (Byte.to_N b).

(** Little-endian [int32]. *)
Definition int32le (z : Z) : list byte :=
  [byte_of_Z z; byte_of_Z (z / 256); byte_of_Z (z / 65536); byte_of_Z (z / 16777216)].

Definition cstring (s : string) : list byte := list_byte_of_string s ++ [x00].

Definition marshalElem (e : DocElem) : error + list byte :=
  match Val e with
  | VNull => inr (x0a :: cstring (Name e))
  | VInt32 z => inr (x10 :: cstring (Name e) ++ int32le z)
  | VString s =>
      inr (x02 :: cstring (Name e)
             ++ int32le (len (list_byte_of_string s) + 1)
             ++ list_byte_of_string s ++ [x00])
  | VBinary data =>
      inr (x05 :: cstring (Name e) ++ int32le (len data) ++ [x00] ++ data)
  | VUnsupported => inl (ErrOther "Can't marshal chan int in a BSON document")
  end.

Fixpoint marshalElems (d : D) : error + list byte :=
  match d with
  | [] => inr []
  | e :: r =>
      match marshalElem e with
      | inl err => inl err
      | inr b =>
          match marshalElems r with
          | inl err => inl err
          | inr bs => inr (b ++ bs)
          end
      end
  end.

Definition Marshal (d : D) : error + list byte :=
  match marshalElems d with
  | inl err => inl err
  | inr body => inr (int32le (len body + 5) ++ body ++ [x00])
  end.

(** The collection: the [_id] values it holds. *)
Definition Store : Type := list Z.

(** The [_id] of an encoded document whose first element is an [int32]
    named [_id]. *)
Definition rawId (r : Raw) : option Z :=
  match Data r with
  | _ :: _ :: _ :: _ :: x10 :: x5f :: x69 :: x64 :: x00 :: b0 :: b1 :: b2 :: b3 :: _ =>
      Some (Z_of_byte b0 + 256 * Z_of_byte b1 + 65536 * Z_of_byte b2
            + 16777216 * Z_of_byte b3)
  | _ => None
  end.

Definition docId (d : D) : option Z :=
  match mongoimport.getUpsertValue "_id" d with
  | VInt32 k => Some k
  | _ => None
  end.

Definition duplicateKey (index : Z) : writeError :=
  {| we_index := index; we_code := 11000; we_errmsg := "E11000 duplicate key error" |}.

(** An [insert] of a batch: a document whose [_id] is present fails; in
    an ordered batch the first failure ends the batch. *)
Fixpoint insertBatch (ordered : bool) (index : Z) (docs : list Raw) (s : Store)
  : list writeError * Store :=
  match docs with
  | [] => ([], s)
  | d :: rest =>
      match rawId d with
      | Some k =>
          if existsb (Z.eqb k) s
          then
            if ordered then ([duplicateKey index], s)
            else
              let '(errs, s') := insertBatch ordered (index + 1) rest s in
              (duplicateKey index :: errs, s')
          else insertBatch ordered (index + 1) rest (s ++ [k])
      | None => insertBatch ordered (index + 1) rest s
      end
  end.

Definition exec (r : Request) (s : Store) : Reply * Store :=
  match r with
  | ReqCommand c =>
      let '(errs, s') := insertBatch (cmd_ordered c) 0 (cmd_documents c) s in
      ({| reply_err := None; reply_writeErrors := errs |}, s')
  | ReqBulk _ ordered docs =>
      let '(errs, s') := insertBatch ordered 0 docs s in
      ({| reply_err := match errs with
                       | [] => None
                       | e :: _ => Some (ErrOther (we_errmsg e))
                       end;
          reply_writeErrors := errs |}, s')
  | ReqInsert _ doc =>
      match docId doc with
      | Some k =>
          if existsb (Z.eqb k) s
          then ({| reply_err := Some (ErrOther "E11000 duplicate key error");
                   reply_writeErrors := [] |}, s)
          else ({| reply_err := None; reply_writeErrors := [] |}, s ++ [k])
      | None => ({| reply_err := None; reply_writeErrors := [] |}, s)
      end
  | ReqUpsert _ _ doc =>
      match docId doc with
      | Some k =>
          ({| reply_err := None; reply_writeErrors := [] |},
           if existsb (Z.eqb k) s then s else s ++ [k])
      | None => ({| reply_err := None; reply_writeErrors := [] |}, s)
      end
  | ReqDrop _ => ({| reply_err := None; reply_writeErrors := [] |}, [])
  end.

Definition World : Type := db.World Store.

Definition wcbInserter : db.BulkInserter Store db.WriteCommandBulk :=
  db.WriteCommandBulk_BulkInserter Store exec.

Definition world0 (s : Store) : World := {| db.store := s; db.wire := [] |}.

(** The sizes of the batches written, oldest first. *)
Definition batchSizes (w : World) : list nat :=
  flat_map (fun r => match batch_of r with
                     | Some docs => [List.length docs]
                     | None => []
                     end) (db.wire w).

Definition users : mgoCollection := {| DatabaseName := "test"; CName := "users" |}.

Definition wcb0 : db.WriteCommandBulk := db.NewWriteCommandBulk users true None.

Definition record (k : Z) : D := [{| Name := "_id"; Val := VInt32 k |}].

Definition records (n : nat) : list D := map (fun i => record (Z.of_nat i)) (seq 1 n).

(** [n] zero bytes. *)
Definition zeros (n : N) : list byte := N.iter n (cons x00) [].

Definition blob (n : N) : D :=
  [{| Name := "_id"; Val := VInt32 1 |}; {| Name := "blob"; Val := VBinary (zeros n) |}].

Definition removeBlankFields (d : D) : D :=
  filter (fun e => match Val e with
                   | VString s => negb (String.eqb s "")
                   | _ => true
                   end) d.

Definition BuildWriteConcern (wc : string) (n : mongoimport.NodeType) : error + option Safe :=
  inr None.

Definition ValidateName (s : string) : option error :=
  if String.eqb s "" then Some (ErrOther "name cannot be blank") else None.

Definition validateFields (l : list string) : option error :=
  if existsb (fun f => String.eqb f "") l
  then Some (ErrOther "field cannot be blank") else None.

Definition provider : mongoimport.SessionProviderT :=
  {| mongoimport.GetSession := inr {| mongoimport.socketTimeout := 60; mongoimport.safe := None |};
     mongoimport.GetNodeType := inr mongoimport.Standalone |}.

(** An importer configured for [workers] insertion workers, batches of
    [limit] documents and the given policy. *)
Definition importer (workers limit : Z) (stopOnError maintainOrder : bool)
  : mongoimport.MongoImport :=
  {| mongoimport.ToolOptions :=
       {| mongoimport.DB := "test"; mongoimport.Collection := "users";
          mongoimport.Host := ""; mongoimport.Port := "";
          mongoimport.NumDecodingWorkers := 1; mongoimport.MaxProcs := 1;
          mongoimport.BulkBufferSize := limit |};
     mongoimport.InputOptions :=
       {| mongoimport.Fields := None; mongoimport.HeaderLine := false;
          mongoimport.JSONArray := false; mongoimport.InputType := "json";
          mongoimport.File := "users.json"; mongoimport.FieldFile := None |};
     mongoimport.IngestOptions :=
       {| mongoimport.Drop := false; mongoimport.IgnoreBlanks := false;
          mongoimport.MaintainInsertionOrder := maintainOrder;
          mongoimport.NumInsertionWorkers := workers;
          mongoimport.StopOnError := stopOnError;
          mongoimport.Upsert := false; mongoimport.UpsertFields := "";
          mongoimport.WriteConcern := "" |};
     mongoimport.SessionProvider := provider;
     mongoimport.insertionCount := 0;
     mongoimport.Tomb := {| mongoimport.dying := false; mongoimport.reason := None |};
     mongoimport.upsertFields := [];
     mongoimport.nodeType := mongoimport.Standalone |}.

Definition newBulk (c : mgoCollection) : db.WriteCommandBulk :=
  db.NewWriteCommandBulk c true None.

(** The producer sends each record as soon as worker [i] has taken the
    previous one, then returns. *)
Definition lockstep (i : nat) (docs : list D) : list mongoimport.Action :=
  mongoimport.Start i
    :: flat_map (fun d => [mongoimport.Send d; mongoimport.Recv i]) docs
    ++ [mongoimport.Return None; mongoimport.Recv i].

(** A fresh inserter over the test collection. *)
Definition fresh (limit : Z) : @db.BufferedBulkInserter db.WriteCommandBulk :=
  @db.NewBufferedBulkInserter Store db.WriteCommandBulk wcbInserter
    users limit true wcb0.

Definition Insert :=
  @db.Insert Store Marshal db.WriteCommandBulk wcbInserter.

Definition Flush :=
  @db.Flush Store db.WriteCommandBulk wcbInserter.

Definition calls :=
  @db.calls Store Marshal db.WriteCommandBulk wcbInserter.

Definition importDocuments :=
  @mongoimport.importDocuments Store exec Marshal BuildWriteConcern
    removeBlankFields "ns not found" db.WriteCommandBulk wcbInserter
    newBulk.

Definition run :=
  @mongoimport.run Store exec Marshal BuildWriteConcern
    removeBlankFields db.WriteCommandBulk wcbInserter newBulk.

Definition step :=
  @mongoimport.step Store exec Marshal BuildWriteConcern
    removeBlankFields db.WriteCommandBulk wcbInserter newBulk.

(** Two workers, a doc limit of 1, stop-on-error on, [_id = 1] already in
    the store, four records on the channel.  Worker 0 takes two records; its
    flush of the first fails and kills the tomb. *)
Definition killed : mongoimport.Pipeline Store :=
  match run [mongoimport.Send (record 1); mongoimport.Send (record 2);
             mongoimport.Send (record 3); mongoimport.Send (record 4);
             mongoimport.Start 0; mongoimport.Start 1;
             mongoimport.Recv 0; mongoimport.Recv 0]
            (mongoimport.begin (importer 2 1 true false) (world0 [1])) with
  | Some p => p
  | None => mongoimport.begin (importer 2 1 true false) (world0 [1])
  end.

(** A configuration asking for upserts and four insertion workers. *)
Definition upserting : mongoimport.MongoImport :=
  mongoimport.with_IngestOptions (mongoimport.set_Upsert true)
    (importer 4 1000 false false).

End Mock.

(** * Properties *)

(** ** Integers and byte counts *)

Lemma wrap_small z : GoInt.inRange z -> GoInt.wrap z = z.
Proof.
  unfold GoInt.inRange, GoInt.wrap, GoInt.minInt, GoInt.maxInt. intros H.
  rewrite Z.mod_small; lia.
Qed.

Lemma wrap_wrap_add a b : GoInt.wrap (GoInt.wrap a + b) = GoInt.wrap (a + b).
Proof.
  unfold GoInt.wrap.
  replace ((a + 2 ^ 63) mod 2 ^ 64 - 2 ^ 63 + b + 2 ^ 63)
    with ((a + 2 ^ 63) mod 2 ^ 64 + b) by lia.
  replace (a + b + 2 ^ 63) with ((a + 2 ^ 63) + b) by lia.
  rewrite Zplus_mod_idemp_l. reflexivity.
Qed.

Lemma len_nonneg b : 0 <= len b.
Proof. unfold len. lia. Qed.

Lemma len_app a b : len (a ++ b) = len a + len b.
Proof. unfold len. rewrite List.length_app. lia. Qed.

Lemma batch_bytes_app a b : batch_bytes (a ++ b) = batch_bytes a + batch_bytes b.
Proof. induction a as [|x a IH]; simpl; [reflexivity | rewrite IH; lia]. Qed.

Lemma batch_bytes_nonneg a : 0 <= batch_bytes a.
Proof.
  induction a as [|x a IH]; simpl; [lia | pose proof (len_nonneg (Data x)); lia].
Qed.

(** ** The two bulk inserters meet [BulkInserterSpec] *)

Section ServerFacts.

Variable Store : Type.
Variable exec : Request -> Store -> Reply * Store.

Lemma send_wire r (w : db.World Store) :
  db.wire (snd (db.send Store exec r w)) = db.wire w ++ [r].
Proof. unfold db.send. destruct (exec r (db.store w)). reflexivity. Qed.

Lemma WriteCommandBulk_Run_wire (b : db.WriteCommandBulk) (w : db.World Store) :
  db.wire (snd (db.WriteCommandBulk_Run Store exec b w))
  = db.wire w
      ++ [ReqCommand {| cmd_insert := CName (db.wcb_c b);
                        cmd_ordered := negb (db.wcb_unordered b);
                        cmd_documents := db.wcb_docs b;
                        cmd_writeConcern := db.wcb_writeConcern b |}].
Proof.
  unfold db.WriteCommandBulk_Run.
  match goal with |- context [db.send Store exec ?r w] =>
    pose proof (send_wire r w) as H; destruct (db.send Store exec r w) as [rep w'] end.
  simpl in H. destruct (reply_err rep); [exact H|].
  destruct (0 <? _); exact H.
Qed.

Lemma LegacyBulkInserter_Run_wire (b : db.LegacyBulkInserter) (w : db.World Store) :
  db.wire (snd (db.LegacyBulkInserter_Run Store exec b w))
  = db.wire w
      ++ [ReqBulk (db.bulk_c (db.lbi_b b)) (db.bulk_ordered (db.lbi_b b))
                  (db.bulk_docs (db.lbi_b b))].
Proof.
  unfold db.LegacyBulkInserter_Run, db.Bulk_Run.
  match goal with |- context [db.send Store exec ?r w] =>
    pose proof (send_wire r w) as H; destruct (db.send Store exec r w) as [rep w'] end.
  exact H.
Qed.

Lemma LegacyBulkInserter_Reset_docs (b : db.LegacyBulkInserter) :
  db.bulk_docs (db.lbi_b (db.LegacyBulkInserter_Reset b)) = [].
Proof. unfold db.LegacyBulkInserter_Reset. simpl. destruct (db.lbi_unordered b); reflexivity. Qed.

Definition WriteCommandBulk_Spec
  : @db.BulkInserterSpec Store db.WriteCommandBulk (db.WriteCommandBulk_BulkInserter Store exec) :=
  @db.Build_BulkInserterSpec Store db.WriteCommandBulk
    (db.WriteCommandBulk_BulkInserter Store exec)
    db.wcb_docs
    (fun b => ReqCommand {| cmd_insert := CName (db.wcb_c b);
                            cmd_ordered := negb (db.wcb_unordered b);
                            cmd_documents := db.wcb_docs b;
                            cmd_writeConcern := db.wcb_writeConcern b |})
    (fun b => eq_refl) (fun d b => eq_refl) (fun b => eq_refl) (fun b => eq_refl)
    WriteCommandBulk_Run_wire.

Definition LegacyBulkInserter_Spec
  : @db.BulkInserterSpec Store db.LegacyBulkInserter (db.LegacyBulkInserter_BulkInserter Store exec) :=
  @db.Build_BulkInserterSpec Store db.LegacyBulkInserter
    (db.LegacyBulkInserter_BulkInserter Store exec)
    (fun b => db.bulk_docs (db.lbi_b b))
    (fun b => ReqBulk (db.bulk_c (db.lbi_b b)) (db.bulk_ordered (db.lbi_b b))
                      (db.bulk_docs (db.lbi_b b)))
    LegacyBulkInserter_Reset_docs (fun d b => eq_refl) (fun b => eq_refl)
    (fun b => eq_refl) LegacyBulkInserter_Run_wire.

End ServerFacts.

(** ** The buffered bulk inserter *)

Section BufferedFacts.

Variable Store : Type.
Variable Marshal : D -> error + list byte.
Context {B : Type} {BI : db.BulkInserter Store B} {BS : db.BulkInserterSpec Store B}.

Notation Insert := (db.Insert Store Marshal).
Notation Flush := (db.Flush Store).
Notation BufferedBulkInserter := (@db.BufferedBulkInserter B).

Implicit Types (bb : BufferedBulkInserter) (w : db.World Store).

Lemma Flush_zero bb w : db.docCount bb = 0 -> Flush bb w = (None, bb, w).
Proof. intros H. unfold db.Flush. rewrite H. reflexivity. Qed.

Lemma Flush_nonzero bb w :
  db.docCount bb <> 0 ->
  Flush bb w
  = (fst (db.Run Store (db.bulk bb) w),
     db.set_bulk (db.Reset Store (db.bulk bb)) bb,
     snd (db.Run Store (db.bulk bb) w)).
Proof.
  intros H. unfold db.Flush.
  destruct (Z.eqb_spec (db.docCount bb) 0) as [E|_]; [contradiction|].
  destruct (db.Run Store (db.bulk bb) w); reflexivity.
Qed.

(** [Flush] writes the counters on neither path. *)
Lemma Flush_counts bb w :
  db.docCount (snd (fst (Flush bb w))) = db.docCount bb
  /\ db.byteCount (snd (fst (Flush bb w))) = db.byteCount bb
  /\ db.docLimit (snd (fst (Flush bb w))) = db.docLimit bb.
Proof.
  unfold db.Flush. destruct (db.docCount bb =? 0); [easy|].
  destruct (db.Run Store (db.bulk bb) w). simpl. easy.
Qed.

Lemma full_spec bb rawBytes :
  db.full bb rawBytes = true
  <-> (db.docLimit bb <= db.docCount bb
       \/ db.MaxBulkSize < GoInt.add (db.byteCount bb) (len rawBytes)
       \/ db.BulkDocLimit <= db.docCount bb).
Proof.
  unfold db.full. rewrite !orb_true_iff, !Z.leb_le, Z.ltb_lt. tauto.
Qed.

(** What a successful [Marshal] leads to, by the outcome of [Flush]. *)
Lemma Insert_marshalled bb w doc rawBytes :
  Marshal doc = inr rawBytes ->
  Insert doc bb w
  = let r := if db.full bb rawBytes then Flush bb w else (None, bb, w) in
    (fst (fst r),
     db.set_bulk
       (db.BulkInsert Store (mkRaw x00 rawBytes) (db.bulk (snd (fst r))))
       (db.set_counts (GoInt.add (db.byteCount (snd (fst r))) (len rawBytes))
                      (GoInt.add (db.docCount (snd (fst r))) 1) (snd (fst r))),
     snd r).
Proof.
  intros H. unfold db.Insert. rewrite H.
  destruct (if db.full bb rawBytes then Flush bb w else (None, bb, w)) as [[e b1] w1].
  reflexivity.
Qed.

Lemma Insert_not_marshalled bb w doc err :
  Marshal doc = inl err ->
  Insert doc bb w = (Some (Errorf "bson encoding error: " err), bb, w).
Proof. intros H. unfold db.Insert. rewrite H. reflexivity. Qed.

(** C10: when the BSON serialization of a document fails, [Insert] returns
    the encoding error and leaves the inserter and the server as they were:
    no flush, nothing buffered, both counters unchanged. *)
Theorem Insert_encoding_error bb w doc err :
  Marshal doc = inl err ->
  Insert doc bb w = (Some (Errorf "bson encoding error: " err), bb, w).
Proof. intros H. unfold db.Insert. rewrite H. reflexivity. Qed.

(** C3: [Insert] serializes the record; if the count has reached the doc
    limit, or the byte count plus the record's size exceeds the byte
    ceiling, or the count has reached the hard doc ceiling, it flushes the
    current batch and keeps the flush error; otherwise nothing is sent.  In
    both cases the record is appended, both counters are updated and the
    kept error is returned: a failed flush is reported by the call that
    triggered it, whose own record stays buffered, while the request that
    failed carried the records of the earlier calls. *)
Theorem Insert_flushes_then_buffers bb w doc rawBytes :
  Marshal doc = inr rawBytes ->
  exists err bb' w',
    Insert doc bb w = (err, bb', w')
    /\ db.docCount bb' = GoInt.add (db.docCount bb) 1
    /\ db.byteCount bb' = GoInt.add (db.byteCount bb) (len rawBytes)
    /\ ((db.docLimit bb <= db.docCount bb
         \/ db.MaxBulkSize < GoInt.add (db.byteCount bb) (len rawBytes)
         \/ db.BulkDocLimit <= db.docCount bb) ->
        exists bb1,
          Flush bb w = (err, bb1, w')
          /\ db.pending Store (db.bulk bb')
             = db.pending Store (db.bulk bb1) ++ [mkRaw x00 rawBytes])
    /\ (~ (db.docLimit bb <= db.docCount bb
           \/ db.MaxBulkSize < GoInt.add (db.byteCount bb) (len rawBytes)
           \/ db.BulkDocLimit <= db.docCount bb) ->
        err = None /\ w' = w
        /\ db.pending Store (db.bulk bb')
           = db.pending Store (db.bulk bb) ++ [mkRaw x00 rawBytes])
    /\ (forall e, err = Some e ->
        db.wire w' = db.wire w ++ [db.request Store (db.bulk bb)]
        /\ batch_of (db.request Store (db.bulk bb))
           = Some (db.pending Store (db.bulk bb))
        /\ db.pending Store (db.bulk bb') = [mkRaw x00 rawBytes]).
Proof.
  intros HM. rewrite (Insert_marshalled bb w doc rawBytes HM).
  pose proof (full_spec bb rawBytes) as Hfull.
  destruct (db.full bb rawBytes) eqn:Efull; cbv zeta.
  - (* the buffer is full: Flush first *)
    pose proof (Flush_counts bb w) as (Hc & Hb & _).
    destruct (Flush bb w) as [[e b1] w1] eqn:EF. simpl in *.
    exists e, (db.set_bulk (db.BulkInsert Store (mkRaw x00 rawBytes) (db.bulk b1))
                 (db.set_counts (GoInt.add (db.byteCount b1) (len rawBytes))
                                (GoInt.add (db.docCount b1) 1) b1)), w1.
    split; [reflexivity|]. simpl. rewrite Hc, Hb.
    split; [reflexivity|]. split; [reflexivity|].
    split; [|split].
    + intros _. exists b1. split; [reflexivity|]. apply db.pending_BulkInsert.
    + intros Hn. exfalso. apply Hn. apply Hfull. reflexivity.
    + intros e0 He. subst e.
      destruct (Z.eq_dec (db.docCount bb) 0) as [Hz|Hnz].
      * rewrite (Flush_zero bb w Hz) in EF. discriminate.
      * rewrite (Flush_nonzero bb w Hnz) in EF. inversion EF; subst.
        split; [apply db.Run_wire|]. split; [apply db.request_batch|].
        simpl. rewrite db.pending_BulkInsert, db.pending_Reset. reflexivity.
  - (* room left: nothing is sent *)
    simpl.
    exists None, (db.set_bulk (db.BulkInsert Store (mkRaw x00 rawBytes) (db.bulk bb))
                    (db.set_counts (GoInt.add (db.byteCount bb) (len rawBytes))
                                   (GoInt.add (db.docCount bb) 1) bb)), w.
    split; [reflexivity|]. simpl.
    split; [reflexivity|]. split; [reflexivity|].
    split; [|split].
    + intros H. apply Hfull in H. discriminate.
    + intros _. split; [reflexivity|]. split; [reflexivity|].
      apply db.pending_BulkInsert.
    + intros e He. discriminate.
Qed.

(** [Flush] on an inserter whose record count is zero sends nothing and
    returns nil, so two calls in succession there send nothing and both
    return nil; on an inserter whose record count is not zero one [Flush]
    sends exactly one request, carrying the buffered records, returns what
    [Run] returned and leaves the buffer empty. *)
Lemma Flush_noop_or_one_write bb w :
  (db.docCount bb = 0 ->
   Flush bb w = (None, bb, w)
   /\ (let '(_, bb1, w1) := Flush bb w in Flush bb1 w1) = (None, bb, w))
  /\ (db.docCount bb <> 0 ->
      exists err bb1 w1,
        Flush bb w = (err, bb1, w1)
        /\ err = fst (db.Run Store (db.bulk bb) w)
        /\ db.wire w1 = db.wire w ++ [db.request Store (db.bulk bb)]
        /\ batch_of (db.request Store (db.bulk bb))
           = Some (db.pending Store (db.bulk bb))
        /\ db.pending Store (db.bulk bb1) = []).
Proof.
  split.
  - intros Hz. rewrite (Flush_zero bb w Hz). split; [reflexivity|].
    apply Flush_zero, Hz.
  - intros Hnz. rewrite (Flush_nonzero bb w Hnz).
    eexists _, _, _. split; [reflexivity|]. split; [reflexivity|].
    split; [apply db.Run_wire|]. split; [apply db.request_batch|].
    simpl. apply db.pending_Reset.
Qed.

End BufferedFacts.

(** ** The ceilings of a flushed batch *)

Section CeilingFacts.

Variable Store : Type.
Variable Marshal : D -> error + list byte.
Context {B : Type} {BI : db.BulkInserter Store B} {BS : db.BulkInserterSpec Store B}.

Notation BufferedBulkInserter := (@db.BufferedBulkInserter B).

Implicit Types (bb : BufferedBulkInserter) (w : db.World Store).

Notation counted := (db.counted Store).
Notation withinCeilings := db.withinCeilings.

Ltac bounds :=
  unfold db.BulkDocLimit, db.MaxBulkSize, GoInt.inRange, GoInt.minInt, GoInt.maxInt in *;
  lia.

Lemma counted_Flush limit k bb w :
  1 <= limit ->
  counted limit k bb ->
  exists e bb' w' sent,
    db.Flush Store bb w = (e, bb', w')
    /\ counted limit k bb'
    /\ db.pending Store (db.bulk bb') = []
    /\ db.wire w' = db.wire w ++ sent
    /\ Forall (withinCeilings limit) sent.
Proof.
  intros Hlim (Hl & Hc & Hk & (T & HT & HbT & HTk) & Hn & Hmin & Hbytes).
  destruct (Z.eq_dec (db.docCount bb) 0) as [Hz|Hnz].
  - rewrite (Flush_zero Store bb w Hz).
    exists None, bb, w, []. split; [reflexivity|].
    assert (Hnil : db.pending Store (db.bulk bb) = []).
    { destruct (db.pending Store (db.bulk bb)); [reflexivity|]. simpl in Hn. lia. }
    split; [|split; [exact Hnil|split; [symmetry; apply app_nil_r|constructor]]].
    repeat split; try assumption. exists T. auto.
  - rewrite (Flush_nonzero Store bb w Hnz).
    eexists _, _, _, [db.request Store (db.bulk bb)]. split; [reflexivity|].
    assert (Hnil : db.pending Store (db.Reset Store (db.bulk bb)) = [])
      by apply db.pending_Reset.
    split; [|split; [exact Hnil|split; [apply db.Run_wire|]]].
    + unfold db.counted. simpl. rewrite Hnil. simpl.
      pose proof (batch_bytes_nonneg (db.pending Store (db.bulk bb))).
      unfold db.BulkDocLimit, db.MaxBulkSize in *.
      repeat split; try assumption; try lia. exists T. repeat split; try assumption; lia.
    + constructor; [|constructor].
      intros docs Hd. rewrite db.request_batch in Hd. inversion Hd; subst. split; assumption.
Qed.

Lemma counted_Insert limit k bb w doc :
  1 <= limit ->
  k + 1 <= GoInt.maxInt ->
  (forall rawBytes, Marshal doc = inr rawBytes -> len rawBytes <= db.MaxBulkSize) ->
  counted limit k bb ->
  exists e bb' w' k' sent,
    db.Insert Store Marshal doc bb w = (e, bb', w')
    /\ k <= k' <= k + 1
    /\ counted limit k' bb'
    /\ db.wire w' = db.wire w ++ sent
    /\ Forall (withinCeilings limit) sent.
Proof.
  intros Hlim Hmax Hsize Hinv.
  destruct (Marshal doc) as [err|rawBytes] eqn:HM.
  - rewrite (Insert_not_marshalled Store Marshal bb w doc err HM).
    exists (Some (Errorf "bson encoding error: " err)), bb, w, k, [].
    split; [reflexivity|]. split; [lia|]. split; [exact Hinv|].
    split; [symmetry; apply app_nil_r|constructor].
  - specialize (Hsize rawBytes eq_refl).
    pose proof (len_nonneg rawBytes) as Hlen.
    rewrite (Insert_marshalled Store Marshal bb w doc rawBytes HM).
    pose proof (full_spec bb rawBytes) as Hfull.
    destruct (db.full bb rawBytes) eqn:Efull; cbv zeta.
    + destruct (counted_Flush limit k bb w Hlim Hinv)
        as (e & bb1 & w1 & sent & EF & Hinv1 & Hnil & Hw & Hok).
      rewrite EF. simpl.
      eexists e, _, w1, (k + 1), sent. split; [reflexivity|]. split; [lia|].
      split; [|split; assumption].
      destruct Hinv1 as (Hl & Hc & Hk & (T & HT & HbT & HTk) & Hn & Hmin & Hbytes).
      unfold db.counted. simpl. rewrite db.pending_BulkInsert, Hnil. simpl.
      rewrite Hc, HT. unfold GoInt.add. rewrite wrap_wrap_add.
      unfold db.BulkDocLimit, db.MaxBulkSize, GoInt.maxInt in *.
      split; [assumption|]. split.
      { apply wrap_small. bounds. }
      split; [lia|]. split.
      { exists (T + len rawBytes). split; [reflexivity|].
        rewrite Hnil in HbT. simpl in HbT. bounds. }
      bounds.
    + simpl.
      assert (Hroom : ~ (db.docLimit bb <= db.docCount bb
                         \/ db.MaxBulkSize < GoInt.add (db.byteCount bb) (len rawBytes)
                         \/ db.BulkDocLimit <= db.docCount bb)).
      { intros H. apply Hfull in H. discriminate. }
      destruct Hinv as (Hl & Hc & Hk & (T & HT & HbT & HTk) & Hn & Hmin & Hbytes).
      rewrite Hl, Hc, HT in Hroom. unfold GoInt.add in Hroom.
      rewrite wrap_wrap_add in Hroom.
      pose proof (batch_bytes_nonneg (db.pending Store (db.bulk bb))) as Hb0.
      unfold db.BulkDocLimit, db.MaxBulkSize, GoInt.maxInt in *.
      assert (Hw : GoInt.wrap (T + len rawBytes) = T + len rawBytes).
      { apply wrap_small. unfold GoInt.inRange, GoInt.minInt, GoInt.maxInt. nia. }
      rewrite Hw in Hroom.
      eexists None, _, w, (k + 1), []. split; [reflexivity|]. split; [lia|].
      split; [|split; [symmetry; apply app_nil_r|constructor]].
      unfold db.counted. simpl. rewrite db.pending_BulkInsert.
      rewrite batch_bytes_app, List.length_app. simpl.
      rewrite Hc, HT. unfold GoInt.add. rewrite wrap_wrap_add.
      split; [assumption|]. split.
      { apply wrap_small. bounds. }
      split; [lia|]. split.
      { exists (T + len rawBytes). split; [reflexivity|]. bounds. }
      bounds.
Qed.

Lemma counted_calls limit cs : forall k bb w,
  1 <= limit ->
  k + Z.of_nat (List.length cs) <= GoInt.maxInt ->
  (forall doc rawBytes, In (db.DoInsert doc) cs -> Marshal doc = inr rawBytes ->
                        len rawBytes <= db.MaxBulkSize) ->
  counted limit k bb ->
  exists sent,
    db.wire (snd (db.calls Store Marshal cs bb w)) = db.wire w ++ sent
    /\ Forall (withinCeilings limit) sent.
Proof.
  induction cs as [|c rest IH]; intros k bb w Hlim Hmax Hsize Hinv.
  - exists []. simpl. split; [symmetry; apply app_nil_r|constructor].
  - simpl db.calls. simpl List.length in Hmax.
    assert (Hstep : exists e bb' w' k' sent,
               db.call Store Marshal c bb w = (e, bb', w')
               /\ k <= k' <= k + 1
               /\ counted limit k' bb'
               /\ db.wire w' = db.wire w ++ sent
               /\ Forall (withinCeilings limit) sent).
    { destruct c as [doc|]; simpl.
      - apply counted_Insert; try assumption; [lia|].
        intros rawBytes HM. apply (Hsize doc rawBytes); [left; reflexivity|exact HM].
      - destruct (counted_Flush limit k bb w Hlim Hinv)
          as (e & bb' & w' & sent & EF & Hinv' & _ & Hw & Hok).
        exists e, bb', w', k, sent.
        split; [exact EF|]. split; [lia|]. split; [exact Hinv'|]. split; assumption. }
    destruct Hstep as (e & bb' & w' & k' & sent & EC & Hk' & Hinv' & Hw & Hok).
    rewrite EC.
    destruct (IH k' bb' w' Hlim) as (sent' & Hw' & Hok'); try assumption; [lia| |].
    { intros doc rawBytes Hin. apply Hsize. right. exact Hin. }
    exists (sent ++ sent'). split.
    + rewrite Hw', Hw. symmetry. apply app_assoc.
    + apply Forall_app. split; assumption.
Qed.

(** C2, as amended: for a doc limit of at least 1 and records whose
    serialized size does not exceed the byte ceiling (fewer than 2^63 calls
    being made), every batch flushed by a fresh inserter, whatever the
    sequence of [Insert] and [Flush] calls, has at most
    [min(docLimit, 1000)] records and at most 16790000 bytes. *)
Theorem flushed_batches_within_ceilings
        (c : mgoCollection) (limit : Z) (continue : bool) (b : B)
        (cs : list db.Call) w :
  1 <= limit ->
  (forall doc rawBytes, In (db.DoInsert doc) cs -> Marshal doc = inr rawBytes ->
                        len rawBytes <= db.MaxBulkSize) ->
  Z.of_nat (List.length cs) <= GoInt.maxInt ->
  exists sent,
    db.wire (snd (db.calls Store Marshal cs
                    (db.NewBufferedBulkInserter Store c limit continue b) w))
    = db.wire w ++ sent
    /\ forall r docs, In r sent -> batch_of r = Some docs ->
         Z.of_nat (List.length docs) <= Z.min limit db.BulkDocLimit
         /\ batch_bytes docs <= db.MaxBulkSize.
Proof.
  intros Hlim Hsize Hmax.
  destruct (counted_calls limit cs 0
              (db.NewBufferedBulkInserter Store c limit continue b) w Hlim)
    as (sent & Hw & Hok); try assumption.
  - unfold db.counted. simpl. rewrite db.pending_Reset. simpl.
    unfold db.BulkDocLimit, db.MaxBulkSize.
    repeat split; try lia. exists 0. repeat split; try lia.
  - exists sent. split; [exact Hw|].
    intros r docs Hin Hb. rewrite Forall_forall in Hok. exact (Hok r Hin docs Hb).
Qed.

End CeilingFacts.

(** ** [ValidateSettings] *)

Section ValidateFacts.

Import mongoimport.

Variable ValidateDBName : string -> option error.
Variable validateFields : list string -> option error.
Variable ValidateCollectionName : string -> option error.

Lemma post_ret {A} (a : A) (P : MongoImport -> Prop) Q :
  (forall imp, P imp -> Q a imp) -> post (ret a) P Q.
Proof. intros H imp imp' a' HP E. inversion E; subst. auto. Qed.

Lemma post_bind {A C} (c : Step A) (k : A -> Step C) P R Q :
  post c P R -> (forall a, post (k a) (R a) Q) -> post (bind c k) P Q.
Proof.
  intros Hc Hk imp imp' b HP E. unfold bind in E.
  destruct (c imp) as [imp1 [e|a]] eqn:Ec; [discriminate|].
  exact (Hk a imp1 imp' b (Hc imp imp1 a HP Ec) E).
Qed.

Lemma post_gets {A} (f : MongoImport -> A) (P : MongoImport -> Prop) Q :
  (forall imp, P imp -> Q (f imp) imp) -> post (gets f) P Q.
Proof. intros H imp imp' a HP E. inversion E; subst. auto. Qed.

Lemma post_modify f (P : MongoImport -> Prop) Q :
  (forall imp, P imp -> Q tt (f imp)) -> post (modify f) P Q.
Proof. intros H imp imp' a HP E. inversion E; subst. auto. Qed.

Lemma post_fail {A} e (P : MongoImport -> Prop) (Q : A -> MongoImport -> Prop) :
  post (fail e) P Q.
Proof. intros imp imp' a _ E. discriminate. Qed.

Lemma post_when b c (P : MongoImport -> Prop) Q :
  (b = true -> post c P Q) -> (b = false -> forall imp, P imp -> Q tt imp) ->
  post (when b c) P Q.
Proof.
  intros Ht Hf. destruct b; simpl; [auto|]. apply post_ret. auto.
Qed.

Lemma post_orFail prefix e (P : MongoImport -> Prop) Q :
  (e = None -> forall imp, P imp -> Q tt imp) -> post (orFail prefix e) P Q.
Proof.
  intros H. destruct e; simpl; [apply post_fail|apply post_ret; auto].
Qed.

(** Steps that read, check, or write the tool and input options keep such
    an assertion. *)
Ltac preserve :=
  first
    [ apply post_fail
    | apply post_ret; intros ? H; exact H
    | apply post_gets; intros ? H; exact H
    | apply post_orFail; intros _ ? H; exact H
    | apply post_modify; intros ? H; exact H
    | apply post_when; [intros _; preserve | intros _ ? H; exact H]
    | match goal with
      | |- post (bind _ _) ?P _ =>
          apply post_bind with (R := fun _ => P); [preserve | intros ?; preserve]
      | |- post (if ?b then _ else _) _ _ => destruct b; preserve
      | |- post (match ?x with _ => _ end) _ _ => destruct x; preserve
      end ].

Ltac skip :=
  match goal with
  | |- post (bind _ _) ?P _ =>
      apply post_bind with (R := fun _ => P); [preserve | intros ?]
  end.

Lemma ValidateSettings_post args io0 uf0 :
  post (ValidateSettings ValidateDBName validateFields ValidateCollectionName args)
       (ingest (fun io uf => io = io0 /\ uf = uf0))
       (fun _ => ingest (validated io0 uf0)).
Proof.
  unfold ValidateSettings.
  do 10 skip.
  (* the upsert fields *)
  apply post_bind with
    (R := fun uf => ingest (fun io u => io = io0 /\ u = uf0 /\ uf = UpsertFields io0)).
  { apply post_gets. intros imp [H1 H2]. unfold ingest. rewrite H1. auto. }
  intros uf.
  apply post_bind with
    (R := fun up => ingest (fun io u => io = io0 /\ u = uf0 /\ uf = UpsertFields io0
                                       /\ up = Upsert io0)).
  { apply post_gets. intros imp (H1 & H2 & H3). unfold ingest. rewrite H1. auto. }
  intros up.
  apply post_bind with
    (R := fun _ => ingest (fun io u =>
            MaintainInsertionOrder io = MaintainInsertionOrder io0
            /\ NumInsertionWorkers io = NumInsertionWorkers io0
            /\ Upsert io = (Upsert io0 || negb (String.eqb (UpsertFields io0) ""))%bool
            /\ (UpsertFields io0 = EmptyString -> Upsert io0 = true -> u = ["_id"])
            /\ (UpsertFields io0 <> EmptyString -> u = Split (UpsertFields io0) ",")
            /\ (UpsertFields io0 = EmptyString -> Upsert io0 = false -> u = uf0))).
  { destruct (String.eqb_spec uf "") as [E|E]; simpl.
    - apply post_when.
      + intros Hup. apply post_modify. intros imp (H1 & H2 & H3 & H4).
        assert (Euf : UpsertFields io0 = EmptyString) by congruence.
        assert (Eup : Upsert io0 = true) by congruence.
        unfold ingest. simpl. rewrite H1, Euf, Eup. simpl.
        intuition congruence.
      + intros Hup imp (H1 & H2 & H3 & H4).
        assert (Euf : UpsertFields io0 = EmptyString) by congruence.
        assert (Eup : Upsert io0 = false) by congruence.
        unfold ingest. rewrite H1, Euf, Eup. simpl.
        intuition congruence.
    - apply post_bind with
        (R := fun _ => ingest (fun io u =>
                MaintainInsertionOrder io = MaintainInsertionOrder io0
                /\ NumInsertionWorkers io = NumInsertionWorkers io0
                /\ Upsert io = true /\ uf = UpsertFields io0)).
      { apply post_modify. intros imp (H1 & H2 & H3 & H4).
        unfold ingest. simpl. rewrite H1. auto. }
      intros _.
      apply post_bind with
        (R := fun _ => ingest (fun io u =>
                MaintainInsertionOrder io = MaintainInsertionOrder io0
                /\ NumInsertionWorkers io = NumInsertionWorkers io0
                /\ Upsert io = true /\ uf = UpsertFields io0
                /\ u = Split uf ",")).
      { apply post_modify. intros imp (H1 & H2 & H3 & H4).
        unfold ingest. simpl. auto. }
      intros _. apply post_orFail. intros _ imp (H1 & H2 & H3 & H4 & H5).
      assert (Euf : UpsertFields io0 <> EmptyString) by congruence.
      unfold ingest. rewrite H1, H2, H3, H5.
      destruct (String.eqb_spec (UpsertFields io0) "") as [E'|_]; [contradiction|].
      rewrite orb_true_r. rewrite <- H4. intuition congruence. }
  intros _.
  (* upserts maintain the insertion order *)
  apply post_bind with
    (R := fun up' => ingest (fun io u =>
            MaintainInsertionOrder io = MaintainInsertionOrder io0
            /\ NumInsertionWorkers io = NumInsertionWorkers io0
            /\ Upsert io = (Upsert io0 || negb (String.eqb (UpsertFields io0) ""))%bool
            /\ (UpsertFields io0 = EmptyString -> Upsert io0 = true -> u = ["_id"])
            /\ (UpsertFields io0 <> EmptyString -> u = Split (UpsertFields io0) ",")
            /\ (UpsertFields io0 = EmptyString -> Upsert io0 = false -> u = uf0)
            /\ up' = Upsert io)).
  { apply post_gets. intros imp H. unfold ingest in *. tauto. }
  intros up'.
  apply post_bind with
    (R := fun _ => ingest (fun io u =>
            MaintainInsertionOrder io = (MaintainInsertionOrder io0 || Upsert io)%bool
            /\ Upsert io = (Upsert io0 || negb (String.eqb (UpsertFields io0) ""))%bool
            /\ (UpsertFields io0 = EmptyString -> Upsert io0 = true -> u = ["_id"])
            /\ (UpsertFields io0 <> EmptyString -> u = Split (UpsertFields io0) ",")
            /\ (UpsertFields io0 = EmptyString -> Upsert io0 = false -> u = uf0))).
  { apply post_when.
    - intros Hup. apply post_modify. intros imp (H1 & H2 & H3 & H4 & H5 & H6 & H7).
      assert (Eu : Upsert (IngestOptions imp) = true) by congruence.
      unfold ingest. simpl. rewrite <- H3, Eu, orb_true_r. tauto.
    - intros Hup imp (H1 & H2 & H3 & H4 & H5 & H6 & H7).
      assert (Eu : Upsert (IngestOptions imp) = false) by congruence.
      unfold ingest. rewrite <- H3, Eu, orb_false_r. tauto. }
  intros _.
  do 2 skip.
  (* the number of insertion workers *)
  apply post_bind with
    (R := fun n => ingest (fun io u =>
            MaintainInsertionOrder io = (MaintainInsertionOrder io0 || Upsert io)%bool
            /\ Upsert io = (Upsert io0 || negb (String.eqb (UpsertFields io0) ""))%bool
            /\ (UpsertFields io0 = EmptyString -> Upsert io0 = true -> u = ["_id"])
            /\ (UpsertFields io0 <> EmptyString -> u = Split (UpsertFields io0) ",")
            /\ (UpsertFields io0 = EmptyString -> Upsert io0 = false -> u = uf0)
            /\ n = NumInsertionWorkers io)).
  { apply post_gets. intros imp H. unfold ingest in *. tauto. }
  intros n.
  apply post_bind with
    (R := fun _ => ingest (fun io u =>
            MaintainInsertionOrder io = (MaintainInsertionOrder io0 || Upsert io)%bool
            /\ Upsert io = (Upsert io0 || negb (String.eqb (UpsertFields io0) ""))%bool
            /\ (UpsertFields io0 = EmptyString -> Upsert io0 = true -> u = ["_id"])
            /\ (UpsertFields io0 <> EmptyString -> u = Split (UpsertFields io0) ",")
            /\ (UpsertFields io0 = EmptyString -> Upsert io0 = false -> u = uf0)
            /\ 1 <= NumInsertionWorkers io)).
  { apply post_when.
    - intros Hn. apply post_modify. intros imp H.
      unfold ingest in *. simpl. intuition lia.
    - intros Hn imp H. unfold ingest in *.
      apply Z.leb_gt in Hn. intuition lia. }
  intros _.
  apply post_bind with
    (R := fun mio => ingest (fun io u =>
            MaintainInsertionOrder io = (MaintainInsertionOrder io0 || Upsert io)%bool
            /\ Upsert io = (Upsert io0 || negb (String.eqb (UpsertFields io0) ""))%bool
            /\ (UpsertFields io0 = EmptyString -> Upsert io0 = true -> u = ["_id"])
            /\ (UpsertFields io0 <> EmptyString -> u = Split (UpsertFields io0) ",")
            /\ (UpsertFields io0 = EmptyString -> Upsert io0 = false -> u = uf0)
            /\ 1 <= NumInsertionWorkers io
            /\ mio = MaintainInsertionOrder io)).
  { apply post_gets. intros imp H. unfold ingest in *. tauto. }
  intros mio.
  apply post_bind with (R := fun _ => ingest (validated io0 uf0)).
  { assert (Hfinal : forall io u,
              MaintainInsertionOrder io = (MaintainInsertionOrder io0 || Upsert io)%bool ->
              Upsert io = (Upsert io0 || negb (String.eqb (UpsertFields io0) ""))%bool ->
              (UpsertFields io0 = EmptyString -> Upsert io0 = true -> u = ["_id"]) ->
              (UpsertFields io0 <> EmptyString -> u = Split (UpsertFields io0) ",") ->
              (UpsertFields io0 = EmptyString -> Upsert io0 = false -> u = uf0) ->
              1 <= NumInsertionWorkers io ->
              (MaintainInsertionOrder io = true -> NumInsertionWorkers io = 1) ->
              validated io0 uf0 io u).
    { intros io u Hm Hu H1 H2 H3 Hn Hw. unfold validated.
      assert (HU : Upsert io0 = true \/ UpsertFields io0 <> EmptyString -> Upsert io = true).
      { intros [Hh|Hh]; rewrite Hu; [rewrite Hh; reflexivity|].
        destruct (String.eqb_spec (UpsertFields io0) ""); [contradiction|apply orb_true_r]. }
      split. { intros Hh. pose proof (HU Hh) as Hx. split; [exact Hx|].
               rewrite Hm, Hx. apply orb_true_r. }
      split. { intros Hh. rewrite Hm, Hh. reflexivity. }
      split; [exact Hw|]. split; [exact Hn|]. split; [exact H1|]. split; [exact H2|].
      intros Ha Hb. split; [auto|]. rewrite Hu, Hb, Ha. reflexivity. }
    apply post_when.
    - intros Hm. apply post_modify. intros imp (H1 & H2 & H3 & H4 & H5 & H6 & H7).
      unfold ingest. apply Hfinal; simpl; auto. lia.
    - intros Hm imp (H1 & H2 & H3 & H4 & H5 & H6 & H7).
      unfold ingest. apply Hfinal; auto. subst mio. congruence. }
  intros _.
  preserve.
Qed.

End ValidateFacts.

(** ** Upserts and the forced insertion order *)

Section UpsertFacts.

Import mongoimport.

Variable Store : Type.
Variable exec : Request -> Store -> Reply * Store.
Variable ValidateDBName : string -> option error.
Variable validateFields : list string -> option error.
Variable ValidateCollectionName : string -> option error.

Notation ValidateSettings :=
  (mongoimport.ValidateSettings ValidateDBName validateFields ValidateCollectionName).

Lemma ValidateSettings_validated args imp imp' :
  ValidateSettings args imp = (imp', inr tt) ->
  validated (IngestOptions imp) (upsertFields imp) (IngestOptions imp') (upsertFields imp').
Proof.
  intros E.
  exact (ValidateSettings_post ValidateDBName validateFields ValidateCollectionName
           args (IngestOptions imp) (upsertFields imp) imp imp' tt
           (conj eq_refl eq_refl) E).
Qed.

(** C6: after a successful validation, a configuration with upsert enabled
    (by the flag or by naming upsert fields) has [MaintainInsertionOrder]
    set; and a configuration with [MaintainInsertionOrder] set, whatever the
    number of insertion workers it asked for, has one insertion worker:
    [ingestDocuments] starts exactly one goroutine. *)
Theorem upsert_forces_order_and_one_worker (B : Type) args imp imp' :
  ValidateSettings args imp = (imp', inr tt) ->
  (Upsert (IngestOptions imp) = true \/ UpsertFields (IngestOptions imp) <> EmptyString ->
   MaintainInsertionOrder (IngestOptions imp') = true)
  /\ (MaintainInsertionOrder (IngestOptions imp) = true
      \/ MaintainInsertionOrder (IngestOptions imp') = true ->
      NumInsertionWorkers (IngestOptions imp') = 1
      /\ numInsertionWorkers imp' = 1
      /\ List.length (@spawn B imp') = 1%nat).
Proof.
  intros E. destruct (ValidateSettings_validated args imp imp' E)
    as (Hup & Hmio & Hone & _).
  split; [intros H; apply (Hup H)|].
  intros H.
  assert (Hn : NumInsertionWorkers (IngestOptions imp') = 1).
  { apply Hone. destruct H as [H|H]; auto. }
  split; [exact Hn|].
  assert (Hw : numInsertionWorkers imp' = 1).
  { unfold numInsertionWorkers. rewrite Hn. reflexivity. }
  split; [exact Hw|].
  unfold spawn. rewrite Hw. reflexivity.
Qed.

Lemma constructUpsertDocument_fields keys doc sel :
  constructUpsertDocument keys doc = Some sel ->
  sel = map (fun key => mkDocElem key (getUpsertValue key doc)) keys.
Proof. destruct keys; simpl; intros H; inversion H; reflexivity. Qed.

(** C7: the selector maps each key field to the record's value for that
    field, in the order of the key fields (key fields [a] and the record
    {a: 5, b: 7} give {a: 5}); with an empty key set there is no selector
    and [Insert] performs a plain insert, otherwise it performs an upsert
    with that selector; and validating a configuration with upsert enabled
    and no upsert fields named sets the key set to [_id]. *)
Theorem upsert_selector :
  constructUpsertDocument ["a"]
    [mkDocElem "a" (VInt32 5); mkDocElem "b" (VInt32 7)]
  = Some [mkDocElem "a" (VInt32 5)]
  /\ (forall keys doc,
        keys <> [] ->
        exists sel,
          constructUpsertDocument keys doc = Some sel
          /\ map Name sel = keys
          /\ map Val sel = map (fun key => getUpsertValue key doc) keys)
  /\ (forall doc, constructUpsertDocument [] doc = None)
  /\ (forall imp up doc (w : db.World Store),
        upsertFields imp = [] ->
        db.wire (snd (upserter_Insert Store exec imp up doc w))
        = db.wire w ++ [ReqInsert (up_collection up) doc])
  /\ (forall imp up doc (w : db.World Store),
        upsertFields imp <> [] ->
        exists sel,
          constructUpsertDocument (upsertFields imp) doc = Some sel
          /\ db.wire (snd (upserter_Insert Store exec imp up doc w))
             = db.wire w ++ [ReqUpsert (up_collection up) sel doc])
  /\ (forall args imp imp',
        ValidateSettings args imp = (imp', inr tt) ->
        Upsert (IngestOptions imp) = true ->
        UpsertFields (IngestOptions imp) = EmptyString ->
        upsertFields imp' = ["_id"]).
Proof.
  split; [reflexivity|].
  split.
  { intros keys doc Hk. destruct keys as [|k keys]; [contradiction|].
    eexists. split; [reflexivity|]. simpl. split; f_equal.
    - rewrite map_map. simpl. apply map_id.
    - rewrite map_map. reflexivity. }
  split; [reflexivity|].
  split.
  { intros imp up doc w H. unfold upserter_Insert. rewrite H. simpl.
    pose proof (send_wire Store exec (ReqInsert (up_collection up) doc) w) as Hw.
    destruct (db.send Store exec (ReqInsert (up_collection up) doc) w). exact Hw. }
  split.
  { intros imp up doc w H. unfold upserter_Insert.
    destruct (upsertFields imp) as [|k keys] eqn:E; [contradiction|].
    eexists. split; [reflexivity|]. simpl.
    match goal with |- context [db.send Store exec ?r w] =>
      pose proof (send_wire Store exec r w) as Hw;
      destruct (db.send Store exec r w) end.
    exact Hw. }
  intros args imp imp' E Hup Huf.
  destruct (ValidateSettings_validated args imp imp' E) as (_ & _ & _ & _ & Hid & _).
  exact (Hid Huf Hup).
Qed.

End UpsertFacts.

(** ** The insertion workers and the coordinator *)

Section PipelineFacts.

Import mongoimport.

Variable Store : Type.
Variable exec : Request -> Store -> Reply * Store.
Variable Marshal : D -> error + list byte.
Variable BuildWriteConcern : string -> NodeType -> error + option Safe.
Variable removeBlankFields : D -> D.
Context {B : Type} {BI : db.BulkInserter Store B}.
Variable newBulk : mgoCollection -> B.

Notation step :=
  (mongoimport.step Store exec Marshal BuildWriteConcern removeBlankFields newBulk).
Notation run :=
  (mongoimport.run Store exec Marshal BuildWriteConcern removeBlankFields newBulk).
Notation Pipeline := (@mongoimport.Pipeline Store B).

Implicit Types (p : Pipeline) (a : Action) (i : nat).

Lemma nth_error_update_eq {A} (l : list A) i (x y : A) :
  nth_error l i = Some x -> nth_error (update i y l) i = Some y.
Proof.
  revert i. induction l as [|h t IH]; intros [|i] H; simpl in *;
    try discriminate; [reflexivity|auto].
Qed.

Lemma nth_error_update_neq {A} (l : list A) i j (y : A) :
  i <> j -> nth_error (update j y l) i = nth_error l i.
Proof.
  revert i j. induction l as [|h t IH]; intros [|i] [|j] H; simpl;
    try reflexivity; [contradiction|]. apply IH. congruence.
Qed.

Lemma Some_eq {A} (x y : A) : Some x = Some y -> x = y.
Proof. congruence. Qed.

Lemma dying_Kill r t : dying (Kill r t) = true.
Proof. unfold Kill. destruct (dying t) eqn:E; [|reflexivity]. destruct (reason t); auto. Qed.

(** What the end of a goroutine changes. *)
Lemma finish_spec i err p :
  workers (finish i err p) = update i (Finished err) (workers p)
  /\ world (finish i err p) = world p
  /\ readDocs (finish i err p) = readDocs p
  /\ insertionCount (importer (finish i err p)) = insertionCount (importer p)
  /\ retErr (finish i err p)
     = match retErr p with Some e => Some e | None => err end
  /\ Tomb (importer (finish i err p))
     = match err, retErr p with
       | Some _, None => Kill err (Tomb (importer p))
       | _, _ => Tomb (importer p)
       end.
Proof.
  unfold finish, set_worker. simpl.
  destruct err as [e|]; destruct (retErr p) as [e0|] eqn:E; simpl; rewrite ?E; auto 10.
Qed.

(** The three kinds of step: one of the producer; one after which the
    worker stays in its loop; one with which the worker returns. *)
Lemma step_cases a p p' :
  step a p = Some p' ->
  (actor a = None
   /\ workers p' = workers p /\ retErr p' = retErr p
   /\ Tomb (importer p') = Tomb (importer p) /\ world p' = world p)
  \/ (exists i g ins,
        actor a = Some i /\ nth_error (workers p) i = Some g /\ isFinished g = false
        /\ workers p' = update i (Looping ins) (workers p)
        /\ retErr p' = retErr p /\ Tomb (importer p') = Tomb (importer p))
  \/ (exists i g err p1,
        actor a = Some i /\ nth_error (workers p) i = Some g /\ isFinished g = false
        /\ p' = finish i err p1
        /\ workers p1 = workers p /\ retErr p1 = retErr p
        /\ Tomb (importer p1) = Tomb (importer p)).
Proof.
  destruct a as [document|err|i|i|i]; intros H; unfold mongoimport.step in H.
  - left. destruct (negb (closed p) && _); [|discriminate].
    apply Some_eq in H. subst p'. simpl. auto.
  - left. destruct (closed p); [discriminate|].
    apply Some_eq in H. subst p'. simpl. auto.
  - right. destruct (nth_error (workers p) i) as [[| |]|] eqn:E; try discriminate.
    destruct (startWorker _ _ _ _) as [err|inserter]; apply Some_eq in H; subst p'.
    + right. exists i, Spawned, (Some err), p. auto 10.
    + left. exists i, Spawned, inserter. simpl. auto 10.
  - right. destruct (nth_error (workers p) i) as [[|inserter|]|] eqn:E; try discriminate.
    destruct (readDocs p) as [|document rest].
    + destruct (closed p); [|discriminate].
      destruct (flushInserter_Flush _ _ _) as [[e ins'] w'].
      apply Some_eq in H. subst p'. right.
      exists i, (Looping inserter),
        (filterIngestError (StopOnError (IngestOptions (importer (set_world Store w' p)))) e),
        (set_world Store w' p).
      simpl. auto 10.
    + destruct (flushInserter_Insert _ _ _ _ _ _ _) as [[e ins'] w'].
      cbv beta iota zeta in H.
      destruct (filterIngestError _ e) as [err|]; apply Some_eq in H; subst p'.
      * right. exists i, (Looping inserter), (Some err),
          (set_world Store w' (set_readDocs Store rest p)).
        simpl. auto 10.
      * left. exists i, (Looping inserter), ins'. simpl. auto 10.
  - right. right. destruct (nth_error (workers p) i) as [[|inserter|]|] eqn:E; try discriminate.
    destruct (dying (Tomb (importer p))); [|discriminate].
    apply Some_eq in H. subst p'.
    exists i, (Looping inserter), None, p. auto 10.
Qed.

(** A goroutine that has returned takes no further step ... *)
Lemma finished_cannot_act a p p' i e :
  nth_error (workers p) i = Some (Finished e) ->
  step a p = Some p' ->
  actor a <> Some i.
Proof.
  intros Hf Hs Ha.
  destruct (step_cases a p p' Hs) as [(Hn & _)|[(j & g & ins & Hj & Hg & Hnf & _)
                                               |(j & g & err & p1 & Hj & Hg & Hnf & _)]];
    try congruence;
    assert (j = i) by congruence; subst j; rewrite Hf in Hg; inversion Hg; subst;
    discriminate.
Qed.

(** ... and stays as it is. *)
Lemma finished_stays a p p' i e :
  nth_error (workers p) i = Some (Finished e) ->
  step a p = Some p' ->
  nth_error (workers p') i = Some (Finished e).
Proof.
  intros Hf Hs.
  destruct (step_cases a p p' Hs) as [(_ & Hw & _)|[(j & g & ins & Hj & Hg & Hnf & Hw & _)
                                               |(j & g & err & p1 & Hj & Hg & Hnf & Hp & Hw & _)]].
  - rewrite Hw. exact Hf.
  - rewrite Hw. rewrite nth_error_update_neq; [exact Hf|].
    intros ->. rewrite Hf in Hg. inversion Hg; subst. discriminate.
  - subst p'. destruct (finish_spec j err p1) as (Hw' & _). rewrite Hw', Hw.
    rewrite nth_error_update_neq; [exact Hf|].
    intros ->. rewrite Hf in Hg. inversion Hg; subst. discriminate.
Qed.

Lemma finished_never_acts sched : forall p p' i e,
  nth_error (workers p) i = Some (Finished e) ->
  run sched p = Some p' ->
  forall a, In a sched -> actor a <> Some i.
Proof.
  induction sched as [|a0 rest IH]; intros p p' i e Hf Hr a Hin; [inversion Hin|].
  simpl in Hr. destruct (step a0 p) as [p1|] eqn:Hs; [|discriminate].
  destruct Hin as [->|Hin].
  - exact (finished_cannot_act a p p1 i e Hf Hs).
  - exact (IH p1 p' i e (finished_stays a0 p p1 i e Hf Hs) Hr a Hin).
Qed.

(** C8, as amended: a worker in its loop whose [select] takes the [Dying]
    case returns nil at once: nothing is sent to the server, the buffer is
    not flushed, no record is taken off the channel, and the worker takes no
    further step, so the records it had buffered are never written.  (A
    worker whose [select] takes the receive case after the tomb was killed
    still handles the record.) *)
Theorem Dying_returns_without_flushing p i ins :
  nth_error (workers p) i = Some (Looping ins) ->
  dying (Tomb (importer p)) = true ->
  exists p',
    step (Die i) p = Some p'
    /\ nth_error (workers p') i = Some (Finished None)
    /\ world p' = world p
    /\ readDocs p' = readDocs p
    /\ retErr p' = retErr p
    /\ insertionCount (importer p') = insertionCount (importer p)
    /\ forall sched p'', run sched p' = Some p'' ->
         forall a, In a sched -> actor a <> Some i.
Proof.
  intros Hw Hd. exists (finish i None p).
  destruct (finish_spec i None p) as (H1 & H2 & H3 & H4 & H5 & H6).
  split; [simpl; rewrite Hw, Hd; reflexivity|].
  assert (Hf : nth_error (workers (finish i None p)) i = Some (Finished None)).
  { rewrite H1. apply (nth_error_update_eq _ _ (Looping ins)). exact Hw. }
  split; [exact Hf|]. split; [exact H2|]. split; [exact H3|].
  split; [rewrite H5; destruct (retErr p); reflexivity|]. split; [exact H4|].
  intros sched p'' Hr. exact (finished_never_acts sched _ p'' i None Hf Hr).
Qed.

Lemma retErr_kept a p p' e :
  retErr p = Some e -> step a p = Some p' -> retErr p' = Some e.
Proof.
  intros He Hs.
  destruct (step_cases a p p' Hs) as [(_ & _ & Hr & _)|[(j & g & ins & _ & _ & _ & _ & Hr & _)
                                               |(j & g & err & p1 & _ & _ & _ & Hp & _ & Hr & _)]];
    try congruence.
  subst p'. destruct (finish_spec j err p1) as (_ & _ & _ & _ & Hf & _).
  rewrite Hf, Hr, He. reflexivity.
Qed.

Lemma retErr_kept_run sched : forall p p' e,
  retErr p = Some e -> run sched p = Some p' -> retErr p' = Some e.
Proof.
  induction sched as [|a rest IH]; intros p p' e He Hr; simpl in Hr.
  - inversion Hr; subst. exact He.
  - destruct (step a p) as [p1|] eqn:Hs; [|discriminate].
    exact (IH p1 p' e (retErr_kept a p p1 e He Hs) Hr).
Qed.

(** C9, as amended: the terminal error is a single error, never an
    aggregate.  The first worker to return a non-nil error stores it in
    [retErr] and kills the tomb; a worker returning later, with an error or
    without, leaves [retErr] as it is, and so does every later step; and
    once the producer and all workers have returned, the coordinator
    returns the first non-nil error it reads from the two: the retained
    worker error when the workers' result is read first or the producer
    returned nil, the producer's error otherwise. *)
Theorem first_error_is_kept :
  (forall i err p,
      retErr p = None ->
      retErr (finish i (Some err) p) = Some err
      /\ dying (Tomb (importer (finish i (Some err) p))) = true)
  /\ (forall i err p e,
        retErr p = Some e ->
        retErr (finish i err p) = Some e
        /\ Tomb (importer (finish i err p)) = Tomb (importer p))
  /\ (forall sched p p' e,
        retErr p = Some e -> run sched p = Some p' -> retErr p' = Some e)
  /\ (forall p ingestFirst n e w,
        collect p ingestFirst = Some (n, e, w) ->
        exists e1,
          streamed p = Some e1
          /\ forallb isFinished (workers p) = true
          /\ n = insertionCount (importer p)
          /\ e = (if ingestFirst
                  then match retErr p with Some x => Some x | None => e1 end
                  else match e1 with Some x => Some x | None => retErr p end))
  /\ (forall p ingestFirst n e w,
        collect p ingestFirst = Some (n, e, w) ->
        streamed p = Some None \/ (ingestFirst = true /\ retErr p <> None) ->
        e = retErr p).
Proof.
  assert (Hcollect : forall p ingestFirst n e w,
             collect p ingestFirst = Some (n, e, w) ->
             exists e1,
               streamed p = Some e1
               /\ forallb isFinished (workers p) = true
               /\ n = insertionCount (importer p)
               /\ e = (if ingestFirst
                       then match retErr p with Some x => Some x | None => e1 end
                       else match e1 with Some x => Some x | None => retErr p end)).
  { intros p ingestFirst n e w H. unfold collect, ingestDocuments in H.
    destruct (streamed p) as [e1|]; [|discriminate].
    destruct (forallb isFinished (workers p)); [|discriminate].
    exists e1. split; [reflexivity|]. split; [reflexivity|].
    destruct ingestFirst; simpl in H.
    - destruct (retErr p) as [x|]; destruct e1 as [y|]; inversion H; auto.
    - destruct (retErr p) as [x|]; destruct e1 as [y|]; inversion H; auto. }
  split.
  { intros i err p Hn. destruct (finish_spec i (Some err) p) as (_ & _ & _ & _ & Hr & Ht).
    rewrite Hr, Ht, Hn. split; [reflexivity|apply dying_Kill]. }
  split.
  { intros i err p e He. destruct (finish_spec i err p) as (_ & _ & _ & _ & Hr & Ht).
    rewrite Hr, Ht, He. split; [reflexivity|]. destruct err; reflexivity. }
  split; [intros sched p p' e; apply retErr_kept_run|].
  split; [exact Hcollect|].
  intros p ingestFirst n e w H Hc.
  destruct (Hcollect p ingestFirst n e w H) as (e1 & Hs & _ & _ & He).
  destruct Hc as [Hc|[-> Hc]].
  - rewrite Hs in Hc. inversion Hc; subst e1.
    subst e. destruct ingestFirst; destruct (retErr p); reflexivity.
  - subst e. destruct (retErr p); [reflexivity|contradiction].
Qed.

End PipelineFacts.

(** ** The properties on the test double *)

Definition wcbSpec
  : @db.BulkInserterSpec Mock.Store db.WriteCommandBulk Mock.wcbInserter :=
  WriteCommandBulk_Spec Mock.Store Mock.exec.

(** C1: the run of the scenario.  2500 records [_id = 1 .. 2500], a doc
    limit of 1000, one worker, stop-on-error off, the store already holding
    [_id = 1500].  The terminal error is nil as the spec says, but the count
    returned is 2500 and 1501 batches are written: one of 1000 records and
    then one per record, because the counters are not reset by a flush. *)
Theorem scenario_2500_records :
  exists w,
    Mock.importDocuments (Mock.importer 1 1000 false false) (Mock.world0 [1500])
               (Mock.lockstep 0 (Mock.records 2500)) true
    = Some (2500, None, w)
    /\ Mock.batchSizes w = 1000%nat :: repeat 1%nat 1500
    /\ List.length (db.store w) = 2500%nat.
Proof.
  eexists. split; [vm_compute; reflexivity|].
  split; vm_compute; reflexivity.
Qed.

(** C5: [Flush] leaves both counters as they were.  On a fresh inserter
    that has accepted one record, the flush empties the bulk but the record
    count stays 1 and the byte count stays 14. *)
Theorem Flush_keeps_the_counters :
  (forall (Store : Type) (B : Type) (BI : db.BulkInserter Store B)
          (bb : @db.BufferedBulkInserter B) (w : db.World Store),
      db.docCount (snd (fst (db.Flush Store bb w))) = db.docCount bb
      /\ db.byteCount (snd (fst (db.Flush Store bb w))) = db.byteCount bb)
  /\ (let '(_, bb1, w1) := Mock.Insert (Mock.record 1) (Mock.fresh 1000) (Mock.world0 []) in
      let '(err, bb2, w2) := Mock.Flush bb1 w1 in
      err = None
      /\ Mock.batchSizes w2 = [1%nat]
      /\ db.wcb_docs (db.bulk bb2) = []
      /\ db.docCount bb2 = 1
      /\ db.byteCount bb2 = 14).
Proof.
  split.
  - intros Store B BI bb w. destruct (Flush_counts Store bb w) as (H1 & H2 & _).
    split; assumption.
  - vm_compute. repeat split; reflexivity.
Qed.

(** C4: [Flush] is not idempotent.  [Flush] returns at once only when the
    record count is zero, and no flush resets that count: after a [Flush]
    of an inserter whose count is not zero the buffer is empty, and a second
    [Flush], nothing added in between, sends a second request, with an
    empty batch.  On a fresh inserter that has accepted the record
    [{_id: 1}]: over an empty store both calls return nil and two batches,
    of sizes 1 and 0, are written; over a store that holds [_id = 1] the
    first call returns the write error, the second returns nil, and again
    two batches are written. *)
Theorem Flush_again_writes_an_empty_batch :
  (forall (Store : Type) (B : Type) (BI : db.BulkInserter Store B)
          (BS : db.BulkInserterSpec Store B)
          (bb : @db.BufferedBulkInserter B) (w : db.World Store),
      db.docCount bb <> 0 ->
      exists e1 bb1 w1 e2 bb2 w2,
        db.Flush Store bb w = (e1, bb1, w1)
        /\ db.Flush Store bb1 w1 = (e2, bb2, w2)
        /\ db.pending Store (db.bulk bb1) = []
        /\ db.wire w2
           = db.wire w ++ [db.request Store (db.bulk bb); db.request Store (db.bulk bb1)]
        /\ batch_of (db.request Store (db.bulk bb1)) = Some [])
  /\ (let '(_, bb1, w1) := Mock.Insert (Mock.record 1) (Mock.fresh 1000) (Mock.world0 []) in
      let '(e1, bb2, w2) := Mock.Flush bb1 w1 in
      let '(e2, bb3, w3) := Mock.Flush bb2 w2 in
      Mock.batchSizes w1 = []
      /\ e1 = None /\ e2 = None
      /\ Mock.batchSizes w2 = [1%nat]
      /\ Mock.batchSizes w3 = [1%nat; 0%nat])
  /\ (let '(_, bb1, w1) := Mock.Insert (Mock.record 1) (Mock.fresh 1000) (Mock.world0 [1]) in
      let '(e1, bb2, w2) := Mock.Flush bb1 w1 in
      let '(e2, bb3, w3) := Mock.Flush bb2 w2 in
      Mock.batchSizes w1 = []
      /\ e1 = Some (ErrWriteCommandBulk [Mock.duplicateKey 0] None) /\ e2 = None
      /\ Mock.batchSizes w3 = [1%nat; 0%nat]).
Proof.
  split; [|split; vm_compute; repeat split; reflexivity].
  intros Store B BI BS bb w Hnz.
  assert (Hnz1 : db.docCount (db.set_bulk (db.Reset Store (db.bulk bb)) bb) <> 0)
    by exact Hnz.
  eexists _, _, _, _, _, _.
  split; [exact (Flush_nonzero Store bb w Hnz)|].
  split; [exact (Flush_nonzero Store _ _ Hnz1)|].
  simpl. split; [apply db.pending_Reset|]. split.
  - rewrite !(@db.Run_wire Store B BI BS), <- app_assoc. reflexivity.
  - rewrite (@db.request_batch Store B BI BS), db.pending_Reset. reflexivity.
Qed.

Lemma Insert_encoding_error_witness :
  Mock.Marshal [mkDocElem "ch" VUnsupported]
  = inl (ErrOther "Can't marshal chan int in a BSON document")
  /\ Mock.Insert [mkDocElem "ch" VUnsupported] (Mock.fresh 1000) (Mock.world0 [])
     = (Some (Errorf "bson encoding error: "
                     (ErrOther "Can't marshal chan int in a BSON document")),
        Mock.fresh 1000, Mock.world0 []).
Proof.
  split; [reflexivity|].
  apply (@Insert_encoding_error Mock.Store Mock.Marshal db.WriteCommandBulk
           Mock.wcbInserter). reflexivity.
Defined.

(** A second record offered to an inserter with doc limit 1: the first
    record is flushed, the second is buffered. *)
Lemma Insert_flushes_then_buffers_witness :
  let bb1 := snd (fst (Mock.Insert (Mock.record 1) (Mock.fresh 1) (Mock.world0 []))) in
  exists err bb' w',
    Mock.Insert (Mock.record 2) bb1 (Mock.world0 []) = (err, bb', w')
    /\ db.docCount bb' = 2
    /\ Mock.batchSizes w' = [1%nat].
Proof.
  intros bb1.
  destruct (@Insert_flushes_then_buffers Mock.Store Mock.Marshal db.WriteCommandBulk
              Mock.wcbInserter wcbSpec bb1 (Mock.world0 []) (Mock.record 2)
              [x0e; x00; x00; x00; x10; x5f; x69; x64; x00; x02; x00; x00; x00; x00]
              eq_refl)
    as (err & bb' & w' & HI & Hc & _).
  exists err, bb', w'. split; [exact HI|]. split; [exact Hc|].
  vm_compute in HI. inversion HI. reflexivity.
Defined.

Lemma flushed_batches_within_ceilings_witness :
  exists sent,
    db.wire (snd (Mock.calls [db.DoInsert (Mock.record 1); db.DoInsert (Mock.record 2);
                             db.DoInsert (Mock.record 3); db.DoFlush]
                            (Mock.fresh 2) (Mock.world0 [])))
    = sent
    /\ forall r docs, In r sent -> batch_of r = Some docs ->
         Z.of_nat (List.length docs) <= Z.min 2 db.BulkDocLimit
         /\ batch_bytes docs <= db.MaxBulkSize.
Proof.
  apply (@flushed_batches_within_ceilings Mock.Store Mock.Marshal db.WriteCommandBulk
           Mock.wcbInserter wcbSpec Mock.users 2 true Mock.wcb0
           [db.DoInsert (Mock.record 1); db.DoInsert (Mock.record 2);
            db.DoInsert (Mock.record 3); db.DoFlush] (Mock.world0 [])).
  - lia.
  - intros doc rawBytes Hin HM. simpl in Hin.
    destruct Hin as [E|[E|[E|[E|[]]]]]; try discriminate;
      inversion E; subst doc; vm_compute in HM; inversion HM; subst rawBytes;
      vm_compute; discriminate.
  - vm_compute. discriminate.
Defined.

Lemma len_zeros n : len (Mock.zeros n) = Z.of_N n.
Proof.
  unfold Mock.zeros, len. induction n as [|n IH] using N.peano_ind; [reflexivity|].
  rewrite N.iter_succ. simpl List.length. rewrite Nat2Z.inj_succ, IH. lia.
Qed.

Lemma len_cons (b : byte) l : len (b :: l) = 1 + len l.
Proof. unfold len. simpl List.length. lia. Qed.

(** The encoding of a document holding [n] bytes of binary data takes
    [n + 25] bytes. *)
Lemma Marshal_blob n :
  exists rawBytes,
    Mock.Marshal (Mock.blob n) = inr rawBytes /\ len rawBytes = Z.of_N n + 25.
Proof.
  eexists. split; [reflexivity|].
  unfold Mock.int32le, Mock.cstring.
  repeat (rewrite ?len_app, ?len_cons, ?len_zeros; cbn [list_byte_of_string app]).
  cbn [Name].
  change (len (list_byte_of_string "_id")) with 3.
  change (len (list_byte_of_string "blob")) with 4.
  change (len []) with 0. lia.
Qed.

(** C2, against the claim as stated.  A single record whose encoding is
    16790025 bytes long is accepted by a fresh inserter (the flush it
    triggers finds nothing to send) and is written by the final [Flush] as a
    batch above the byte ceiling; and with a doc limit of 0 a batch of one
    record is written, above [min(docLimit, 1000)]. *)
Lemma batch_above_a_ceiling :
  (exists r docs,
      db.wire (snd (Mock.calls [db.DoInsert (Mock.blob 16790000); db.DoFlush]
                              (Mock.fresh 1000) (Mock.world0 []))) = [r]
      /\ batch_of r = Some docs
      /\ List.length docs = 1%nat
      /\ batch_bytes docs = 16790025
      /\ db.MaxBulkSize < batch_bytes docs)
  /\ (exists r docs,
        db.wire (snd (Mock.calls [db.DoInsert (Mock.record 1); db.DoInsert (Mock.record 2)]
                                (Mock.fresh 0) (Mock.world0 []))) = [r]
        /\ batch_of r = Some docs
        /\ List.length docs = 1%nat
        /\ Z.min 0 db.BulkDocLimit < Z.of_nat (List.length docs)).
Proof.
  split.
  - destruct (Marshal_blob 16790000) as (rawBytes & HM & Hlen).
    change (Z.of_N 16790000 + 25) with 16790025 in Hlen.
    assert (Hfull : db.full (Mock.fresh 1000) rawBytes = true).
    { unfold db.full. cbn [Mock.fresh db.NewBufferedBulkInserter db.docLimit db.docCount db.byteCount].
      rewrite Hlen. reflexivity. }
    unfold Mock.calls. cbn [db.calls db.call].
    rewrite (@Insert_marshalled Mock.Store Mock.Marshal db.WriteCommandBulk
               Mock.wcbInserter (Mock.fresh 1000) (Mock.world0 [])
               (Mock.blob 16790000) rawBytes HM).
    rewrite Hfull, (@Flush_zero Mock.Store db.WriteCommandBulk Mock.wcbInserter
                      (Mock.fresh 1000) (Mock.world0 []) eq_refl).
    cbv zeta. cbn [fst snd].
    match goal with
    | |- context [db.Flush Mock.Store ?bb ?w] =>
        rewrite (@Flush_nonzero Mock.Store db.WriteCommandBulk Mock.wcbInserter bb w)
          by (vm_compute; discriminate);
        pose proof (WriteCommandBulk_Run_wire Mock.Store Mock.exec (db.bulk bb) w) as Hw
    end.
    cbn [snd fst]. eexists _, [mkRaw x00 rawBytes].
    split; [exact Hw|]. split; [reflexivity|]. split; [reflexivity|].
    cbn [batch_bytes fold_right Data]. rewrite Hlen.
    split; reflexivity.
  - eexists _, _. split; [vm_compute; reflexivity|].
    split; [reflexivity|]. split; reflexivity.
Qed.

(** C8, against the claim as stated: the tomb is dying, one batch has been
    sent; worker 1, whose [select] takes the receive case twice, takes the
    two records left on the channel and flushes the first of them. *)
Lemma flush_after_the_tomb_was_killed :
  mongoimport.dying (mongoimport.Tomb (mongoimport.importer Mock.killed)) = true
  /\ Mock.batchSizes (mongoimport.world Mock.killed) = [1%nat]
  /\ mongoimport.readDocs Mock.killed = [Mock.record 3; Mock.record 4]
  /\ exists p,
      Mock.run [mongoimport.Recv 1; mongoimport.Recv 1] Mock.killed = Some p
      /\ Mock.batchSizes (mongoimport.world p) = [1%nat; 1%nat]
      /\ db.store (mongoimport.world p) = [1; 3]
      /\ mongoimport.readDocs p = [].
Proof.
  split; [reflexivity|]. split; [reflexivity|]. split; [reflexivity|].
  eexists. split; [vm_compute; reflexivity|].
  split; [reflexivity|]. split; reflexivity.
Qed.

Lemma Dying_returns_without_flushing_witness :
  exists p',
    Mock.step (mongoimport.Die 1) Mock.killed = Some p'
    /\ mongoimport.world p' = mongoimport.world Mock.killed
    /\ mongoimport.readDocs p' = [Mock.record 3; Mock.record 4].
Proof.
  assert (H : { ins | nth_error (mongoimport.workers Mock.killed) 1
                      = Some (mongoimport.Looping ins) }).
  { eexists. vm_compute. reflexivity. }
  destruct H as [ins H].
  destruct (@Dying_returns_without_flushing Mock.Store Mock.exec Mock.Marshal
              Mock.BuildWriteConcern Mock.removeBlankFields db.WriteCommandBulk
              Mock.wcbInserter Mock.newBulk Mock.killed 1%nat ins H eq_refl)
    as (p' & Hs & _ & Hw & Hd & _).
  exists p'. split; [exact Hs|]. split; [exact Hw|]. exact Hd.
Defined.

(** C9, against the claim as stated: one worker, stop-on-error on,
    [_id = 1] already in the store.  The producer sends one record and
    returns a decoding error; the worker's final flush fails and its error
    is retained in [retErr]; the coordinator, reading the producer's result
    first, returns the producer's error. *)
Lemma coordinator_returns_the_producer_error :
  exists p n w,
    Mock.run [mongoimport.Start 0; mongoimport.Send (Mock.record 1); mongoimport.Recv 0;
             mongoimport.Return (Some (ErrOther "invalid character"));
             mongoimport.Recv 0]
            (mongoimport.begin (Mock.importer 1 1000 true false) (Mock.world0 [1]))
    = Some p
    /\ mongoimport.retErr p = Some (ErrWriteCommandBulk [Mock.duplicateKey 0] None)
    /\ mongoimport.collect p false = Some (n, Some (ErrOther "invalid character"), w).
Proof.
  eexists _, _, _. split; [vm_compute; reflexivity|].
  split; [reflexivity|]. vm_compute. reflexivity.
Qed.

Lemma upsert_forces_order_and_one_worker_witness :
  let imp' := fst (mongoimport.ValidateSettings Mock.ValidateName Mock.validateFields
                     Mock.ValidateName [] Mock.upserting) in
  mongoimport.MaintainInsertionOrder (mongoimport.IngestOptions imp') = true
  /\ mongoimport.NumInsertionWorkers (mongoimport.IngestOptions imp') = 1
  /\ mongoimport.numInsertionWorkers imp' = 1.
Proof.
  intros imp'.
  destruct (upsert_forces_order_and_one_worker Mock.ValidateName Mock.validateFields
              Mock.ValidateName db.WriteCommandBulk [] Mock.upserting imp' eq_refl)
    as (Hm & Hw).
  split; [apply Hm; left; reflexivity|].
  destruct (Hw (or_intror (Hm (or_introl eq_refl)))) as (H1 & H2 & _).
  split; assumption.
Defined.

(** The configuration asking for upserts names no upsert fields: its
    validation succeeds and leaves [_id] as the key set, so that the record
    [{_id: 7}] is upserted with the selector [{_id: 7}]. *)
Lemma upsert_selector_witness :
  let imp' := fst (mongoimport.ValidateSettings Mock.ValidateName Mock.validateFields
                     Mock.ValidateName [] Mock.upserting) in
  mongoimport.ValidateSettings Mock.ValidateName Mock.validateFields
    Mock.ValidateName [] Mock.upserting = (imp', inr tt)
  /\ mongoimport.upsertFields imp' = ["_id"]
  /\ exists sel,
       mongoimport.constructUpsertDocument (mongoimport.upsertFields imp') (Mock.record 7)
       = Some sel
       /\ sel = [mkDocElem "_id" (VInt32 7)]
       /\ db.wire (snd (mongoimport.upserter_Insert Mock.Store Mock.exec imp'
                          (mongoimport.newUpserter Mock.users) (Mock.record 7)
                          (Mock.world0 [])))
          = [ReqUpsert Mock.users sel (Mock.record 7)].
Proof.
  intros imp'.
  destruct (upsert_selector Mock.Store Mock.exec Mock.ValidateName Mock.validateFields
              Mock.ValidateName) as (_ & _ & _ & _ & Hup & Hid).
  assert (Hf : mongoimport.upsertFields imp' = ["_id"]).
  { exact (Hid [] Mock.upserting imp' eq_refl eq_refl eq_refl). }
  split; [reflexivity|]. split; [exact Hf|].
  destruct (Hup imp' (mongoimport.newUpserter Mock.users) (Mock.record 7) (Mock.world0 []))
    as (sel & Hs & Hw).
  { rewrite Hf. discriminate. }
  exists sel. split; [exact Hs|]. split; [|exact Hw].
  rewrite Hf in Hs. simpl in Hs. inversion Hs. reflexivity.
Defined.

(** * Further properties *)

(** ** No record is lost, repeated or reordered by the buffered inserter *)

Section DeliveryFacts.

Variable Store : Type.
Variable Marshal : D -> error + list byte.
Context {B : Type} {BI : db.BulkInserter Store B} {BS : db.BulkInserterSpec Store B}.

Notation BufferedBulkInserter := (@db.BufferedBulkInserter B).
Notation calls := (db.calls Store Marshal).
Notation accepted := (db.accepted Marshal).

Implicit Types (bb : BufferedBulkInserter) (w : db.World Store).

Lemma batches_app a b : batches (a ++ b) = batches a ++ batches b.
Proof. unfold batches. apply flat_map_app. Qed.

Lemma batches_request (b : B) :
  batches [db.request Store b] = db.pending Store b.
Proof. unfold batches. simpl. rewrite db.request_batch. apply app_nil_r. Qed.

(** [Flush], from a state whose record count [k] bounds the buffer: the
    buffer goes onto the wire and is left empty. *)
Lemma Flush_delivers bb w k :
  db.docCount bb = k ->
  Z.of_nat (List.length (db.pending Store (db.bulk bb))) <= k ->
  exists e bb1 w1,
    db.Flush Store bb w = (e, bb1, w1)
    /\ db.docCount bb1 = k
    /\ db.pending Store (db.bulk bb1) = []
    /\ batches (db.wire w1) = batches (db.wire w) ++ db.pending Store (db.bulk bb).
Proof.
  intros Hc Hn.
  destruct (Z.eq_dec (db.docCount bb) 0) as [Hz|Hnz].
  - rewrite (Flush_zero Store bb w Hz).
    assert (Hnil : db.pending Store (db.bulk bb) = []).
    { destruct (db.pending Store (db.bulk bb)); [reflexivity|]. simpl in Hn. lia. }
    exists None, bb, w. rewrite Hnil, app_nil_r. auto.
  - rewrite (Flush_nonzero Store bb w Hnz).
    eexists _, _, _. split; [reflexivity|]. simpl.
    split; [exact Hc|]. split; [apply db.pending_Reset|].
    rewrite (@db.Run_wire Store B BI BS), batches_app, batches_request. reflexivity.
Qed.

(** One call, from a state whose record count [k] has not wrapped and
    bounds the buffer: what is on the wire and in the buffer afterwards is
    what was there before, followed by the record the call accepted. *)
Lemma call_delivers c bb w k :
  db.docCount bb = k -> 0 <= k -> k + 1 <= GoInt.maxInt ->
  Z.of_nat (List.length (db.pending Store (db.bulk bb))) <= k ->
  exists e bb' w' k',
    db.call Store Marshal c bb w = (e, bb', w')
    /\ db.docCount bb' = k' /\ k <= k' <= k + 1
    /\ Z.of_nat (List.length (db.pending Store (db.bulk bb'))) <= k'
    /\ batches (db.wire w') ++ db.pending Store (db.bulk bb')
       = batches (db.wire w) ++ db.pending Store (db.bulk bb) ++ accepted [c].
Proof.
  intros Hc Hk Hmax Hn.
  pose proof (Flush_delivers bb w k Hc Hn) as HF.
  destruct c as [doc|]; simpl db.call; simpl db.accepted.
  - destruct (Marshal doc) as [err|rawBytes] eqn:HM.
    + rewrite (Insert_not_marshalled Store Marshal bb w doc err HM).
      eexists _, bb, w, k. split; [reflexivity|].
      repeat split; try assumption; try lia. rewrite app_nil_r. reflexivity.
    + rewrite (Insert_marshalled Store Marshal bb w doc rawBytes HM).
      assert (Hk1 : GoInt.add k 1 = k + 1).
      { apply wrap_small. unfold GoInt.inRange, GoInt.minInt, GoInt.maxInt in *. lia. }
      destruct (db.full bb rawBytes); cbv zeta.
      * destruct HF as (e & bb1 & w1 & EF & Hc1 & Hnil & Hw).
        rewrite EF. simpl.
        eexists e, _, w1, (k + 1). split; [reflexivity|]. simpl.
        rewrite Hc1, db.pending_BulkInsert, Hnil, Hw. simpl.
        repeat split; try assumption; try lia. rewrite app_assoc. reflexivity.
      * simpl. eexists None, _, w, (k + 1). split; [reflexivity|]. simpl.
        rewrite Hc, db.pending_BulkInsert, List.length_app. simpl.
        repeat split; try assumption; try lia.
  - destruct HF as (e & bb1 & w1 & EF & Hc1 & Hnil & Hw).
    exists e, bb1, w1, k. split; [exact EF|].
    rewrite Hnil, Hw, !app_nil_r. simpl.
    repeat split; try assumption; lia.
Qed.

Lemma accepted_cons c cs : accepted (c :: cs) = accepted [c] ++ accepted cs.
Proof.
  destruct c as [doc|]; simpl; [|reflexivity].
  destruct (Marshal doc); reflexivity.
Qed.

Lemma calls_deliver cs : forall bb w k,
  db.docCount bb = k -> 0 <= k -> k + Z.of_nat (List.length cs) <= GoInt.maxInt ->
  Z.of_nat (List.length (db.pending Store (db.bulk bb))) <= k ->
  exists k',
    db.docCount (fst (calls cs bb w)) = k'
    /\ Z.of_nat (List.length (db.pending Store (db.bulk (fst (calls cs bb w))))) <= k'
    /\ batches (db.wire (snd (calls cs bb w)))
         ++ db.pending Store (db.bulk (fst (calls cs bb w)))
       = batches (db.wire w) ++ db.pending Store (db.bulk bb) ++ accepted cs.
Proof.
  induction cs as [|c rest IH]; intros bb w k Hc Hk Hmax Hn.
  - exists k. simpl. rewrite app_nil_r. auto.
  - simpl List.length in Hmax.
    destruct (call_delivers c bb w k Hc Hk ltac:(lia) Hn)
      as (e & bb' & w' & k' & EC & Hc' & Hk' & Hn' & Hd).
    simpl db.calls. rewrite EC.
    destruct (IH bb' w' k' Hc' ltac:(lia) ltac:(lia) Hn') as (k'' & H1 & H2 & H3).
    exists k''. split; [exact H1|]. split; [exact H2|].
    rewrite H3, accepted_cons. rewrite !app_assoc. rewrite !app_assoc in Hd.
    rewrite Hd. reflexivity.
Qed.

Lemma calls_app cs1 cs2 bb w :
  calls (cs1 ++ cs2) bb w
  = calls cs2 (fst (calls cs1 bb w)) (snd (calls cs1 bb w)).
Proof.
  revert bb w. induction cs1 as [|c rest IH]; intros bb w; [reflexivity|].
  simpl. destruct (db.call Store Marshal c bb w) as [[e bb'] w']. apply IH.
Qed.

(** X1: a fresh inserter neither loses, repeats nor reorders records.
    After any sequence of [Insert] and [Flush] calls (fewer than 2^63), the
    records written so far followed by those still buffered are the records
    accepted, in the order of the calls; so when the sequence ends with
    [Flush], as the package asks, all of them have been written. *)
Theorem records_are_delivered_in_order
        (c : mgoCollection) (limit : Z) (continue : bool) (b : B)
        (cs : list db.Call) w :
  Z.of_nat (List.length cs) < GoInt.maxInt ->
  batches (db.wire (snd (calls cs (db.NewBufferedBulkInserter Store c limit continue b) w)))
    ++ db.pending Store
         (db.bulk (fst (calls cs (db.NewBufferedBulkInserter Store c limit continue b) w)))
  = batches (db.wire w) ++ accepted cs
  /\ batches (db.wire (snd (calls (cs ++ [db.DoFlush])
                              (db.NewBufferedBulkInserter Store c limit continue b) w)))
     = batches (db.wire w) ++ accepted cs.
Proof.
  intros Hmax.
  assert (H0 : Z.of_nat
                 (List.length
                    (db.pending Store
                       (db.bulk (db.NewBufferedBulkInserter Store c limit continue b))))
               <= 0).
  { simpl. rewrite db.pending_Reset. simpl. lia. }
  destruct (calls_deliver cs (db.NewBufferedBulkInserter Store c limit continue b) w 0
              eq_refl ltac:(lia) ltac:(lia) H0)
    as (k & Hk & Hn & Hd).
  simpl in Hd. rewrite db.pending_Reset in Hd. simpl in Hd.
  split; [exact Hd|].
  rewrite calls_app. simpl.
  destruct (Flush_delivers _ (snd (calls cs (db.NewBufferedBulkInserter Store c limit continue b) w))
              k Hk Hn) as (e & bb1 & w1 & EF & _ & _ & Hw).
  rewrite EF. simpl. rewrite Hw. exact Hd.
Qed.

End DeliveryFacts.

(** ** What [Run] reports, and the ordering mode of the batches *)

Lemma string_append_assoc (a b c : string) :
  ((a ++ b) ++ c)%string = (a ++ (b ++ c))%string.
Proof. induction a as [|x a IH]; simpl; [reflexivity|rewrite IH; reflexivity]. Qed.

Lemma string_append_empty (a : string) : (a ++ EmptyString)%string = a.
Proof. induction a as [|x a IH]; simpl; [reflexivity|rewrite IH; reflexivity]. Qed.

Lemma concat_empty_cons (x : string) l :
  String.concat EmptyString (x :: l) = (x ++ String.concat EmptyString l)%string.
Proof.
  destruct l as [|y l]; simpl; [symmetry; apply string_append_empty|reflexivity].
Qed.

Lemma fold_left_append (f : writeError -> string) errs : forall init,
  fold_left (fun acc e => (acc ++ f e)%string) errs init
  = (init ++ String.concat EmptyString (map f errs))%string.
Proof.
  induction errs as [|e rest IH]; intros init.
  - simpl. symmetry. apply string_append_empty.
  - simpl fold_left. simpl map. rewrite IH, concat_empty_cons.
    apply string_append_assoc.
Qed.

Section RunFacts.

Variable Store : Type.
Variable exec : Request -> Store -> Reply * Store.
Variable Marshal : D -> error + list byte.

(** X2: [WriteCommandBulk.Run] returns nil exactly when the server reports
    neither a command error nor a write error; a command error is returned
    as it is; write errors come back as an [ErrWriteCommandBulk] whose root
    error is nil, so that its message is made of the write errors' messages
    alone, each on a line of its own and written as a Go string literal:
    in double quotes, with quotes, backslashes and control characters
    escaped.  The message is stated for error messages of bytes below DEL. *)
Theorem WriteCommandBulk_Run_reports (wcb : db.WriteCommandBulk) (w : db.World Store) :
  let reply := fst (exec (db.request Store (BulkInserterSpec := WriteCommandBulk_Spec Store exec) wcb)
                         (db.store w)) in
  let err := fst (db.WriteCommandBulk_Run Store exec wcb w) in
  (err = None <-> reply_err reply = None /\ reply_writeErrors reply = [])
  /\ (forall e, reply_err reply = Some e -> err = Some e)
  /\ (reply_err reply = None -> reply_writeErrors reply <> [] ->
      err = Some (ErrWriteCommandBulk (reply_writeErrors reply) None)
      /\ (Forall (fun we => quotable (we_errmsg we) = true) (reply_writeErrors reply) ->
          forall e, err = Some e ->
            Error e = String.concat EmptyString
                        (map (fun we => (newline ++ quote (we_errmsg we))%string)
                             (reply_writeErrors reply)))).
Proof.
  cbv zeta. unfold db.WriteCommandBulk_Run, db.send. simpl db.request.
  destruct (exec _ (db.store w)) as [rep s'] eqn:E. simpl.
  destruct (reply_err rep) as [e|] eqn:Ee; simpl.
  - split; [split; [discriminate|intros [H _]; discriminate]|].
    split; [intros e0 H; inversion H; reflexivity|]. intros H; discriminate.
  - destruct (reply_writeErrors rep) as [|we errs] eqn:Ew; simpl.
    + split; [split; auto|]. split; [discriminate|]. intros _ H. contradiction.
    + split; [split; [discriminate|intros [_ H]; discriminate]|].
      split; [discriminate|]. intros _ _. split; [reflexivity|].
      intros _ e He. inversion He; subst e.
      unfold Error. rewrite fold_left_append. reflexivity.
Qed.

End RunFacts.

Section OrderingFacts.

Variable Store : Type.
Variable exec : Request -> Store -> Reply * Store.
Variable Marshal : D -> error + list byte.

(** A property of the bulk kept by [Insert] and [Reset] holds of every
    bulk run by a sequence of calls. *)
Lemma calls_requests {B : Type} {BI : db.BulkInserter Store B}
      {BS : db.BulkInserterSpec Store B}
      (I : B -> Prop) (P : Request -> Prop) :
  (forall d b, I b -> I (db.BulkInsert Store d b)) ->
  (forall b, I b -> I (db.Reset Store b)) ->
  (forall b, I b -> P (db.request Store b)) ->
  forall cs (bb : @db.BufferedBulkInserter B) (w : db.World Store),
    I (db.bulk bb) ->
    exists sent,
      db.wire (snd (db.calls Store Marshal cs bb w)) = db.wire w ++ sent
      /\ Forall P sent.
Proof.
  intros Hins Hreset Hreq.
  assert (HF : forall bb w, I (db.bulk bb) ->
             exists sent,
               db.wire (snd (db.Flush Store bb w)) = db.wire w ++ sent
               /\ Forall P sent
               /\ I (db.bulk (snd (fst (db.Flush Store bb w))))).
  { intros bb w Hi. destruct (Z.eq_dec (db.docCount bb) 0) as [Hz|Hnz].
    - rewrite (Flush_zero Store bb w Hz). exists []. simpl.
      rewrite app_nil_r. auto.
    - rewrite (Flush_nonzero Store bb w Hnz). exists [db.request Store (db.bulk bb)].
      simpl. split; [apply db.Run_wire|]. split; [|auto].
      constructor; [auto|constructor]. }
  induction cs as [|c rest IH]; intros bb w Hi.
  - exists []. simpl. rewrite app_nil_r. auto.
  - assert (Hstep : exists sent,
               db.wire (snd (db.call Store Marshal c bb w)) = db.wire w ++ sent
               /\ Forall P sent
               /\ I (db.bulk (snd (fst (db.call Store Marshal c bb w))))).
    { destruct c as [doc|]; simpl db.call; [|apply HF; exact Hi].
      destruct (Marshal doc) as [err|rawBytes] eqn:HM.
      - rewrite (Insert_not_marshalled Store Marshal bb w doc err HM).
        exists []. simpl. rewrite app_nil_r. auto.
      - rewrite (Insert_marshalled Store Marshal bb w doc rawBytes HM).
        destruct (db.full bb rawBytes); cbv zeta.
        + destruct (HF bb w Hi) as (sent & Hw & Hp & Hi').
          exists sent. simpl. auto.
        + exists []. simpl. rewrite app_nil_r. auto. }
    destruct Hstep as (sent & Hw & Hp & Hi').
    simpl db.calls.
    destruct (db.call Store Marshal c bb w) as [[e bb'] w'] eqn:EC. simpl in *.
    destruct (IH bb' w' Hi') as (sent' & Hw' & Hp').
    exists (sent ++ sent'). split.
    + rewrite Hw', Hw. symmetry. apply app_assoc.
    + apply Forall_app. auto.
Qed.

(** X3: a buffered inserter built over [NewWriteCommandBulk(c, ordered, wc)]
    or over [NewLegacyBulk(c, ordered)] sends every batch in the ordering
    mode it was built with, whatever the calls and however often the bulk
    was reset; [NewBufferedBulkInserter] matters for the legacy bulk, which
    takes the mode from its flag only in [Reset]: run as constructed, a
    [NewLegacyBulk(c, false)] sends an ordered batch. *)
Theorem batches_keep_the_ordering_mode
        (c c' : mgoCollection) (limit : Z) (continue ordered : bool)
        (wc : option Safe) (cs : list db.Call) (w : db.World Store) :
  (exists sent,
      db.wire (snd (db.calls Store Marshal cs
                      (BI := db.WriteCommandBulk_BulkInserter Store exec)
                      (db.NewBufferedBulkInserter Store c limit continue
                         (BI := db.WriteCommandBulk_BulkInserter Store exec)
                         (db.NewWriteCommandBulk c' ordered wc)) w))
      = db.wire w ++ sent
      /\ Forall (fun r => ordered_of r = Some ordered) sent)
  /\ (exists sent,
        db.wire (snd (db.calls Store Marshal cs
                        (BI := db.LegacyBulkInserter_BulkInserter Store exec)
                        (db.NewBufferedBulkInserter Store c limit continue
                           (BI := db.LegacyBulkInserter_BulkInserter Store exec)
                           (db.NewLegacyBulk c' ordered)) w))
        = db.wire w ++ sent
        /\ Forall (fun r => ordered_of r = Some ordered) sent)
  /\ db.wire (snd (db.LegacyBulkInserter_Run Store exec (db.NewLegacyBulk c' false) w))
     = db.wire w ++ [ReqBulk c' true []].
Proof.
  split; [|split].
  - apply (calls_requests (BS := WriteCommandBulk_Spec Store exec)
             (fun b => db.wcb_unordered b = negb ordered)).
    + intros d b H. exact H.
    + intros b H. exact H.
    + intros b H. simpl. rewrite H. f_equal. apply negb_involutive.
    + reflexivity.
  - apply (calls_requests (BS := LegacyBulkInserter_Spec Store exec)
             (fun b => db.lbi_unordered b = negb ordered
                       /\ db.bulk_ordered (db.lbi_b b) = ordered)).
    + intros d b H. exact H.
    + intros b [H _]. simpl. rewrite H. split; [reflexivity|].
      destruct ordered; reflexivity.
    + intros b [_ H]. simpl. rewrite H. reflexivity.
    + simpl. split; [reflexivity|]. destruct ordered; reflexivity.
  - apply LegacyBulkInserter_Run_wire.
Qed.

End OrderingFacts.

(** ** Invariants of the pipeline *)

Section PipelineInvariants.

Import mongoimport.

Variable Store : Type.
Variable exec : Request -> Store -> Reply * Store.
Variable Marshal : D -> error + list byte.
Variable BuildWriteConcern : string -> NodeType -> error + option Safe.
Variable removeBlankFields : D -> D.
Context {B : Type} {BI : db.BulkInserter Store B}.
Variable newBulk : mgoCollection -> B.

Notation step :=
  (mongoimport.step Store exec Marshal BuildWriteConcern removeBlankFields newBulk).
Notation run :=
  (mongoimport.run Store exec Marshal BuildWriteConcern removeBlankFields newBulk).
Notation Pipeline := (@mongoimport.Pipeline Store B).
Notation step_cases :=
  (step_cases Store exec Marshal BuildWriteConcern removeBlankFields newBulk).

Implicit Types (p : Pipeline) (a : Action) (i : nat).

Lemma finish_channel i err p :
  closed (finish i err p) = closed p /\ streamed (finish i err p) = streamed p.
Proof.
  unfold finish, set_worker. simpl.
  destruct err; destruct (retErr p) eqn:E; simpl; rewrite ?E; auto.
Qed.

(** What a step does to the channel and to the count. *)
Lemma step_queue a p p' :
  step a p = Some p' ->
  match a with
  | Send document =>
      closed p = false
      /\ Z.of_nat (List.length (readDocs p)) < workerBufferSize
      /\ readDocs p' = readDocs p ++ [document]
      /\ insertionCount (importer p') = insertionCount (importer p)
      /\ closed p' = closed p /\ streamed p' = streamed p
  | Return e =>
      closed p = false
      /\ readDocs p' = readDocs p
      /\ insertionCount (importer p') = insertionCount (importer p)
      /\ closed p' = true /\ streamed p' = Some e
  | Start _ | Die _ =>
      readDocs p' = readDocs p
      /\ insertionCount (importer p') = insertionCount (importer p)
      /\ closed p' = closed p /\ streamed p' = streamed p
  | Recv _ =>
      closed p' = closed p /\ streamed p' = streamed p
      /\ ((exists document,
              readDocs p = document :: readDocs p'
              /\ (insertionCount (importer p') = insertionCount (importer p)
                  \/ insertionCount (importer p')
                     = GoInt.addUint64 (insertionCount (importer p)) 1))
          \/ (readDocs p = [] /\ readDocs p' = [] /\ closed p = true
              /\ insertionCount (importer p') = insertionCount (importer p)))
  end.
Proof.
  destruct a as [document|err|i|i|i]; intros H; unfold mongoimport.step in H.
  - destruct (closed p) eqn:Ec; simpl in H; [discriminate|].
    destruct (Z.ltb_spec (Z.of_nat (List.length (readDocs p))) workerBufferSize);
      [|discriminate].
    apply Some_eq in H. subst p'. simpl. auto 10.
  - destruct (closed p) eqn:Ec; [discriminate|].
    apply Some_eq in H. subst p'. simpl. auto 10.
  - destruct (nth_error (workers p) i) as [[| |]|]; try discriminate.
    destruct (startWorker _ _ _ _) as [err|inserter]; apply Some_eq in H; subst p'.
    + destruct (finish_spec Store i (Some err) p) as (_ & _ & H3 & H4 & _).
      destruct (finish_channel i (Some err) p). auto.
    + simpl. auto.
  - destruct (nth_error (workers p) i) as [[|inserter|]|]; try discriminate.
    destruct (readDocs p) as [|document rest] eqn:Eq.
    + destruct (closed p) eqn:Ec; [|discriminate].
      destruct (flushInserter_Flush _ _ _) as [[e ins'] w'].
      apply Some_eq in H. subst p'.
      match goal with |- context [finish i ?e ?q] =>
        destruct (finish_spec Store i e q) as (_ & _ & H3 & H4 & _);
        destruct (finish_channel i e q) as (H5 & H6) end.
      rewrite H3, H4, H5, H6. simpl. rewrite Ec, Eq. auto 10.
    + destruct (flushInserter_Insert _ _ _ _ _ _ _) as [[e ins'] w'].
      cbv beta iota zeta in H.
      destruct (filterIngestError _ e) as [err|]; apply Some_eq in H; subst p'.
      * match goal with |- context [finish i ?e ?q] =>
          destruct (finish_spec Store i e q) as (_ & _ & H3 & H4 & _);
          destruct (finish_channel i e q) as (H5 & H6) end.
        rewrite H3, H4, H5, H6. simpl. split; [reflexivity|]. split; [reflexivity|].
        left. exists document. auto.
      * simpl. split; [reflexivity|]. split; [reflexivity|].
        left. exists document. auto.
  - destruct (nth_error (workers p) i) as [[|inserter|]|]; try discriminate.
    destruct (dying (Tomb (importer p))); [|discriminate].
    apply Some_eq in H. subst p'.
    destruct (finish_spec Store i None p) as (_ & _ & H3 & H4 & _).
    destruct (finish_channel i None p). auto.
Qed.

Lemma addUint64_bounds c : 0 <= c -> 0 <= GoInt.addUint64 c 1 <= c + 1.
Proof.
  intros H. unfold GoInt.addUint64.
  pose proof (Z.mod_pos_bound (c + 1) (2 ^ 64) ltac:(lia)).
  pose proof (Z.mod_le (c + 1) (2 ^ 64) ltac:(lia) ltac:(lia)). lia.
Qed.

Lemma run_queue sched : forall p p',
  run sched p = Some p' ->
  Z.of_nat (List.length (readDocs p)) <= workerBufferSize ->
  0 <= insertionCount (importer p) ->
  Z.of_nat (List.length (readDocs p')) <= workerBufferSize
  /\ 0 <= insertionCount (importer p')
  /\ insertionCount (importer p') + Z.of_nat (List.length (readDocs p'))
     <= insertionCount (importer p) + Z.of_nat (List.length (readDocs p))
        + Z.of_nat (List.length (sentDocs sched)).
Proof.
  induction sched as [|a rest IH]; intros p p' Hr Hq Hc; simpl in Hr.
  - apply Some_eq in Hr. subst p'. simpl. lia.
  - destruct (step a p) as [p1|] eqn:Hs; [|discriminate].
    pose proof (step_queue a p p1 Hs) as Hstep.
    assert (H1 : Z.of_nat (List.length (readDocs p1)) <= workerBufferSize
                 /\ 0 <= insertionCount (importer p1)
                 /\ insertionCount (importer p1) + Z.of_nat (List.length (readDocs p1))
                      + Z.of_nat (List.length (sentDocs rest))
                    <= insertionCount (importer p) + Z.of_nat (List.length (readDocs p))
                       + Z.of_nat (List.length (sentDocs (a :: rest)))).
    { destruct a as [document|err|i|i|i]; simpl sentDocs.
      - destruct Hstep as (_ & Hlt & Hq' & Hc' & _).
        rewrite Hq', Hc', List.length_app. simpl List.length. lia.
      - destruct Hstep as (_ & Hq' & Hc' & _). rewrite Hq', Hc'. lia.
      - destruct Hstep as (Hq' & Hc' & _). rewrite Hq', Hc'. lia.
      - destruct Hstep as (_ & _ & [(document & Hq' & Hc')|(Hq0 & Hq' & _ & Hc')]).
        + rewrite Hq' in *. simpl List.length in *.
          pose proof (addUint64_bounds (insertionCount (importer p)) Hc).
          destruct Hc' as [Hc'|Hc']; rewrite Hc'; lia.
        + rewrite Hq', Hq0, Hc' in *. simpl. lia.
      - destruct Hstep as (Hq' & Hc' & _). rewrite Hq', Hc'. lia. }
    destruct H1 as (Hq1 & Hc1 & Hle).
    destruct (IH p1 p' Hr Hq1 Hc1) as (H2 & H3 & H4). lia.
Qed.

(** X4: under any schedule the channel never holds more than
    [workerBufferSize] = 16 records, and the count of insertions never
    exceeds the number of records the producer has sent less those still
    waiting in the channel: no record is counted before a worker has taken
    it, or counted twice. *)
Theorem count_bounded_by_records_taken (imp : MongoImport) (w : db.World Store)
        (sched : list Action) p :
  insertionCount imp = 0 ->
  run sched (begin imp w) = Some p ->
  Z.of_nat (List.length (readDocs p)) <= 16
  /\ 0 <= insertionCount (importer p)
  /\ insertionCount (importer p) + Z.of_nat (List.length (readDocs p))
     <= Z.of_nat (List.length (sentDocs sched)).
Proof.
  intros H0 Hr.
  destruct (run_queue sched (begin imp w) p Hr) as (H1 & H2 & H3).
  - simpl. unfold workerBufferSize. lia.
  - simpl. lia.
  - simpl in H3. rewrite H0 in H3. unfold workerBufferSize in H1. auto.
Qed.

Lemma nth_error_update_inv {A} (l : list A) i j (a x : A) :
  nth_error (update i a l) j = Some x ->
  (j = i /\ x = a) \/ (j <> i /\ nth_error l j = Some x).
Proof.
  revert i j. induction l as [|h t IH]; intros [|i] [|j] H; simpl in *;
    try discriminate.
  - left. split; congruence.
  - right. split; [discriminate|exact H].
  - right. split; [discriminate|exact H].
  - destruct (IH i j H) as [[-> ->]|[Hn H']]; [left; auto|right; split; congruence].
Qed.

Lemma length_update {A} (l : list A) i (a : A) :
  List.length (update i a l) = List.length l.
Proof.
  revert i. induction l as [|h t IH]; intros [|i]; simpl; try reflexivity.
  rewrite IH. reflexivity.
Qed.

(** The tomb and the workers' results, against [retErr]: [t0] is the tomb
    the run started with. *)
Definition errors_agree (t0 : TombT) p : Prop :=
  (retErr p = None -> Tomb (importer p) = t0)
  /\ (forall e, retErr p = Some e ->
        Tomb (importer p) = {| dying := true; reason := Some e |}
        /\ exists i, nth_error (workers p) i = Some (Finished (Some e)))
  /\ (forall i e, nth_error (workers p) i = Some (Finished (Some e)) ->
        retErr p <> None).

Lemma step_errors_agree t0 a p p' :
  dying t0 = false ->
  step a p = Some p' -> errors_agree t0 p -> errors_agree t0 p'.
Proof.
  intros Halive Hs (H1 & H2 & H3).
  destruct (step_cases a p p' Hs)
    as [(_ & Hw & Hr & Ht & _)|[(j & g & ins & _ & Hg & Hnf & Hw & Hr & Ht)
                              |(j & g & err & p1 & _ & Hg & Hnf & Hp & Hw & Hr & Ht)]].
  - unfold errors_agree. rewrite Hw, Hr, Ht. auto.
  - unfold errors_agree. rewrite Hw, Hr, Ht. split; [exact H1|]. split.
    + intros e He. destruct (H2 e He) as (Hd & i & Hi). split; [exact Hd|].
      exists i. rewrite nth_error_update_neq; [exact Hi|].
      intros ->. rewrite Hi in Hg. inversion Hg; subst. discriminate.
    + intros i e Hi. apply nth_error_update_inv in Hi.
      destruct Hi as [[_ Hx]|[_ Hi]]; [discriminate|exact (H3 i e Hi)].
  - subst p'. destruct (finish_spec Store j err p1) as (Hw' & _ & _ & _ & Hr' & Ht').
    unfold errors_agree. rewrite Hw', Hr', Ht', Hw, Hr, Ht.
    destruct (retErr p) as [e0|] eqn:E0.
    + destruct (H2 e0 eq_refl) as (Hd & i & Hi).
      split; [discriminate|]. split.
      * intros e He. inversion He; subst e. split; [destruct err; exact Hd|].
        exists i. rewrite nth_error_update_neq; [exact Hi|].
        intros ->. rewrite Hi in Hg. inversion Hg; subst. discriminate.
      * intros; discriminate.
    + specialize (H1 eq_refl). destruct err as [e|].
      * split; [discriminate|]. split.
        -- intros e' He. inversion He; subst e'. split.
           ++ rewrite H1. unfold Kill. rewrite Halive. reflexivity.
           ++ exists j. apply (nth_error_update_eq _ _ g). exact Hg.
        -- intros; discriminate.
      * split; [intros _; exact H1|]. split; [intros; discriminate|].
        intros i e Hi. apply nth_error_update_inv in Hi.
        destruct Hi as [[_ Hx]|[_ Hi]]; [discriminate|exact (H3 i e Hi)].
Qed.

Lemma run_errors_agree t0 sched : forall p p',
  dying t0 = false ->
  run sched p = Some p' -> errors_agree t0 p -> errors_agree t0 p'.
Proof.
  induction sched as [|a rest IH]; intros p p' Halive Hr Hinv; simpl in Hr.
  - apply Some_eq in Hr. subst p'. exact Hinv.
  - destruct (step a p) as [p1|] eqn:Hs; [|discriminate].
    exact (IH p1 p' Halive Hr (step_errors_agree t0 a p p1 Halive Hs Hinv)).
Qed.

Lemma begin_errors_agree (imp : MongoImport) (w : db.World Store) :
  errors_agree (Tomb imp) (begin (B := B) imp w).
Proof.
  unfold errors_agree, begin, spawn. simpl. split; [reflexivity|].
  split; [intros; discriminate|].
  intros i e H. apply nth_error_In, repeat_spec in H. discriminate.
Qed.

(** X5: the tomb is killed exactly when the first insertion error is
    recorded, with that error as its reason.  In a run that starts with a
    live tomb, as long as [retErr] is nil the tomb is as it was, and once
    [retErr] holds an error the tomb is dying with that error. *)
Theorem tomb_dies_with_the_first_error (imp : MongoImport) (w : db.World Store)
        (sched : list Action) p :
  dying (Tomb imp) = false ->
  run sched (begin imp w) = Some p ->
  (retErr p = None -> Tomb (importer p) = Tomb imp)
  /\ (forall e, retErr p = Some e ->
        Tomb (importer p) = {| dying := true; reason := Some e |}).
Proof.
  intros Halive Hr.
  destruct (run_errors_agree (Tomb imp) sched _ p Halive Hr (begin_errors_agree imp w))
    as (H1 & H2 & _).
  split; [exact H1|]. intros e He. exact (proj1 (H2 e He)).
Qed.

Lemma forallb_nth_error {A} (f : A -> bool) (l : list A) :
  forallb f l = true <-> forall i x, nth_error l i = Some x -> f x = true.
Proof.
  rewrite forallb_forall. split.
  - intros H i x Hi. apply H. exact (nth_error_In l i Hi).
  - intros H x Hin. destruct (In_nth_error l x Hin) as (i & Hi). exact (H i x Hi).
Qed.

(** X6: [ingestDocuments] returns only once every worker has returned; it
    returns nil exactly when all of them returned nil, and an error it
    returns is the error some worker returned. *)
Theorem ingestDocuments_returns_a_worker_error
        (imp : MongoImport) (w : db.World Store) (sched : list Action) p err :
  dying (Tomb imp) = false ->
  run sched (begin imp w) = Some p ->
  ingestDocuments p = Some err ->
  (forall i g, nth_error (workers p) i = Some g -> exists e, g = Finished e)
  /\ (err = None <->
      forall i g, nth_error (workers p) i = Some g -> g = Finished None)
  /\ (forall e, err = Some e ->
        exists i, nth_error (workers p) i = Some (Finished (Some e))).
Proof.
  intros Halive Hr Hi.
  destruct (run_errors_agree (Tomb imp) sched _ p Halive Hr (begin_errors_agree imp w))
    as (_ & H2 & H3).
  unfold ingestDocuments in Hi.
  destruct (forallb isFinished (workers p)) eqn:Hall; [|discriminate].
  apply Some_eq in Hi. subst err.
  rewrite forallb_nth_error in Hall.
  assert (Hfin : forall i g, nth_error (workers p) i = Some g -> exists e, g = Finished e).
  { intros i g Hg. specialize (Hall i g Hg). destruct g; try discriminate. eauto. }
  split; [exact Hfin|]. split.
  - split.
    + intros Hn i g Hg. destruct (Hfin i g Hg) as ([e|] & ->); [|reflexivity].
      exfalso. exact (H3 i e Hg Hn).
    + intros Hnone. destruct (retErr p) as [e|] eqn:E; [|reflexivity].
      destruct (H2 e eq_refl) as (_ & i & Hg).
      specialize (Hnone i _ Hg). discriminate.
  - intros e He. exact (proj2 (H2 e He)).
Qed.

Lemma run_app s1 s2 p :
  run (s1 ++ s2) p
  = match run s1 p with Some p1 => run s2 p1 | None => None end.
Proof.
  revert p. induction s1 as [|a rest IH]; intros p; simpl; [reflexivity|].
  destruct (step a p); [apply IH|reflexivity].
Qed.

Lemma run_step a sched p p1 :
  step a p = Some p1 -> run (a :: sched) p = run sched p1.
Proof. intros H. simpl. rewrite H. reflexivity. Qed.

Lemma length_workers_finish i err p :
  List.length (workers (finish i err p)) = List.length (workers p).
Proof.
  destruct (finish_spec Store i err p) as (H & _). rewrite H. apply length_update.
Qed.

(** A step of a worker that can take it: worker [i] either has returned
    afterwards or is in its loop with one record less on the channel. *)
Lemma Recv_progress p i ins :
  nth_error (workers p) i = Some (Looping ins) ->
  closed p = true ->
  exists p1,
    step (Recv i) p = Some p1
    /\ closed p1 = true
    /\ streamed p1 = streamed p
    /\ List.length (workers p1) = List.length (workers p)
    /\ ((exists e, nth_error (workers p1) i = Some (Finished e))
        \/ (exists ins' document,
              nth_error (workers p1) i = Some (Looping ins')
              /\ readDocs p = document :: readDocs p1)).
Proof.
  intros Hi Hc. unfold mongoimport.step. rewrite Hi.
  destruct (readDocs p) as [|document rest] eqn:Eq.
  - rewrite Hc. destruct (flushInserter_Flush _ _ _) as [[e ins'] w'].
    eexists. split; [reflexivity|].
    match goal with |- context [finish i ?e ?q] =>
      destruct (finish_spec Store i e q) as (H1 & _);
      destruct (finish_channel i e q) as (H5 & H6);
      pose proof (length_workers_finish i e q) as H7 end.
    rewrite H5, H6, H7, H1. simpl. split; [exact Hc|]. split; [reflexivity|].
    split; [reflexivity|]. left. eexists.
    apply (nth_error_update_eq _ _ (Looping ins)). exact Hi.
  - destruct (flushInserter_Insert _ _ _ _ _ _ _) as [[e ins'] w'].
    cbv beta iota zeta.
    destruct (filterIngestError _ e) as [err|]; (eexists; split; [reflexivity|]).
    + match goal with |- context [finish i ?e ?q] =>
        destruct (finish_spec Store i e q) as (H1 & _);
        destruct (finish_channel i e q) as (H5 & H6);
        pose proof (length_workers_finish i e q) as H7 end.
      rewrite H5, H6, H7, H1. simpl. split; [exact Hc|]. split; [reflexivity|].
      split; [reflexivity|]. left. eexists.
      apply (nth_error_update_eq _ _ (Looping ins)). exact Hi.
    + simpl. rewrite length_update. split; [exact Hc|]. split; [reflexivity|].
      split; [reflexivity|]. right. exists ins', document. split; [|reflexivity].
      apply (nth_error_update_eq _ _ (Looping ins)). exact Hi.
Qed.

Lemma Start_progress p i :
  nth_error (workers p) i = Some Spawned ->
  exists p1,
    step (Start i) p = Some p1
    /\ closed p1 = closed p
    /\ streamed p1 = streamed p
    /\ readDocs p1 = readDocs p
    /\ List.length (workers p1) = List.length (workers p)
    /\ ((exists e, nth_error (workers p1) i = Some (Finished e))
        \/ (exists ins, nth_error (workers p1) i = Some (Looping ins))).
Proof.
  intros Hi. unfold mongoimport.step. rewrite Hi.
  destruct (startWorker _ _ _ _) as [err|inserter]; (eexists; split; [reflexivity|]).
  - destruct (finish_spec Store i (Some err) p) as (H1 & _ & H3 & _).
    destruct (finish_channel i (Some err) p) as (H5 & H6).
    rewrite H5, H6, H3, (length_workers_finish i (Some err) p).
    repeat split. left. eexists. rewrite H1.
    apply (nth_error_update_eq _ _ Spawned). exact Hi.
  - simpl. rewrite length_update. repeat split. right. exists inserter.
    apply (nth_error_update_eq _ _ Spawned). exact Hi.
Qed.

Lemma finished_stays_run sched : forall p p' i e,
  nth_error (workers p) i = Some (Finished e) ->
  run sched p = Some p' ->
  nth_error (workers p') i = Some (Finished e).
Proof.
  induction sched as [|a rest IH]; intros p p' i e Hf Hr; simpl in Hr.
  - apply Some_eq in Hr. subst p'. exact Hf.
  - destruct (step a p) as [p1|] eqn:Hs; [|discriminate].
    apply (IH p1 p' i e); [|exact Hr].
    exact (finished_stays Store exec Marshal BuildWriteConcern removeBlankFields newBulk
             a p p1 i e Hf Hs).
Qed.

(** With the channel closed, a worker in its loop returns after at most
    one receive per record left and one more. *)
Lemma looping_worker_returns n : forall p i ins,
  List.length (readDocs p) = n ->
  nth_error (workers p) i = Some (Looping ins) ->
  closed p = true ->
  exists sched p',
    run sched p = Some p'
    /\ Forall (fun a => actor a = Some i) sched
    /\ closed p' = true /\ streamed p' = streamed p
    /\ List.length (workers p') = List.length (workers p)
    /\ exists e, nth_error (workers p') i = Some (Finished e).
Proof.
  induction n as [|n IH]; intros p i ins Hn Hi Hc;
    destruct (Recv_progress p i ins Hi Hc)
      as (p1 & Hs & Hc1 & Hst & Hlen & [Hfin|(ins' & document & Hi' & Hq)]).
  - exists [Recv i], p1. rewrite (run_step _ _ _ _ Hs). repeat split; auto.
  - rewrite Hq in Hn. discriminate.
  - exists [Recv i], p1. rewrite (run_step _ _ _ _ Hs). repeat split; auto.
  - rewrite Hq in Hn. simpl in Hn.
    destruct (IH p1 i ins' ltac:(lia) Hi' Hc1)
      as (sched & p' & Hr & Hact & Hc' & Hst' & Hlen' & Hfin).
    exists (Recv i :: sched), p'. rewrite (run_step _ _ _ _ Hs).
    repeat split; try assumption; try congruence. constructor; auto.
Qed.

Lemma worker_returns p i g :
  nth_error (workers p) i = Some g ->
  closed p = true ->
  exists sched p',
    run sched p = Some p'
    /\ Forall (fun a => actor a = Some i) sched
    /\ closed p' = true /\ streamed p' = streamed p
    /\ List.length (workers p') = List.length (workers p)
    /\ exists e, nth_error (workers p') i = Some (Finished e).
Proof.
  intros Hi Hc. destruct g as [|ins|e].
  - destruct (Start_progress p i Hi)
      as (p1 & Hs & Hc1 & Hst & Hq & Hlen & [Hfin|(ins & Hi')]).
    + exists [Start i], p1. rewrite (run_step _ _ _ _ Hs). repeat split; auto; congruence.
    + destruct (looping_worker_returns _ p1 i ins eq_refl Hi' ltac:(congruence))
        as (sched & p' & Hr & Hact & Hc' & Hst' & Hlen' & Hfin).
      exists (Start i :: sched), p'. rewrite (run_step _ _ _ _ Hs).
      repeat split; try assumption; try congruence. constructor; auto.
  - exact (looping_worker_returns _ p i ins eq_refl Hi Hc).
  - exists [], p. simpl. repeat split; eauto.
Qed.

Lemma first_workers_return m : forall p,
  closed p = true ->
  (m <= List.length (workers p))%nat ->
  exists sched p',
    run sched p = Some p'
    /\ Forall (fun a => actor a <> None) sched
    /\ closed p' = true /\ streamed p' = streamed p
    /\ List.length (workers p') = List.length (workers p)
    /\ forall j, (j < m)%nat -> exists e, nth_error (workers p') j = Some (Finished e).
Proof.
  induction m as [|m IH]; intros p Hc Hm.
  - exists [], p. simpl. repeat split; auto. intros j Hj. inversion Hj.
  - destruct (IH p Hc ltac:(lia)) as (s1 & p1 & Hr1 & Ha1 & Hc1 & Hst1 & Hl1 & Hf1).
    destruct (nth_error (workers p1) m) as [g|] eqn:Eg.
    2:{ apply nth_error_None in Eg. lia. }
    destruct (worker_returns p1 m g Eg Hc1)
      as (s2 & p2 & Hr2 & Ha2 & Hc2 & Hst2 & Hl2 & Hf2).
    exists (s1 ++ s2), p2. rewrite run_app, Hr1.
    split; [exact Hr2|]. split.
    { apply Forall_app. split; [exact Ha1|].
      eapply Forall_impl; [|exact Ha2]. intros a Ha. rewrite Ha. discriminate. }
    split; [exact Hc2|]. split; [congruence|]. split; [congruence|].
    intros j Hj. destruct (Nat.eq_dec j m) as [->|Hne]; [exact Hf2|].
    destruct (Hf1 j ltac:(lia)) as (e & He). exists e.
    exact (finished_stays_run s2 p1 p2 j e He Hr2).
Qed.

(** X7: once the channel is closed the workers can always run to their
    end, in whatever state they are: there is a schedule of worker steps
    alone after which every worker has returned and [ingestDocuments]
    returns.  No worker waits for something that cannot come. *)
Theorem workers_return_once_the_channel_is_closed p :
  closed p = true ->
  exists sched p' err,
    run sched p = Some p'
    /\ Forall (fun a => actor a <> None) sched
    /\ ingestDocuments p' = Some err
    /\ streamed p' = streamed p.
Proof.
  intros Hc.
  destruct (first_workers_return (List.length (workers p)) p Hc (Nat.le_refl _))
    as (sched & p' & Hr & Ha & _ & Hst & Hl & Hf).
  exists sched, p', (retErr p'). split; [exact Hr|]. split; [exact Ha|].
  split; [|exact Hst].
  unfold ingestDocuments.
  assert (Hall : forallb isFinished (workers p') = true).
  { apply forallb_nth_error. intros i g Hg.
    assert (Hi : (i < List.length (workers p))%nat).
    { rewrite <- Hl. apply nth_error_Some. congruence. }
    destruct (Hf i Hi) as (e & He). rewrite He in Hg. inversion Hg. reflexivity. }
  rewrite Hall. reflexivity.
Qed.

End PipelineInvariants.

(** ** One worker writes the input in its order *)

Section OrderFacts.

Import mongoimport.

Variable Store : Type.
Variable exec : Request -> Store -> Reply * Store.
Variable Marshal : D -> error + list byte.
Variable BuildWriteConcern : string -> NodeType -> error + option Safe.
Variable removeBlankFields : D -> D.
Context {B : Type} {BI : db.BulkInserter Store B} {BS : db.BulkInserterSpec Store B}.
Variable newBulk : mgoCollection -> B.

Notation step :=
  (mongoimport.step Store exec Marshal BuildWriteConcern removeBlankFields newBulk).
Notation run :=
  (mongoimport.run Store exec Marshal BuildWriteConcern removeBlankFields newBulk).
Notation Pipeline := (@mongoimport.Pipeline Store B).

Implicit Types (p : Pipeline) (a : Action) (i : nat).

Local Arguments finish : simpl never.

Variable imp : MongoImport.
Variable w0 : db.World Store.

(** The records the worker hands to its inserter for the documents
    [taken] off the channel. *)
Definition handed (taken : list D) : list Raw :=
  db.accepted Marshal
    (map (fun d => db.DoInsert (if ignoreBlanks imp then removeBlankFields d else d))
         taken).

Lemma handed_app t1 t2 : handed (t1 ++ t2) = handed t1 ++ handed t2.
Proof.
  unfold handed. induction t1 as [|d t1 IH].
  - reflexivity.
  - cbn [map app]. rewrite (accepted_cons Marshal _ (map _ (t1 ++ t2))).
    rewrite (accepted_cons Marshal _ (map _ t1)), IH. apply app_assoc.
Qed.

(** The state of the only worker against the documents [taken] so far. *)
Definition delivering p (taken : list D) : Prop :=
  (exists n t, importer p = set_insertionCount n (set_Tomb t imp))
  /\ errors_agree Store (Tomb imp) p
  /\ exists g,
      workers p = [g]
      /\ match g with
         | Spawned =>
             taken = [] /\ batches (db.wire (world p)) = batches (db.wire w0)
         | Looping (Upserter _) => False
         | Looping (Buffered bb) =>
             exists k,
               db.docCount bb = k /\ 0 <= k <= Z.of_nat (List.length taken)
               /\ Z.of_nat (List.length (db.pending Store (db.bulk bb))) <= k
               /\ batches (db.wire (world p)) ++ db.pending Store (db.bulk bb)
                  = batches (db.wire w0) ++ handed taken
         | Finished None =>
             readDocs p = [] /\ closed p = true
             /\ batches (db.wire (world p)) = batches (db.wire w0) ++ handed taken
         | Finished (Some _) =>
             exists lost,
               batches (db.wire (world p)) ++ lost
               = batches (db.wire w0) ++ handed taken
         end.

Lemma finish_importer i err p :
  exists t, importer (finish i err p) = set_Tomb t (importer p).
Proof.
  unfold finish, set_worker. simpl.
  destruct err as [e|]; destruct (retErr p); simpl;
    [exists (Tomb (importer p))|exists (Kill (Some e) (Tomb (importer p)))
     |exists (Tomb (importer p))|exists (Tomb (importer p))];
    destruct (importer p); reflexivity.
Qed.

Lemma finish_keeps_options i err p n t :
  importer p = set_insertionCount n (set_Tomb t imp) ->
  exists n' t', importer (finish i err p) = set_insertionCount n' (set_Tomb t' imp).
Proof.
  intros H. destruct (finish_importer i err p) as (t' & Ht).
  exists n, t'. rewrite Ht, H. reflexivity.
Qed.

Hypothesis alive : dying (Tomb imp) = false.
Hypothesis buffered : Upsert (IngestOptions imp) = false.
Hypothesis inOrder : MaintainInsertionOrder (IngestOptions imp) = true.

Lemma step_delivering a p p' taken :
  delivering p taken ->
  Z.of_nat (List.length taken) < GoInt.maxInt ->
  step a p = Some p' ->
  exists taken',
    delivering p' taken'
    /\ taken' ++ readDocs p' = taken ++ readDocs p ++ sentDocs [a]
    /\ (List.length taken' <= S (List.length taken))%nat.
Proof.
  intros (Himp & Herr & g & Hw & Hg) Hmax Hs.
  pose proof (step_errors_agree Store exec Marshal BuildWriteConcern removeBlankFields
                newBulk (Tomb imp) a p p' alive Hs Herr) as Herr'.
  destruct Himp as (n & t & Himp).
  destruct a as [document|err|i|i|i]; unfold mongoimport.step in Hs.
  - (* Send *)
    destruct (closed p) eqn:Ec; simpl in Hs; [discriminate|].
    destruct (Z.of_nat (List.length (readDocs p)) <? workerBufferSize); [|discriminate].
    apply Some_eq in Hs. subst p'. exists taken. simpl.
    split; [|split; [rewrite app_assoc; reflexivity|lia]].
    split; [exists n, t; exact Himp|]. split; [exact Herr'|].
    exists g. split; [exact Hw|].
    destruct g as [|[up|bb]|[e|]]; try exact Hg.
    destruct Hg as (_ & Hc & _). congruence.
  - (* Return *)
    destruct (closed p) eqn:Ec; [discriminate|].
    apply Some_eq in Hs. subst p'. exists taken. simpl.
    split; [|split; [rewrite app_nil_r; reflexivity|lia]].
    split; [exists n, t; exact Himp|]. split; [exact Herr'|].
    exists g. split; [exact Hw|].
    destruct g as [|[up|bb]|[e|]]; try exact Hg.
    destruct Hg as (_ & Hc & _). congruence.
  - (* Start *)
    rewrite Hw in Hs. destruct i as [|i]; [|destruct i; discriminate].
    simpl in Hs. destruct g as [|ins|e]; try discriminate.
    destruct Hg as (Ht & Hb). subst taken.
    exists []. split; [|split; [|simpl; lia]].
    2:{ destruct (startWorker _ _ _ _) as [err|inserter]; apply Some_eq in Hs; subst p'.
        - destruct (finish_spec Store 0 (Some err) p) as (_ & _ & H3 & _).
          rewrite H3, app_nil_r. reflexivity.
        - simpl. rewrite app_nil_r. reflexivity. }
    unfold startWorker in Hs. rewrite Himp in Hs. simpl in Hs.
    rewrite buffered, inOrder in Hs. simpl in Hs.
    destruct (GetSession (SessionProvider imp)) as [err|session].
    + apply Some_eq in Hs. subst p'.
      destruct (finish_spec Store 0 (Some (Errorf "error connecting to mongod: " err)) p)
        as (H1 & H2 & _ & _ & _ & _).
      split; [|split; [exact Herr'|]].
      * exact (finish_keeps_options _ _ _ n t Himp).
      * eexists. rewrite H1, Hw. simpl. split; [reflexivity|].
        exists []. rewrite H2, Hb, !app_nil_r. reflexivity.
    + unfold configureSession in Hs. simpl in Hs.
      destruct (BuildWriteConcern _ _) as [err|safety]; apply Some_eq in Hs; subst p'.
      * match goal with |- context [finish 0 ?e p] =>
          destruct (finish_spec Store 0 e p) as (H1 & H2 & _) end.
        split; [|split; [exact Herr'|]].
        -- exact (finish_keeps_options _ _ _ n t Himp).
        -- eexists. rewrite H1, Hw. simpl. split; [reflexivity|].
           exists []. rewrite H2, Hb, !app_nil_r. reflexivity.
      * split; [|split; [exact Herr'|]].
        -- exists n, t. simpl. exact Himp.
        -- eexists. simpl. rewrite Hw. simpl. split; [reflexivity|].
           exists 0. simpl. rewrite db.pending_Reset. simpl.
           split; [reflexivity|]. split; [lia|]. split; [lia|].
           rewrite !app_nil_r. exact Hb.
  - (* Recv *)
    rewrite Hw in Hs. destruct i as [|i]; [|destruct i; discriminate].
    simpl nth_error in Hs. destruct g as [|[up|bb]|e]; try discriminate; [contradiction|].
    destruct Hg as (k & Hk & Hk0 & Hn & Hb).
    destruct (readDocs p) as [|document rest] eqn:Eq.
    + (* the channel is closed and drained *)
      destruct (closed p) eqn:Ec; [|discriminate].
      simpl flushInserter_Flush in Hs.
      destruct (Flush_delivers Store bb (world p) k Hk Hn)
        as (e & bb1 & w1 & EF & _ & _ & Hw1).
      rewrite EF in Hs. apply Some_eq in Hs. subst p'.
      exists taken.
      match goal with |- context [finish 0 ?e ?q] =>
        destruct (finish_spec Store 0 e q) as (H1 & H2 & H3 & _);
        destruct (finish_channel Store 0 e q) as (H5 & _);
        set (res := e) in * end.
      split; [|split; [rewrite H3; simpl; rewrite Eq; reflexivity|lia]].
      split; [|split; [exact Herr'|]].
      * apply (finish_keeps_options _ _ _ n t). exact Himp.
      * eexists. rewrite H1. simpl. rewrite Hw. simpl. split; [reflexivity|].
        destruct res.
        -- exists []. rewrite H2. simpl. rewrite Hw1, Hb, app_nil_r. reflexivity.
        -- rewrite H3, H5, H2. simpl. rewrite Eq, Ec, Hw1, Hb. auto.
    + (* a document is taken *)
      simpl flushInserter_Insert in Hs. rewrite Himp in Hs. simpl in Hs.
      set (doc := if ignoreBlanks imp then removeBlankFields document else document) in *.
      destruct (call_delivers Store Marshal (db.DoInsert doc) bb (world p) k
                  Hk ltac:(lia) ltac:(lia) Hn)
        as (e & bb' & w' & k' & EC & Hk' & Hkk & Hn' & Hd).
      simpl in EC.
      assert (Hdoc : ignoreBlanks (set_insertionCount n (set_Tomb t imp)) = ignoreBlanks imp)
        by reflexivity.
      change (if ignoreBlanks (set_insertionCount n (set_Tomb t imp))
              then removeBlankFields document else document) with doc in Hs.
      rewrite EC in Hs.
      exists (taken ++ [document]).
      assert (Hh : handed (taken ++ [document])
                   = handed taken ++ db.accepted Marshal [db.DoInsert doc]).
      { rewrite handed_app. reflexivity. }
      destruct (filterIngestError _ e) as [err|]; apply Some_eq in Hs; subst p'.
      * match goal with |- context [finish 0 ?e ?q] =>
          destruct (finish_spec Store 0 e q) as (H1 & H2 & H3 & _) end.
        split; [|split; [rewrite H3; simpl; rewrite <- app_assoc, app_nil_r; reflexivity
                        |rewrite List.length_app; simpl; lia]].
        split; [|split; [exact Herr'|]].
        -- apply (finish_keeps_options _ _ _ n t). exact Himp.
        -- eexists. rewrite H1. simpl. rewrite Hw. simpl. split; [reflexivity|].
           exists (db.pending Store (db.bulk bb')). rewrite H2. simpl.
           rewrite Hd, Hh. rewrite app_assoc, Hb, <- app_assoc. reflexivity.
      * simpl. split; [|split; [rewrite <- app_assoc, app_nil_r; reflexivity
                               |rewrite List.length_app; simpl; lia]].
        split; [|split; [exact Herr'|]].
        -- rewrite Himp. eexists _, _. reflexivity.
        -- eexists. unfold set_worker. simpl. rewrite Hw. simpl. split; [reflexivity|].
           exists k'. split; [exact Hk'|]. rewrite List.length_app. simpl.
           split; [lia|]. split; [exact Hn'|].
           rewrite Hd, Hh. rewrite app_assoc, Hb, <- app_assoc. reflexivity.
  - (* Die: the tomb is alive while the only worker is in its loop *)
    rewrite Hw in Hs. destruct i as [|i]; [|destruct i; discriminate].
    simpl nth_error in Hs. destruct g as [|ins|e]; try discriminate.
    destruct Herr as (H1 & H2 & _).
    assert (Hr : retErr p = None).
    { destruct (retErr p) as [e|] eqn:E; [|reflexivity].
      destruct (H2 e eq_refl) as (_ & j & Hj). rewrite Hw in Hj.
      destruct j as [|j]; [discriminate|destruct j; discriminate]. }
    rewrite (H1 Hr), alive in Hs. discriminate.
Qed.

Lemma run_delivering sched : forall p p' taken,
  delivering p taken ->
  Z.of_nat (List.length taken) + Z.of_nat (List.length sched) < GoInt.maxInt ->
  run sched p = Some p' ->
  exists taken',
    delivering p' taken'
    /\ taken' ++ readDocs p' = taken ++ readDocs p ++ sentDocs sched.
Proof.
  induction sched as [|a rest IH]; intros p p' taken Hd Hmax Hr; simpl in Hr.
  - apply Some_eq in Hr. subst p'. exists taken. rewrite app_nil_r. auto.
  - simpl List.length in Hmax.
    destruct (step a p) as [p1|] eqn:Hs; [|discriminate].
    destruct (step_delivering a p p1 taken Hd ltac:(lia) Hs) as (t1 & Hd1 & Heq & Hlen).
    destruct (IH p1 p' t1 Hd1 ltac:(lia) Hr) as (t2 & Hd2 & Heq2).
    exists t2. split; [exact Hd2|].
    rewrite Heq2, app_assoc, Heq, <- !app_assoc. f_equal. f_equal.
    destruct a; reflexivity.
Qed.

(** X8: with upserts off, the insertion order maintained and hence one
    worker, the records written are at every point of a run a prefix of the
    records of the input that serialize, in the order of the input (blank
    fields removed where asked for): none is written twice or out of its
    turn, also when the import stops on an error.  And when
    [ingestDocuments] returns nil all of them have been written: nothing is
    left in the channel or in the buffer. *)
Theorem one_worker_writes_the_input_in_order (sched : list Action) p :
  numInsertionWorkers imp = 1 ->
  Z.of_nat (List.length sched) < GoInt.maxInt ->
  run sched (begin imp w0) = Some p ->
  (exists later,
      batches (db.wire (world p)) ++ later
      = batches (db.wire w0) ++ handed (sentDocs sched))
  /\ (ingestDocuments p = Some None ->
      readDocs p = []
      /\ batches (db.wire (world p)) = batches (db.wire w0) ++ handed (sentDocs sched)).
Proof.
  intros H1 Hmax Hr.
  assert (H0 : delivering (begin imp w0) []).
  { split; [exists (insertionCount imp), (Tomb imp); destruct imp; reflexivity|].
    split; [apply (begin_errors_agree Store)|].
    exists Spawned. unfold begin, spawn. rewrite H1. simpl. auto. }
  destruct (run_delivering sched _ p [] H0 ltac:(simpl; lia) Hr)
    as (taken & (_ & (_ & _ & H3) & g & Hw & Hg) & Heq).
  simpl in Heq. rewrite <- Heq, handed_app. split.
  - destruct g as [|[up|bb]|[e|]].
    + destruct Hg as (Ht & Hb). subst taken. exists (handed (readDocs p)).
      rewrite Hb. reflexivity.
    + contradiction.
    + destruct Hg as (k & _ & _ & _ & Hb).
      exists (db.pending Store (db.bulk bb) ++ handed (readDocs p)).
      rewrite app_assoc, Hb, <- app_assoc. reflexivity.
    + destruct Hg as (lost & Hb). exists (lost ++ handed (readDocs p)).
      rewrite app_assoc, Hb, <- app_assoc. reflexivity.
    + destruct Hg as (_ & _ & Hb). exists (handed (readDocs p)).
      rewrite Hb, <- app_assoc. reflexivity.
  - intros Hi. unfold ingestDocuments in Hi. rewrite Hw in Hi. simpl in Hi.
    destruct g as [|ins|[e|]]; try discriminate.
    + exfalso. apply Some_eq in Hi. apply (H3 0%nat e); [rewrite Hw; reflexivity|exact Hi].
    + destruct Hg as (Hq & _ & Hb). rewrite Hq. simpl. rewrite app_nil_r.
      split; [reflexivity|exact Hb].
Qed.

End OrderFacts.

(** ** Paths and file names *)

(** Whether the byte [c] occurs in [s]. *)
Fixpoint has (c : ascii) (s : string) : bool :=
  match s with
  | EmptyString => false
  | String x r => Ascii.eqb x c || has c r
  end.

Lemma has_app c a b : has c (a ++ b)%string = has c a || has c b.
Proof.
  induction a as [|x a IH]; simpl; [reflexivity|]. rewrite IH. apply orb_assoc.
Qed.

Lemma list_ascii_of_string_app a b :
  list_ascii_of_string (a ++ b)%string
  = list_ascii_of_string a ++ list_ascii_of_string b.
Proof. induction a as [|x a IH]; simpl; [reflexivity|]. rewrite IH. reflexivity. Qed.

Lemma has_In c s : has c s = false -> forall x, In x (list_ascii_of_string s) -> x <> c.
Proof.
  induction s as [|y s IH]; simpl; intros H x Hin; [contradiction|].
  apply orb_false_iff in H. destruct H as [H1 H2]. destruct Hin as [->|Hin].
  - apply Ascii.eqb_neq. exact H1.
  - exact (IH H2 x Hin).
Qed.

Lemma afterLastSlash_free s : forall acc,
  has "/" s = false ->
  mongoimport.afterLastSlash (list_ascii_of_string s) acc = acc ++ list_ascii_of_string s.
Proof.
  induction s as [|x s IH]; simpl; intros acc H; [rewrite app_nil_r; reflexivity|].
  apply orb_false_iff in H. destruct H as [H1 H2]. rewrite H1, (IH _ H2), <- app_assoc.
  reflexivity.
Qed.

Lemma afterLastSlash_dir d rest : forall acc,
  mongoimport.afterLastSlash (d ++ "/"%char :: rest) acc
  = mongoimport.afterLastSlash rest [].
Proof.
  induction d as [|c d IH]; simpl; intros acc; [reflexivity|].
  destruct (Ascii.eqb c "/"); apply IH.
Qed.

Lemma append_empty a b : (a ++ b)%string = EmptyString -> b = EmptyString.
Proof. destruct a; simpl; [auto|discriminate]. Qed.

(** [filepath.Base] of a directory followed by a name is the name. *)
Lemma Base_dir_name dir name :
  dir = EmptyString \/ (exists d, dir = (d ++ "/")%string) ->
  name <> EmptyString -> has "/" name = false ->
  mongoimport.Base (dir ++ name) = name.
Proof.
  intros Hdir Hne Hfree. unfold mongoimport.Base.
  destruct (String.eqb_spec (dir ++ name) "") as [E|_].
  { apply append_empty in E. contradiction. }
  rewrite list_ascii_of_string_app.
  assert (Hcb : list_ascii_of_string name <> []).
  { destruct name; [contradiction|discriminate]. }
  destruct (exists_last Hcb) as (front & c & Hc).
  assert (Hslash : Ascii.eqb c "/" = false).
  { apply Ascii.eqb_neq. apply (has_In _ _ Hfree). rewrite Hc.
    apply in_or_app. right. left. reflexivity. }
  assert (Hdrop : mongoimport.dropSlashes
                    (rev (list_ascii_of_string dir ++ list_ascii_of_string name))
                  = rev (list_ascii_of_string dir ++ list_ascii_of_string name)).
  { rewrite Hc, app_assoc, rev_unit. simpl. rewrite Hslash. reflexivity. }
  rewrite Hdrop, rev_involutive.
  assert (Hafter : mongoimport.afterLastSlash
                     (list_ascii_of_string dir ++ list_ascii_of_string name) []
                   = list_ascii_of_string name).
  { destruct Hdir as [->|(d & ->)].
    - simpl. apply (afterLastSlash_free name [] Hfree).
    - rewrite list_ascii_of_string_app. simpl. rewrite <- app_assoc. simpl.
      rewrite afterLastSlash_dir. apply (afterLastSlash_free name [] Hfree). }
  rewrite Hafter. destruct (list_ascii_of_string name) eqn:E; [contradiction|].
  rewrite <- E. apply string_of_list_ascii_of_string.
Qed.

Lemma LastIndex_from_free sep s : forall i last,
  has sep s = false -> mongoimport.LastIndex_from s sep i last = last.
Proof.
  induction s as [|x s IH]; simpl; intros i last H; [reflexivity|].
  apply orb_false_iff in H. destruct H as [H1 H2]. rewrite H1. apply IH. exact H2.
Qed.

Lemma LastIndex_from_app sep a b : forall i last,
  mongoimport.LastIndex_from (a ++ b) sep i last
  = mongoimport.LastIndex_from b sep (i + Z.of_nat (String.length a))
      (mongoimport.LastIndex_from a sep i last).
Proof.
  induction a as [|x a IH]; intros i last.
  - simpl. rewrite Z.add_0_r. reflexivity.
  - cbn [String.append mongoimport.LastIndex_from String.length]. rewrite IH.
    f_equal. lia.
Qed.

Lemma substring_prefix a b : substring 0 (String.length a) (a ++ b) = a.
Proof.
  induction a as [|x a IH]; simpl.
  - destruct b; reflexivity.
  - rewrite IH. reflexivity.
Qed.

(** The base name of a path up to its last dot. *)
Definition stem (file : string) : string :=
  let fileBaseName := mongoimport.Base file in
  let lastDotIndex := mongoimport.LastIndex fileBaseName "." in
  if negb (lastDotIndex =? -1) then mongoimport.slice_to fileBaseName lastDotIndex
  else fileBaseName.

Lemma stem_with_extension dir name ext :
  dir = EmptyString \/ (exists d, dir = (d ++ "/")%string) ->
  has "/" name = false -> has "/" ext = false -> has "." ext = false ->
  stem (dir ++ name ++ "." ++ ext) = name.
Proof.
  intros Hdir Hn He Hd. unfold stem.
  rewrite (Base_dir_name dir (name ++ "." ++ ext)%string Hdir).
  - unfold mongoimport.LastIndex. rewrite LastIndex_from_app.
    cbn [String.append mongoimport.LastIndex_from]. rewrite Ascii.eqb_refl.
    rewrite (LastIndex_from_free "." ext _ _ Hd).
    destruct (0 + Z.of_nat (String.length name) =? -1) eqn:E;
      [apply Z.eqb_eq in E; lia|].
    simpl negb. cbv iota. unfold mongoimport.slice_to.
    rewrite Z.add_0_l, Nat2Z.id. apply substring_prefix.
  - destruct name; discriminate.
  - rewrite !has_app, Hn, He. reflexivity.
Qed.

Lemma stem_without_extension dir name :
  dir = EmptyString \/ (exists d, dir = (d ++ "/")%string) ->
  name <> EmptyString -> has "/" name = false -> has "." name = false ->
  stem (dir ++ name) = name.
Proof.
  intros Hdir Hne Hn Hd. unfold stem.
  rewrite (Base_dir_name dir name Hdir Hne Hn).
  unfold mongoimport.LastIndex. rewrite (LastIndex_from_free "." name _ _ Hd).
  reflexivity.
Qed.

(** ** What [ValidateSettings] accepts *)

Section SettingsFacts.

Import mongoimport.

Variable ValidateDBName : string -> option error.
Variable validateFields : list string -> option error.
Variable ValidateCollectionName : string -> option error.

Notation Validate :=
  (ValidateSettings ValidateDBName validateFields ValidateCollectionName).

Ltac preserve :=
  first
    [ apply post_fail
    | apply post_ret; intros ? H; exact H
    | apply post_gets; intros ? H; exact H
    | apply post_orFail; intros _ ? H; exact H
    | apply post_modify; intros ? H; exact H
    | apply post_when; [intros _; preserve | intros _ ? H; exact H]
    | match goal with
      | |- post (bind _ _) ?P _ =>
          apply post_bind with (R := fun _ => P); [preserve | intros ?; preserve]
      | |- post (if ?b then _ else _) _ _ => destruct b; preserve
      | |- post (match ?x with _ => _ end) _ _ => destruct x; preserve
      end ].

Ltac skip :=
  match goal with
  | |- post (bind _ _) ?P _ =>
      apply post_bind with (R := fun _ => P); [preserve | intros ?]
  end.

Lemma post_weaken {A} (c : Step A) (P P' : MongoImport -> Prop) Q :
  (forall imp, P imp -> P' imp) -> post c P' Q -> post c P Q.
Proof. intros H Hc imp imp' a HP E. exact (Hc imp imp' a (H imp HP) E). Qed.

(** [if b { return e }], followed by [k]. *)
Lemma post_check {A} b e (k : Step A) (P : MongoImport -> Prop) Q :
  (b = false -> post k P Q) -> post (bind (when b (fail e)) (fun _ => k)) P Q.
Proof.
  intros H. destruct b; simpl.
  - intros imp imp' a _ E. discriminate.
  - apply post_bind with (R := fun _ => P); [apply post_ret; auto|intros _; auto].
Qed.

Lemma post_check_last b e (P : MongoImport -> Prop) Q :
  (b = false -> forall imp, P imp -> Q tt imp) -> post (when b (fail e)) P Q.
Proof.
  intros H. destruct b; simpl; [apply post_fail|apply post_ret; auto].
Qed.

(** The input options a validation lets through, [blanks] being
    [--ignoreBlanks]. *)
Definition consistent (io : InputOptionsT) (blanks : bool) : Prop :=
  (InputType io = CSV \/ InputType io = TSV \/ InputType io = JSON)
  /\ (InputType io = JSON ->
      HeaderLine io = false /\ Fields io = None /\ FieldFile io = None
      /\ blanks = false)
  /\ (InputType io <> JSON -> HeaderLine io = true ->
      Fields io = None /\ FieldFile io = None)
  /\ (InputType io <> JSON -> HeaderLine io = false ->
      (Fields io = None <-> FieldFile io <> None) /\ FieldFile io <> Some EmptyString).

Lemma ValidateSettings_input_post args io0 ib0 :
  post (Validate args)
    (fun imp => InputOptions imp = io0 /\ IgnoreBlanks (IngestOptions imp) = ib0)
    (fun _ imp =>
       Fields (InputOptions imp) = Fields io0
       /\ HeaderLine (InputOptions imp) = HeaderLine io0
       /\ FieldFile (InputOptions imp) = FieldFile io0
       /\ JSONArray (InputOptions imp) = JSONArray io0
       /\ IgnoreBlanks (IngestOptions imp) = ib0
       /\ InputType (InputOptions imp)
          = (if String.eqb (ToLower (InputType io0)) "" then JSON
             else ToLower (InputType io0))
       /\ consistent (InputOptions imp) ib0).
Proof.
  set (S := fun imp =>
              Fields (InputOptions imp) = Fields io0
              /\ HeaderLine (InputOptions imp) = HeaderLine io0
              /\ FieldFile (InputOptions imp) = FieldFile io0
              /\ JSONArray (InputOptions imp) = JSONArray io0
              /\ IgnoreBlanks (IngestOptions imp) = ib0).
  set (T := if String.eqb (ToLower (InputType io0)) "" then JSON
            else ToLower (InputType io0)).
  unfold ValidateSettings.
  do 4 skip.
  apply post_bind with
    (R := fun _ imp => S imp /\ InputType (InputOptions imp) = ToLower (InputType io0)).
  { apply post_modify. intros imp [H1 H2]. unfold S. simpl. rewrite H1. auto 10. }
  intros _.
  apply post_bind with
    (R := fun ty imp => S imp /\ InputType (InputOptions imp) = ToLower (InputType io0)
                        /\ ty = ToLower (InputType io0)).
  { apply post_gets. intros imp [H1 H2]. auto. }
  intros ty.
  apply post_bind with
    (R := fun _ imp => S imp /\ InputType (InputOptions imp) = T
                       /\ (T = CSV \/ T = TSV \/ T = JSON)).
  { destruct (String.eqb ty "") eqn:Ety.
    - apply post_modify. intros imp (H1 & H2 & H3). subst ty.
      unfold T. rewrite Ety. simpl. auto.
    - apply post_check_last. intros Hb imp (H1 & H2 & H3). subst ty.
      unfold T. rewrite Ety. split; [exact H1|]. split; [exact H2|].
      apply negb_false_iff in Hb.
      apply orb_true_iff in Hb. destruct Hb as [Hb|Hb].
      + apply orb_true_iff in Hb. destruct Hb as [Hb|Hb]; apply String.eqb_eq in Hb; auto.
      + apply String.eqb_eq in Hb. auto. }
  intros _.
  apply post_bind with
    (R := fun io imp => S imp /\ InputType (InputOptions imp) = T
                        /\ (T = CSV \/ T = TSV \/ T = JSON) /\ io = InputOptions imp).
  { apply post_gets. intros imp (H1 & H2 & H3). auto. }
  intros io.
  apply post_bind with
    (R := fun ib imp => S imp /\ InputType (InputOptions imp) = T
                        /\ (T = CSV \/ T = TSV \/ T = JSON) /\ io = InputOptions imp
                        /\ ib = ib0).
  { apply post_gets. intros imp ((H1 & H2 & H3 & H4 & H5) & H6 & H7 & H8).
    unfold S. auto 10. }
  intros ib.
  apply post_bind with
    (R := fun _ imp => S imp /\ InputType (InputOptions imp) = T
                       /\ consistent (InputOptions imp) ib0).
  { assert (Hfin : forall imp,
                (S imp /\ InputType (InputOptions imp) = T
                 /\ (T = CSV \/ T = TSV \/ T = JSON) /\ io = InputOptions imp
                 /\ ib = ib0) ->
                ((InputType io = JSON ->
                  HeaderLine io = false /\ Fields io = None /\ FieldFile io = None
                  /\ ib = false)
                 /\ (InputType io <> JSON -> HeaderLine io = true ->
                     Fields io = None /\ FieldFile io = None)
                 /\ (InputType io <> JSON -> HeaderLine io = false ->
                     (Fields io = None <-> FieldFile io <> None)
                     /\ FieldFile io <> Some EmptyString)) ->
                S imp /\ InputType (InputOptions imp) = T
                /\ consistent (InputOptions imp) ib0).
    { intros imp (H1 & H2 & H3 & H4 & H5) H. subst io ib.
      split; [exact H1|]. split; [exact H2|]. split; [rewrite H2; exact H3|exact H]. }
    destruct (String.eqb (InputType io) CSV || String.eqb (InputType io) TSV) eqn:Ety.
    - assert (Hn : InputType io <> JSON).
      { apply orb_true_iff in Ety. destruct Ety as [E|E]; apply String.eqb_eq in E;
          rewrite E; discriminate. }
      destruct (HeaderLine io) eqn:Eh; simpl negb; cbv iota.
      + apply post_check. intros Hf. apply post_check_last. intros Hff imp HP.
        apply Hfin; [exact HP|]. split; [contradiction|].
        split; [|discriminate]. intros _ _.
        destruct (Fields io); [discriminate|]. destruct (FieldFile io); [discriminate|].
        auto.
      + apply post_check. intros Hb1. apply post_check. intros Hb2.
        apply post_check_last. intros Hb3 imp HP.
        apply Hfin; [exact HP|]. split; [contradiction|].
        split; [discriminate|]. intros _ _.
        destruct (Fields io) as [f|], (FieldFile io) as [ff|]; simpl in *;
          try discriminate.
        * split; [split; [discriminate|intros H; contradiction]|discriminate].
        * split; [split; [discriminate|reflexivity]|].
          intros E. inversion E; subst ff. discriminate.
    - assert (Hj : forall imp, InputType (InputOptions imp) = T ->
                     (T = CSV \/ T = TSV \/ T = JSON) -> io = InputOptions imp ->
                     InputType io = JSON).
      { intros imp H2 H3 H4. subst io. rewrite H2.
        apply orb_false_iff in Ety. destruct Ety as [E1 E2].
        apply String.eqb_neq in E1, E2. rewrite H2 in E1, E2.
        destruct H3 as [H3|[H3|H3]]; [contradiction|contradiction|exact H3]. }
      apply post_check. intros Hb1. apply post_check. intros Hb2.
      apply post_check. intros Hb3. apply post_check_last. intros Hb4 imp HP.
      apply Hfin; [exact HP|].
      destruct HP as (H1 & H2 & H3 & H4 & H5).
      pose proof (Hj imp H2 H3 H4) as HJ.
      split; [|split; intros Hc; contradiction].
      intros _. destruct (Fields io); [discriminate|].
      destruct (FieldFile io); [discriminate|]. auto. }
  intros _.
  apply post_weaken with
    (P' := fun imp =>
       Fields (InputOptions imp) = Fields io0
       /\ HeaderLine (InputOptions imp) = HeaderLine io0
       /\ FieldFile (InputOptions imp) = FieldFile io0
       /\ JSONArray (InputOptions imp) = JSONArray io0
       /\ IgnoreBlanks (IngestOptions imp) = ib0
       /\ InputType (InputOptions imp) = T
       /\ consistent (InputOptions imp) ib0).
  { intros imp ((H1 & H2 & H3 & H4 & H5) & H6 & H7). auto 10. }
  preserve.
Qed.

(** X9: a validation that succeeds has lowered the input type, taken JSON
    when none was given, and let through only csv, tsv and json; the other
    input options are as they were given, and they are consistent: a JSON
    import has neither a header line, nor fields, nor a field file, nor
    [--ignoreBlanks]; a CSV or TSV import has either a header line and no
    fields, or exactly one of [--fields] and a non-empty [--fieldFile]. *)
Theorem ValidateSettings_accepts_consistent_input args imp imp' :
  ValidateSettings ValidateDBName validateFields ValidateCollectionName args imp
  = (imp', inr tt) ->
  InputType (InputOptions imp')
  = (if String.eqb (ToLower (InputType (InputOptions imp))) "" then JSON
     else ToLower (InputType (InputOptions imp)))
  /\ Fields (InputOptions imp') = Fields (InputOptions imp)
  /\ HeaderLine (InputOptions imp') = HeaderLine (InputOptions imp)
  /\ FieldFile (InputOptions imp') = FieldFile (InputOptions imp)
  /\ JSONArray (InputOptions imp') = JSONArray (InputOptions imp)
  /\ IgnoreBlanks (IngestOptions imp') = IgnoreBlanks (IngestOptions imp)
  /\ consistent (InputOptions imp') (IgnoreBlanks (IngestOptions imp')).
Proof.
  intros H.
  destruct (ValidateSettings_input_post args (InputOptions imp)
              (IgnoreBlanks (IngestOptions imp)) imp imp' tt (conj eq_refl eq_refl) H)
    as (H1 & H2 & H3 & H4 & H5 & H6 & H7).
  rewrite H5. auto 10.
Qed.

Definition tracks (t : ToolOptionsT) (f : string) : MongoImport -> Prop :=
  fun imp => ToolOptions imp = t /\ File (InputOptions imp) = f.

Lemma post_gets_eq {A C} (f : MongoImport -> A) (k : A -> Step C) v
      (P : MongoImport -> Prop) Q :
  (forall imp, P imp -> f imp = v) -> post (k v) P Q -> post (bind (gets f) k) P Q.
Proof.
  intros Hv Hk imp imp' c HP E. unfold bind, gets in E.
  rewrite (Hv imp HP) in E. exact (Hk imp imp' c HP E).
Qed.

Lemma post_orFail_then {A} prefix e (k : Step A) (P : MongoImport -> Prop) Q :
  (e = None -> post k P Q) -> post (bind (orFail prefix e) (fun _ => k)) P Q.
Proof.
  intros H. destruct e; simpl.
  - intros imp imp' a _ E. discriminate.
  - apply post_bind with (R := fun _ => P); [apply post_ret; auto|intros _; auto].
Qed.

Lemma ValidateSettings_tool_post args to0 file0 :
  let t1 := if String.eqb (DB to0) "" then set_DB "test" to0 else to0 in
  let t2 := if NumDecodingWorkers t1 <=? 0
            then set_NumDecodingWorkers (MaxProcs t1) t1 else t1 in
  let t3 := if BulkBufferSize t2 <=? 0 then set_BulkBufferSize 10000 t2 else t2 in
  let f1 := if String.eqb file0 ""
            then match args with a :: _ => a | [] => file0 end else file0 in
  let t4 := if String.eqb (Collection t3) "" then set_Collection (stem f1) t3 else t3 in
  post (Validate args) (tracks to0 file0)
    (fun _ imp =>
       tracks t4 f1 imp
       /\ ValidateDBName (DB t1) = None
       /\ ValidateCollectionName (Collection t4) = None
       /\ (1 <? Z.of_nat (List.length args)) = false
       /\ (negb (String.eqb file0 "") && negb (Z.of_nat (List.length args) =? 0)) = false).
Proof.
  intros t1 t2 t3 f1 t4. unfold ValidateSettings.
  apply post_gets_eq with (v := DB to0). { intros imp [H _]. rewrite H. reflexivity. }
  apply post_bind with (R := fun _ => tracks t1 file0).
  { unfold t1. destruct (String.eqb (DB to0) ""); simpl.
    - apply post_modify. intros imp [H1 H2]. split; simpl; congruence.
    - apply post_ret. auto. }
  intros _.
  apply post_gets_eq with (v := DB t1). { intros imp [H _]. rewrite H. reflexivity. }
  apply post_orFail_then. intros HDB.
  do 11 skip.
  apply post_gets_eq with (v := t1). { intros imp [H _]. exact H. }
  apply post_bind with (R := fun _ => tracks t2 file0).
  { unfold t2. destruct (NumDecodingWorkers t1 <=? 0); simpl.
    - apply post_modify. intros imp [H1 H2]. split; simpl; congruence.
    - apply post_ret. auto. }
  intros _.
  do 4 skip.
  apply post_gets_eq with (v := BulkBufferSize t2).
  { intros imp [H _]. rewrite H. reflexivity. }
  apply post_bind with (R := fun _ => tracks t3 file0).
  { unfold t3. destruct (BulkBufferSize t2 <=? 0); simpl.
    - apply post_modify. intros imp [H1 H2]. split; simpl; congruence.
    - apply post_ret. auto. }
  intros _.
  apply post_check. intros Hargs.
  apply post_gets_eq with (v := file0). { intros imp [_ H]. exact H. }
  apply post_check. intros Hboth.
  apply post_bind with (R := fun _ => tracks t3 f1).
  { unfold f1. destruct (String.eqb file0 ""); simpl.
    - destruct args as [|arg0 rest].
      + apply post_ret. auto.
      + apply post_modify. intros imp [H1 H2]. split; simpl; congruence.
    - apply post_ret. auto. }
  intros _.
  apply post_gets_eq with (v := Collection t3).
  { intros imp [H _]. rewrite H. reflexivity. }
  apply post_gets_eq with (v := f1). { intros imp [_ H]. exact H. }
  apply post_bind with (R := fun _ => tracks t4 f1).
  { unfold t4. destruct (String.eqb (Collection t3) ""); simpl.
    - apply post_modify. intros imp [H1 H2]. split; simpl; [|exact H2].
      rewrite H1. reflexivity.
    - apply post_ret. auto. }
  intros _.
  apply post_gets_eq with (v := Collection t4).
  { intros imp [H _]. rewrite H. reflexivity. }
  apply post_orFail. intros HC imp HP. auto.
Qed.

Lemma ValidateSettings_tool args imp imp' :
  Validate args imp = (imp', inr tt) ->
  DB (ToolOptions imp')
  = (if String.eqb (DB (ToolOptions imp)) "" then "test" else DB (ToolOptions imp))
  /\ NumDecodingWorkers (ToolOptions imp')
     = (if NumDecodingWorkers (ToolOptions imp) <=? 0 then MaxProcs (ToolOptions imp)
        else NumDecodingWorkers (ToolOptions imp))
  /\ BulkBufferSize (ToolOptions imp')
     = (if BulkBufferSize (ToolOptions imp) <=? 0 then 10000
        else BulkBufferSize (ToolOptions imp))
  /\ Host (ToolOptions imp') = Host (ToolOptions imp)
  /\ Port (ToolOptions imp') = Port (ToolOptions imp)
  /\ MaxProcs (ToolOptions imp') = MaxProcs (ToolOptions imp)
  /\ File (InputOptions imp')
     = (if String.eqb (File (InputOptions imp)) ""
        then match args with a :: _ => a | [] => File (InputOptions imp) end
        else File (InputOptions imp))
  /\ Collection (ToolOptions imp')
     = (if String.eqb (Collection (ToolOptions imp)) ""
        then stem (File (InputOptions imp')) else Collection (ToolOptions imp))
  /\ ValidateDBName (DB (ToolOptions imp')) = None
  /\ ValidateCollectionName (Collection (ToolOptions imp')) = None
  /\ (1 <? Z.of_nat (List.length args)) = false
  /\ (negb (String.eqb (File (InputOptions imp)) "")
      && negb (Z.of_nat (List.length args) =? 0)) = false.
Proof.
  intros H.
  pose proof (ValidateSettings_tool_post args (ToolOptions imp) (File (InputOptions imp))
                imp imp' tt (conj eq_refl eq_refl) H) as Hp.
  cbv zeta in Hp. destruct Hp as ([Ht Hf] & HDB & HC & Ha & Hb).
  rewrite Ht, Hf.
  split; [|split; [|split; [|split; [|split; [|split; [|split; [|split; [|split;
    [|split; [|split; [exact Ha|exact Hb]]]]]]]]]]].
  - destruct (String.eqb (DB (ToolOptions imp)) "");
      repeat match goal with |- context [if ?b then _ else _] => destruct b end;
      reflexivity.
  - destruct (String.eqb (DB (ToolOptions imp)) ""); simpl;
      destruct (NumDecodingWorkers (ToolOptions imp) <=? 0);
      repeat match goal with |- context [if ?b then _ else _] => destruct b end;
      reflexivity.
  - destruct (String.eqb (DB (ToolOptions imp)) ""); simpl;
      destruct (NumDecodingWorkers (ToolOptions imp) <=? 0); simpl;
      destruct (BulkBufferSize (ToolOptions imp) <=? 0);
      repeat match goal with |- context [if ?b then _ else _] => destruct b end;
      reflexivity.
  - repeat match goal with |- context [if ?b then _ else _] => destruct b end;
      reflexivity.
  - repeat match goal with |- context [if ?b then _ else _] => destruct b end;
      reflexivity.
  - repeat match goal with |- context [if ?b then _ else _] => destruct b end;
      reflexivity.
  - reflexivity.
  - destruct (String.eqb (DB (ToolOptions imp)) ""); simpl;
      destruct (NumDecodingWorkers (ToolOptions imp) <=? 0); simpl;
      destruct (BulkBufferSize (ToolOptions imp) <=? 0); simpl;
      destruct (String.eqb (Collection (ToolOptions imp)) ""); reflexivity.
  - destruct (String.eqb (DB (ToolOptions imp)) ""); simpl in *;
      repeat match goal with |- context [if ?b then _ else _] => destruct b end;
      exact HDB.
  - exact HC.
Qed.

(** X10: a validation that succeeds leaves a database name that
    [util.ValidateDBName] accepts, [test] when none was given, and a
    collection name that [util.ValidateCollectionName] accepts, the one
    given if any; the batch size is the one given if positive and 10000
    otherwise, so at least 1; the decoding workers are those given if
    positive and [MaxProcs] otherwise; host and port are as given. *)
Theorem ValidateSettings_accepts_a_valid_namespace args imp imp' :
  ValidateSettings ValidateDBName validateFields ValidateCollectionName args imp
  = (imp', inr tt) ->
  DB (ToolOptions imp')
  = (if String.eqb (DB (ToolOptions imp)) "" then "test" else DB (ToolOptions imp))
  /\ ValidateDBName (DB (ToolOptions imp')) = None
  /\ ValidateCollectionName (Collection (ToolOptions imp')) = None
  /\ (Collection (ToolOptions imp) <> EmptyString ->
      Collection (ToolOptions imp') = Collection (ToolOptions imp))
  /\ 1 <= BulkBufferSize (ToolOptions imp')
  /\ (0 < BulkBufferSize (ToolOptions imp) ->
      BulkBufferSize (ToolOptions imp') = BulkBufferSize (ToolOptions imp))
  /\ (BulkBufferSize (ToolOptions imp) <= 0 -> BulkBufferSize (ToolOptions imp') = 10000)
  /\ NumDecodingWorkers (ToolOptions imp')
     = (if NumDecodingWorkers (ToolOptions imp) <=? 0 then MaxProcs (ToolOptions imp)
        else NumDecodingWorkers (ToolOptions imp))
  /\ Host (ToolOptions imp') = Host (ToolOptions imp)
  /\ Port (ToolOptions imp') = Port (ToolOptions imp).
Proof.
  intros H.
  destruct (ValidateSettings_tool args imp imp' H)
    as (H1 & H2 & H3 & H4 & H5 & H6 & H7 & H8 & H9 & H10 & _).
  split; [exact H1|]. split; [exact H9|]. split; [exact H10|].
  split. { intros Hne. rewrite H8. apply String.eqb_neq in Hne. rewrite Hne. reflexivity. }
  rewrite H3.
  destruct (Z.leb_spec (BulkBufferSize (ToolOptions imp)) 0) as [Hle|Hgt].
  - split; [lia|]. split; [lia|]. split; [auto|]. auto.
  - split; [lia|]. split; [auto|]. split; [lia|]. auto.
Qed.

(** X11: a validation that succeeds was given at most one positional
    argument, and not both [--file] and a positional argument; the file is
    the positional argument if there is one.  When no collection was given,
    the collection is named after the file: its base name up to the last
    dot, the whole base name when it has no dot, and the empty name when
    there is no file. *)
Theorem ValidateSettings_names_the_collection_after_the_file args imp imp' :
  ValidateSettings ValidateDBName validateFields ValidateCollectionName args imp
  = (imp', inr tt) ->
  (List.length args <= 1)%nat
  /\ (File (InputOptions imp) = EmptyString \/ args = [])
  /\ File (InputOptions imp')
     = match args with a :: _ => a | [] => File (InputOptions imp) end
  /\ (Collection (ToolOptions imp) = EmptyString ->
      (forall dir name ext,
          File (InputOptions imp') = (dir ++ name ++ "." ++ ext)%string ->
          dir = EmptyString \/ (exists d, dir = (d ++ "/")%string) ->
          has "/" name = false -> has "/" ext = false -> has "." ext = false ->
          Collection (ToolOptions imp') = name)
      /\ (forall dir name,
             File (InputOptions imp') = (dir ++ name)%string ->
             dir = EmptyString \/ (exists d, dir = (d ++ "/")%string) ->
             name <> EmptyString -> has "/" name = false -> has "." name = false ->
             Collection (ToolOptions imp') = name)
      /\ (File (InputOptions imp') = EmptyString ->
          Collection (ToolOptions imp') = EmptyString)).
Proof.
  intros H.
  destruct (ValidateSettings_tool args imp imp' H)
    as (_ & _ & _ & _ & _ & _ & H7 & H8 & _ & _ & Ha & Hb).
  apply Z.ltb_ge in Ha.
  assert (Hsrc : File (InputOptions imp) = EmptyString \/ args = []).
  { apply andb_false_iff in Hb. destruct Hb as [Hb|Hb]; apply negb_false_iff in Hb.
    - left. apply String.eqb_eq. exact Hb.
    - right. apply Z.eqb_eq in Hb. destruct args; [reflexivity|simpl in Hb; lia]. }
  split; [lia|]. split; [exact Hsrc|].
  split.
  { rewrite H7. destruct (String.eqb_spec (File (InputOptions imp)) "") as [E|E];
      [reflexivity|].
    destruct Hsrc as [Hs|Hs]; [contradiction|]. rewrite Hs. reflexivity. }
  intros Hc. rewrite Hc in H8. simpl in H8. rewrite H8.
  split; [|split].
  - intros dir name ext Hf Hdir Hn He Hd. rewrite Hf.
    apply stem_with_extension; assumption.
  - intros dir name Hf Hdir Hne Hn Hd. rewrite Hf.
    apply stem_without_extension; assumption.
  - intros Hf. rewrite Hf. reflexivity.
Qed.

End SettingsFacts.

(** ** One worker upserts the input in its order *)

(** The collection and the document of a write of one document. *)
Definition written (r : Request) : option (mgoCollection * D) :=
  match r with
  | ReqInsert c doc => Some (c, doc)
  | ReqUpsert c _ doc => Some (c, doc)
  | _ => None
  end.

Section UpsertOrderFacts.

Import mongoimport.

Variable Store : Type.
Variable exec : Request -> Store -> Reply * Store.
Variable Marshal : D -> error + list byte.
Variable BuildWriteConcern : string -> NodeType -> error + option Safe.
Variable removeBlankFields : D -> D.
Context {B : Type} {BI : db.BulkInserter Store B}.
Variable newBulk : mgoCollection -> B.

Notation step :=
  (mongoimport.step Store exec Marshal BuildWriteConcern removeBlankFields newBulk).
Notation run :=
  (mongoimport.run Store exec Marshal BuildWriteConcern removeBlankFields newBulk).
Notation Pipeline := (@mongoimport.Pipeline Store B).

Implicit Types (p : Pipeline) (a : Action) (i : nat).

Local Arguments finish : simpl never.

Variable imp : MongoImport.
Variable w0 : db.World Store.

(** What the worker writes for a document taken off the channel. *)
Definition target (document : D) : option (mgoCollection * D) :=
  Some (mkCollection (DB (ToolOptions imp)) (Collection (ToolOptions imp)),
        if ignoreBlanks imp then removeBlankFields document else document).

Lemma upserter_Insert_wire (imp' : MongoImport) up document (w : db.World Store) :
  exists r,
    db.wire (snd (upserter_Insert Store exec imp' up document w)) = db.wire w ++ [r]
    /\ written r = Some (up_collection up, document).
Proof.
  unfold upserter_Insert, db.send.
  destruct (constructUpsertDocument _ _) as [sel|];
    destruct (exec _ (db.store w)) as [rep s']; simpl; eexists; split; reflexivity.
Qed.

(** The state of the only worker against the documents [taken] so far. *)
Definition upserting p (taken : list D) : Prop :=
  (exists n t, importer p = set_insertionCount n (set_Tomb t imp))
  /\ errors_agree Store (Tomb imp) p
  /\ (exists sent,
         db.wire (world p) = db.wire w0 ++ sent
         /\ map written sent = map target taken)
  /\ exists g,
      workers p = [g]
      /\ match g with
         | Spawned => taken = []
         | Looping (Upserter up) =>
             up_collection up
             = mkCollection (DB (ToolOptions imp)) (Collection (ToolOptions imp))
         | Looping (Buffered _) => False
         | Finished None => readDocs p = [] /\ closed p = true
         | Finished (Some _) => True
         end.

Hypothesis alive : dying (Tomb imp) = false.
Hypothesis upserts : Upsert (IngestOptions imp) = true.

Lemma step_upserting a p p' taken :
  upserting p taken ->
  step a p = Some p' ->
  exists taken',
    upserting p' taken'
    /\ taken' ++ readDocs p' = taken ++ readDocs p ++ sentDocs [a].
Proof.
  intros (Himp & Herr & Hsent & g & Hw & Hg) Hs.
  pose proof (step_errors_agree Store exec Marshal BuildWriteConcern removeBlankFields
                newBulk (Tomb imp) a p p' alive Hs Herr) as Herr'.
  destruct Himp as (n & t & Himp).
  destruct a as [document|err|i|i|i]; unfold mongoimport.step in Hs.
  - (* Send *)
    destruct (closed p) eqn:Ec; simpl in Hs; [discriminate|].
    destruct (Z.of_nat (List.length (readDocs p)) <? workerBufferSize); [|discriminate].
    apply Some_eq in Hs. subst p'. exists taken. simpl.
    split; [|rewrite app_assoc; reflexivity].
    split; [exists n, t; exact Himp|]. split; [exact Herr'|]. split; [exact Hsent|].
    exists g. split; [exact Hw|].
    destruct g as [|[up|bb]|[e|]]; try exact Hg.
    destruct Hg as (_ & Hc). congruence.
  - (* Return *)
    destruct (closed p) eqn:Ec; [discriminate|].
    apply Some_eq in Hs. subst p'. exists taken. simpl.
    split; [|rewrite app_nil_r; reflexivity].
    split; [exists n, t; exact Himp|]. split; [exact Herr'|]. split; [exact Hsent|].
    exists g. split; [exact Hw|].
    destruct g as [|[up|bb]|[e|]]; try exact Hg.
    destruct Hg as (_ & Hc). congruence.
  - (* Start *)
    rewrite Hw in Hs. destruct i as [|i]; [|destruct i; discriminate].
    simpl in Hs. destruct g as [|ins|e]; try discriminate.
    subst taken.
    exists []. split.
    2:{ destruct (startWorker _ _ _ _) as [err|inserter]; apply Some_eq in Hs; subst p'.
        - destruct (finish_spec Store 0 (Some err) p) as (_ & _ & H3 & _).
          rewrite H3, app_nil_r. reflexivity.
        - simpl. rewrite app_nil_r. reflexivity. }
    unfold startWorker in Hs. rewrite Himp in Hs. simpl in Hs.
    rewrite upserts in Hs.
    destruct (GetSession (SessionProvider imp)) as [err|session].
    + apply Some_eq in Hs. subst p'.
      destruct (finish_spec Store 0 (Some (Errorf "error connecting to mongod: " err)) p)
        as (H1 & H2 & _ & _ & _ & _).
      split; [|split; [exact Herr'|split]].
      * exact (finish_keeps_options Store imp _ _ _ n t Himp).
      * rewrite H2. exact Hsent.
      * eexists. rewrite H1, Hw. simpl. split; [reflexivity|exact I].
    + unfold configureSession in Hs. simpl in Hs.
      destruct (BuildWriteConcern _ _) as [err|safety]; apply Some_eq in Hs; subst p'.
      * match goal with |- context [finish 0 ?e p] =>
          destruct (finish_spec Store 0 e p) as (H1 & H2 & _) end.
        split; [|split; [exact Herr'|split]].
        -- exact (finish_keeps_options Store imp _ _ _ n t Himp).
        -- rewrite H2. exact Hsent.
        -- eexists. rewrite H1, Hw. simpl. split; [reflexivity|exact I].
      * split; [|split; [exact Herr'|split]].
        -- exists n, t. simpl. exact Himp.
        -- exact Hsent.
        -- eexists. unfold set_worker. simpl. rewrite Hw. simpl.
           split; reflexivity.
  - (* Recv *)
    rewrite Hw in Hs. destruct i as [|i]; [|destruct i; discriminate].
    simpl nth_error in Hs. destruct g as [|[up|bb]|e]; try discriminate; [|contradiction].
    destruct Hsent as (sent & Hwire & Hmap).
    destruct (readDocs p) as [|document rest] eqn:Eq.
    + (* the channel is closed and drained *)
      destruct (closed p) eqn:Ec; [|discriminate].
      simpl in Hs. apply Some_eq in Hs. subst p'.
      exists taken.
      match goal with |- context [finish 0 ?e ?q] =>
        destruct (finish_spec Store 0 e q) as (H1 & H2 & H3 & _);
        destruct (finish_channel Store 0 e q) as (H5 & _);
        set (res := e) in * end.
      split; [|rewrite H3; simpl; rewrite Eq; reflexivity].
      split; [|split; [exact Herr'|split]].
      * apply (finish_keeps_options Store imp _ _ _ n t). exact Himp.
      * rewrite H2. simpl. exists sent. auto.
      * eexists. split; [rewrite H1; simpl; rewrite Hw; reflexivity|].
        destruct res; [exact I|].
        rewrite H3, H5. simpl. rewrite Eq, Ec. auto.
    + (* a document is taken *)
      simpl flushInserter_Insert in Hs. rewrite Himp in Hs.
      change (ignoreBlanks (set_insertionCount n (set_Tomb t imp)))
        with (ignoreBlanks imp) in Hs.
      set (doc := if ignoreBlanks imp then removeBlankFields document else document) in *.
      destruct (upserter_Insert_wire (set_insertionCount n (set_Tomb t imp)) up doc (world p))
        as (r & Hr & Hwr).
      destruct (upserter_Insert Store exec _ up doc (world p)) as [e w'] eqn:EI.
      simpl in Hr. cbv beta iota zeta in Hs.
      exists (taken ++ [document]).
      assert (Hsent' : exists sent',
                 db.wire w' = db.wire w0 ++ sent'
                 /\ map written sent' = map target (taken ++ [document])).
      { exists (sent ++ [r]). rewrite Hr, Hwire, <- app_assoc. split; [reflexivity|].
        rewrite !map_app, Hmap. simpl. rewrite Hwr, Hg. reflexivity. }
      destruct (filterIngestError _ e) as [err|]; apply Some_eq in Hs; subst p'.
      * match goal with |- context [finish 0 ?e ?q] =>
          destruct (finish_spec Store 0 e q) as (H1 & H2 & H3 & _) end.
        split; [|rewrite H3; simpl; rewrite <- app_assoc, app_nil_r; reflexivity].
        split; [|split; [exact Herr'|split]].
        -- apply (finish_keeps_options Store imp _ _ _ n t). exact Himp.
        -- rewrite H2. simpl. exact Hsent'.
        -- eexists. rewrite H1. simpl. rewrite Hw. simpl. split; [reflexivity|exact I].
      * simpl. split; [|rewrite <- app_assoc, app_nil_r; reflexivity].
        split; [|split; [exact Herr'|split]].
        -- rewrite Himp. eexists _, _. reflexivity.
        -- exact Hsent'.
        -- eexists. unfold set_worker. simpl. rewrite Hw. simpl.
           split; [reflexivity|exact Hg].
  - (* Die: the tomb is alive while the only worker is in its loop *)
    rewrite Hw in Hs. destruct i as [|i]; [|destruct i; discriminate].
    simpl nth_error in Hs. destruct g as [|ins|e]; try discriminate.
    destruct Herr as (H1 & H2 & _).
    assert (Hr : retErr p = None).
    { destruct (retErr p) as [e|] eqn:E; [|reflexivity].
      destruct (H2 e eq_refl) as (_ & j & Hj). rewrite Hw in Hj.
      destruct j as [|j]; [discriminate|destruct j; discriminate]. }
    rewrite (H1 Hr), alive in Hs. discriminate.
Qed.

Lemma run_upserting sched : forall p p' taken,
  upserting p taken ->
  run sched p = Some p' ->
  exists taken',
    upserting p' taken'
    /\ taken' ++ readDocs p' = taken ++ readDocs p ++ sentDocs sched.
Proof.
  induction sched as [|a rest IH]; intros p p' taken Hd Hr; simpl in Hr.
  - apply Some_eq in Hr. subst p'. exists taken. rewrite app_nil_r. auto.
  - destruct (step a p) as [p1|] eqn:Hs; [|discriminate].
    destruct (step_upserting a p p1 taken Hd Hs) as (t1 & Hd1 & Heq).
    destruct (IH p1 p' t1 Hd1 Hr) as (t2 & Hd2 & Heq2).
    exists t2. split; [exact Hd2|].
    rewrite Heq2, app_assoc, Heq, <- !app_assoc. f_equal. f_equal.
    destruct a; reflexivity.
Qed.

(** X12: in upsert mode with its one worker, the server is sent exactly
    one write per record taken off the channel, in the order of the input,
    each to the collection of the import and carrying the record (blank
    fields removed where asked for), as an upsert or, without a selector, an
    insert; this holds at every point of a run, also when the import stops
    on an error, and nothing is batched.  When [ingestDocuments] returns nil
    the channel is empty, so every record of the input has been written. *)
Theorem one_worker_upserts_the_input_in_order (sched : list Action) p :
  numInsertionWorkers imp = 1 ->
  run sched (begin imp w0) = Some p ->
  exists sent taken,
    db.wire (world p) = db.wire w0 ++ sent
    /\ map written sent = map target taken
    /\ sentDocs sched = taken ++ readDocs p
    /\ (ingestDocuments p = Some None -> readDocs p = []).
Proof.
  intros H1 Hr.
  assert (H0 : upserting (begin imp w0) []).
  { split; [exists (insertionCount imp), (Tomb imp); destruct imp; reflexivity|].
    split; [apply (begin_errors_agree Store)|].
    split; [exists []; simpl; rewrite app_nil_r; auto|].
    exists Spawned. unfold begin, spawn. rewrite H1. simpl. auto. }
  destruct (run_upserting sched _ p [] H0 Hr)
    as (taken & (_ & (_ & _ & H3) & (sent & Hwire & Hmap) & g & Hw & Hg) & Heq).
  simpl in Heq. exists sent, taken.
  split; [exact Hwire|]. split; [exact Hmap|]. split; [symmetry; exact Heq|].
  intros Hi. unfold ingestDocuments in Hi. rewrite Hw in Hi. simpl in Hi.
  destruct g as [|ins|[e|]]; try discriminate.
  - exfalso. apply Some_eq in Hi. apply (H3 0%nat e); [rewrite Hw; reflexivity|exact Hi].
  - exact (proj1 Hg).
Qed.

End UpsertOrderFacts.

(** ** The collection is dropped before anything is written *)

Definition isDrop (r : Request) : bool :=
  match r with
  | ReqDrop _ => true
  | _ => false
  end.

Section DropFacts.

Import mongoimport.

Variable Store : Type.
Variable exec : Request -> Store -> Reply * Store.
Variable Marshal : D -> error + list byte.
Variable BuildWriteConcern : string -> NodeType -> error + option Safe.
Variable removeBlankFields : D -> D.
Variable ErrNsNotFound : string.
Context {B : Type} {BI : db.BulkInserter Store B} {BS : db.BulkInserterSpec Store B}.
Variable newBulk : mgoCollection -> B.

Notation step :=
  (mongoimport.step Store exec Marshal BuildWriteConcern removeBlankFields newBulk).
Notation run :=
  (mongoimport.run Store exec Marshal BuildWriteConcern removeBlankFields newBulk).
Notation importDocuments :=
  (mongoimport.importDocuments Store exec Marshal BuildWriteConcern removeBlankFields
     ErrNsNotFound newBulk).
Notation Pipeline := (@mongoimport.Pipeline Store B).

Implicit Types (p : Pipeline) (a : Action) (i : nat).

Local Arguments finish : simpl never.

(** The requests of the workers are writes. *)
Lemma step_writes a p p' :
  step a p = Some p' ->
  exists sent,
    db.wire (world p') = db.wire (world p) ++ sent
    /\ Forall (fun r => isDrop r = false) sent.
Proof.
  assert (Hnone : forall q : Pipeline, world q = world p ->
            exists sent,
              db.wire (world q) = db.wire (world p) ++ sent
              /\ Forall (fun r => isDrop r = false) sent).
  { intros q Hq. exists []. rewrite Hq, app_nil_r. auto. }
  assert (Hcalls : forall cs bb,
            exists sent,
              db.wire (snd (db.calls Store Marshal cs bb (world p)))
              = db.wire (world p) ++ sent
              /\ Forall (fun r => isDrop r = false) sent).
  { intros cs bb.
    apply (calls_requests Store Marshal (fun _ => True) (fun r => isDrop r = false));
      auto.
    intros b _. pose proof (@db.request_batch Store B BI BS b) as Hb.
    destruct (db.request Store b); try discriminate; reflexivity. }
  destruct a as [document|err|i|i|i]; intros H; unfold mongoimport.step in H.
  - destruct (negb (closed p) && _); [|discriminate].
    apply Some_eq in H. subst p'. apply Hnone. reflexivity.
  - destruct (closed p); [discriminate|].
    apply Some_eq in H. subst p'. apply Hnone. reflexivity.
  - destruct (nth_error (workers p) i) as [[| |]|]; try discriminate.
    destruct (startWorker _ _ _ _) as [err|inserter]; apply Some_eq in H; subst p'.
    + apply Hnone. apply (finish_spec Store i (Some err) p).
    + apply Hnone. reflexivity.
  - destruct (nth_error (workers p) i) as [[|inserter|]|]; try discriminate.
    destruct (readDocs p) as [|document rest].
    + destruct (closed p); [|discriminate].
      destruct inserter as [up|bb].
      * simpl in H. apply Some_eq in H. subst p'. apply Hnone.
        match goal with |- context [finish i ?e ?q] =>
          rewrite (proj1 (proj2 (finish_spec Store i e q))) end.
        reflexivity.
      * destruct (Hcalls [db.DoFlush] bb) as (sent & Hw & Hs).
        simpl in H, Hw. destruct (db.Flush Store bb (world p)) as [[e bb'] w'].
        simpl in Hw. cbv beta iota zeta in H.
        apply Some_eq in H. subst p'. exists sent. split; [|exact Hs].
        match goal with |- context [finish i ?e ?q] =>
          rewrite (proj1 (proj2 (finish_spec Store i e q))) end.
        exact Hw.
    + set (doc := if ignoreBlanks (importer p) then removeBlankFields document
                  else document) in *.
      assert (Hins : exists sent,
                 db.wire (snd (flushInserter_Insert Store exec Marshal (importer p)
                                 inserter doc (world p)))
                 = db.wire (world p) ++ sent
                 /\ Forall (fun r => isDrop r = false) sent).
      { destruct inserter as [up|bb]; simpl.
        - destruct (upserter_Insert_wire Store exec (importer p) up doc (world p))
            as (r & Hr & Hwr).
          destruct (upserter_Insert Store exec (importer p) up doc (world p)) as [e w'].
          simpl in *. exists [r]. split; [exact Hr|].
          constructor; [|constructor]. destruct r; try discriminate; reflexivity.
        - destruct (Hcalls [db.DoInsert doc] bb) as (sent & Hw & Hs).
          simpl in Hw. destruct (db.Insert Store Marshal doc bb (world p)) as [[e bb'] w'].
          simpl in *. exists sent. auto. }
      destruct (flushInserter_Insert _ _ _ _ _ _ _) as [[e ins'] w'].
      cbv beta iota zeta in H. destruct Hins as (sent & Hw & Hs). simpl in Hw.
      exists sent. split; [|exact Hs].
      destruct (filterIngestError _ e) as [err|]; apply Some_eq in H; subst p'.
      * match goal with |- context [finish i ?e ?q] =>
          rewrite (proj1 (proj2 (finish_spec Store i e q))) end.
        exact Hw.
      * exact Hw.
  - destruct (nth_error (workers p) i) as [[|inserter|]|]; try discriminate.
    destruct (dying (Tomb (importer p))); [|discriminate].
    apply Some_eq in H. subst p'. apply Hnone. apply (finish_spec Store i None p).
Qed.

Lemma run_writes sched : forall p p',
  run sched p = Some p' ->
  exists sent,
    db.wire (world p') = db.wire (world p) ++ sent
    /\ Forall (fun r => isDrop r = false) sent.
Proof.
  induction sched as [|a rest IH]; intros p p' Hr; simpl in Hr.
  - apply Some_eq in Hr. subst p'. exists []. rewrite app_nil_r. auto.
  - destruct (step a p) as [p1|] eqn:Hs; [|discriminate].
    destruct (step_writes a p p1 Hs) as (s1 & H1 & F1).
    destruct (IH p1 p' Hr) as (s2 & H2 & F2).
    exists (s1 ++ s2). rewrite H2, H1, app_assoc. split; [reflexivity|].
    apply Forall_app. auto.
Qed.

Lemma collect_world p first n err (w' : db.World Store) :
  collect p first = Some (n, err, w') -> w' = world p.
Proof.
  unfold collect. destruct (streamed p); [|discriminate].
  destruct (ingestDocuments p); [|discriminate].
  destruct (channelQuorumError _ _); [|discriminate].
  intros H. inversion H. reflexivity.
Qed.

(** X13: [importDocuments] sends nothing before the session, the node type
    and the write concern have been obtained: when one of them fails it
    returns a count of 0 and the error, wrapped as the code says, and the
    server has seen nothing.  Otherwise the drop of the collection, if asked
    for, is the first request sent and the only drop; everything after it is
    a write, and when the drop fails with an error other than [ns not found]
    nothing follows it. *)
Theorem importDocuments_drops_before_it_writes
        (imp : MongoImport) (w : db.World Store) (sched : list Action) (first : bool)
        n err (w' : db.World Store) :
  importDocuments imp w sched first = Some (n, err, w') ->
  let collection := mkCollection (DB (ToolOptions imp)) (Collection (ToolOptions imp)) in
  (forall e, GetSession (SessionProvider imp) = inl e ->
     n = 0 /\ err = Some e /\ w' = w)
  /\ (forall s e, GetSession (SessionProvider imp) = inr s ->
        GetNodeType (SessionProvider imp) = inl e ->
        n = 0 /\ err = Some (Errorf "error checking connected node type: " e) /\ w' = w)
  /\ (forall s nt e, GetSession (SessionProvider imp) = inr s ->
        GetNodeType (SessionProvider imp) = inr nt ->
        BuildWriteConcern (WriteConcern (IngestOptions imp)) nt = inl e ->
        n = 0
        /\ err = Some (Errorf "error configuring session: "
                         (Errorf "write concern error: " e))
        /\ w' = w)
  /\ (forall s nt safety, GetSession (SessionProvider imp) = inr s ->
        GetNodeType (SessionProvider imp) = inr nt ->
        BuildWriteConcern (WriteConcern (IngestOptions imp)) nt = inr safety ->
        exists sent,
          db.wire w'
          = db.wire w
            ++ (if Drop (IngestOptions imp) then [ReqDrop collection] else [])
            ++ sent
          /\ Forall (fun r => isDrop r = false) sent
          /\ (forall e, Drop (IngestOptions imp) = true ->
                reply_err (fst (exec (ReqDrop collection) (db.store w))) = Some e ->
                Error e <> ErrNsNotFound ->
                sent = [] /\ n = 0 /\ err = Some e)).
Proof.
  intros H collection. unfold mongoimport.importDocuments in H.
  destruct (GetSession (SessionProvider imp)) as [e1|session].
  { inversion H; subst. split; [intros e E; inversion E; auto|].
    split; [intros; discriminate|]. split; intros; discriminate. }
  split; [intros; discriminate|].
  destruct (GetNodeType (SessionProvider imp)) as [e2|nt].
  { inversion H; subst. split; [intros s e _ E; inversion E; auto|].
    split; intros; discriminate. }
  split; [intros; discriminate|].
  unfold configureSession in H. simpl in H.
  destruct (BuildWriteConcern (WriteConcern (IngestOptions imp)) nt)
    as [e3|safety] eqn:EB.
  { inversion H; subst. split; [intros s nt' e _ E1 E2|intros s nt' sf _ E1 E2].
    - inversion E1; subst nt'. rewrite EB in E2. inversion E2; auto.
    - inversion E1; subst nt'. rewrite EB in E2. discriminate. }
  split. { intros s nt' e _ E1 E2. inversion E1; subst nt'. rewrite EB in E2. discriminate. }
  intros _ _ _ _ _ _.
  fold collection in H.
  destruct (Drop (IngestOptions imp)) eqn:ED.
  - unfold db.send in H.
    destruct (exec (ReqDrop collection) (db.store w)) as [rep s'] eqn:EX.
    simpl.
    destruct (reply_err rep) as [e|] eqn:ER.
    + destruct (String.eqb_spec (Error e) ErrNsNotFound) as [En|En]; simpl in H.
      * destruct (run sched _) as [p|] eqn:Hr; [|discriminate].
        destruct (run_writes sched _ p Hr) as (sent & Hw & Hs).
        rewrite (collect_world p first n err w' H), Hw. simpl.
        exists sent. rewrite <- app_assoc. split; [reflexivity|]. split; [exact Hs|].
        intros e' _ E Hne. inversion E; subst e'. contradiction.
      * inversion H; subst. simpl. exists []. split; [reflexivity|].
        split; [constructor|]. intros e' _ E _. inversion E; auto.
    + destruct (run sched _) as [p|] eqn:Hr; [|discriminate].
      destruct (run_writes sched _ p Hr) as (sent & Hw & Hs).
      rewrite (collect_world p first n err w' H), Hw. simpl.
      exists sent. rewrite <- app_assoc. split; [reflexivity|]. split; [exact Hs|].
      intros e' _ E. discriminate.
  - destruct (run sched _) as [p|] eqn:Hr; [|discriminate].
    destruct (run_writes sched _ p Hr) as (sent & Hw & Hs).
    rewrite (collect_world p first n err w' H), Hw. simpl.
    exists sent. split; [reflexivity|]. split; [exact Hs|]. intros; discriminate.
Qed.

End DropFacts.

(** ** The count of a successful import *)

Section CountFacts.

Import mongoimport.

Variable Store : Type.
Variable exec : Request -> Store -> Reply * Store.
Variable Marshal : D -> error + list byte.
Variable BuildWriteConcern : string -> NodeType -> error + option Safe.
Variable removeBlankFields : D -> D.
Context {B : Type} {BI : db.BulkInserter Store B}.
Variable newBulk : mgoCollection -> B.

Notation step :=
  (mongoimport.step Store exec Marshal BuildWriteConcern removeBlankFields newBulk).
Notation run :=
  (mongoimport.run Store exec Marshal BuildWriteConcern removeBlankFields newBulk).
Notation Pipeline := (@mongoimport.Pipeline Store B).

Implicit Types (p : Pipeline) (a : Action) (i : nat).

Local Arguments finish : simpl never.

(** While no worker has returned an error, every record sent is counted
    or still in the channel, and a worker has returned only after the
    channel was closed and drained. *)
Definition counting (k : nat) p : Prop :=
  retErr p = None ->
  0 <= insertionCount (importer p)
  /\ insertionCount (importer p) + Z.of_nat (List.length (readDocs p)) = Z.of_nat k
  /\ (forall i, nth_error (workers p) i = Some (Finished None) ->
        readDocs p = [] /\ closed p = true).

Lemma finish_error i e p : retErr (finish i (Some e) p) <> None.
Proof.
  destruct (finish_spec Store i (Some e) p) as (_ & _ & _ & _ & H & _).
  rewrite H. destruct (retErr p); discriminate.
Qed.

Lemma finish_nil i p :
  retErr (finish i None p) = retErr p
  /\ workers (finish i None p) = update i (Finished None) (workers p)
  /\ readDocs (finish i None p) = readDocs p
  /\ closed (finish i None p) = closed p
  /\ insertionCount (importer (finish i None p)) = insertionCount (importer p).
Proof.
  destruct (finish_spec Store i None p) as (H1 & _ & H3 & H4 & H5 & _).
  destruct (finish_channel Store i None p) as (H6 & _).
  rewrite H5. destruct (retErr p); auto.
Qed.

Lemma step_counting (t0 : TombT) a p p' k :
  dying t0 = false -> errors_agree Store t0 p ->
  Z.of_nat k < 2 ^ 64 - 1 ->
  counting k p ->
  step a p = Some p' ->
  counting (k + List.length (sentDocs [a])) p'.
Proof.
  intros Halive (Ht & _ & _) Hk Hc Hs.
  destruct a as [document|err|i|i|i]; unfold mongoimport.step in Hs.
  - (* Send *)
    destruct (closed p) eqn:Ec; simpl in Hs; [discriminate|].
    destruct (Z.of_nat (List.length (readDocs p)) <? workerBufferSize); [|discriminate].
    apply Some_eq in Hs. subst p'. intros Hr. simpl in Hr.
    destruct (Hc Hr) as (H0 & H1 & H2). simpl. split.
    + exact H0.
    + split; [rewrite List.length_app; simpl; lia|].
      intros i Hi. destruct (H2 i Hi) as (_ & Hx). congruence.
  - (* Return *)
    destruct (closed p) eqn:Ec; [discriminate|].
    apply Some_eq in Hs. subst p'. intros Hr. simpl in Hr.
    destruct (Hc Hr) as (H0 & H1 & H2). simpl. split; [exact H0|]. split.
    + rewrite Nat.add_0_r. exact H1.
    + intros i Hi. destruct (H2 i Hi) as (_ & Hx). congruence.
  - (* Start *)
    destruct (nth_error (workers p) i) as [[| |]|] eqn:Ei; try discriminate.
    destruct (startWorker _ _ _ _) as [err|inserter]; apply Some_eq in Hs; subst p'.
    + intros Hr. exfalso. exact (finish_error i err p Hr).
    + intros Hr. simpl in Hr. destruct (Hc Hr) as (H0 & H1 & H2). simpl.
      split; [exact H0|]. split.
      * rewrite Nat.add_0_r. exact H1.
      * intros j Hj. apply nth_error_update_inv in Hj.
        destruct Hj as [[_ Hx]|[_ Hj]]; [discriminate|exact (H2 j Hj)].
  - (* Recv *)
    destruct (nth_error (workers p) i) as [[|inserter|]|] eqn:Ei; try discriminate.
    destruct (readDocs p) as [|document rest] eqn:Eq.
    + destruct (closed p) eqn:Ec; [|discriminate].
      destruct (flushInserter_Flush _ _ _) as [[e ins'] w'].
      apply Some_eq in Hs. subst p'.
      match goal with |- context [finish i ?e ?q] =>
        set (res := e); set (q0 := q) end.
      destruct res as [err|].
      * intros Hr. exfalso. exact (finish_error i err q0 Hr).
      * destruct (finish_nil i q0) as (F1 & F2 & F3 & F4 & F5).
        intros Hr. rewrite F1 in Hr. simpl in Hr. destruct (Hc Hr) as (H0 & H1 & H2).
        rewrite F3, F4, F5. simpl. rewrite Eq, Ec. split; [exact H0|]. split; [|auto].
        rewrite Nat.add_0_r. rewrite Eq in H1. exact H1.
    + destruct (flushInserter_Insert _ _ _ _ _ _ _) as [[e ins'] w'].
      cbv beta iota zeta in Hs.
      destruct (filterIngestError _ e) as [err|]; apply Some_eq in Hs; subst p'.
      * intros Hr. exfalso. exact (finish_error i err _ Hr).
      * intros Hr. simpl in Hr. destruct (Hc Hr) as (H0 & H1 & H2). simpl.
        rewrite Eq in H1. simpl List.length in H1.
        assert (Hadd : GoInt.addUint64 (insertionCount (importer p)) 1
                       = insertionCount (importer p) + 1).
        { unfold GoInt.addUint64. apply Z.mod_small.
          change (2 ^ 64) with 18446744073709551616 in *. lia. }
        rewrite Hadd. split; [lia|]. split.
        -- rewrite Nat.add_0_r. lia.
        -- intros j Hj. apply nth_error_update_inv in Hj.
           destruct Hj as [[_ Hx]|[_ Hj]]; [discriminate|].
           destruct (H2 j Hj) as (Hx & _). congruence.
  - (* Die *)
    destruct (nth_error (workers p) i) as [[|inserter|]|] eqn:Ei; try discriminate.
    destruct (dying (Tomb (importer p))) eqn:Ed; [|discriminate].
    apply Some_eq in Hs. subst p'.
    destruct (finish_nil i p) as (F1 & _).
    intros Hr. rewrite F1 in Hr. rewrite (Ht Hr) in Ed. congruence.
Qed.

Lemma step_length a p p' :
  step a p = Some p' -> List.length (workers p') = List.length (workers p).
Proof.
  intros Hs.
  destruct (step_cases Store exec Marshal BuildWriteConcern removeBlankFields newBulk
              a p p' Hs)
    as [(_ & Hw & _)|[(j & g & ins & _ & _ & _ & Hw & _)
                     |(j & g & err & p1 & _ & _ & _ & Hp & Hw & _)]].
  - rewrite Hw. reflexivity.
  - rewrite Hw. apply length_update.
  - subst p'. rewrite (length_workers_finish Store), Hw. reflexivity.
Qed.

Lemma run_counting (t0 : TombT) sched : forall p p' k,
  dying t0 = false -> errors_agree Store t0 p ->
  Z.of_nat k + Z.of_nat (List.length sched) < 2 ^ 64 ->
  counting k p ->
  run sched p = Some p' ->
  counting (k + List.length (sentDocs sched)) p'
  /\ List.length (workers p') = List.length (workers p).
Proof.
  induction sched as [|a rest IH]; intros p p' k Halive He Hk Hc Hr; simpl in Hr.
  - apply Some_eq in Hr. subst p'. simpl. rewrite Nat.add_0_r. auto.
  - destruct (step a p) as [p1|] eqn:Hs; [|discriminate].
    simpl List.length in Hk. rewrite Nat2Z.inj_succ in Hk.
    assert (Hc1 : counting (k + List.length (sentDocs [a])) p1).
    { apply (step_counting t0 a p p1 k Halive He); [lia|exact Hc|exact Hs]. }
    assert (Hk1 : Z.of_nat (k + List.length (sentDocs [a]))
                  + Z.of_nat (List.length rest) < 2 ^ 64).
    { destruct a; simpl; lia. }
    assert (He1 : errors_agree Store t0 p1).
    { exact (step_errors_agree Store exec Marshal BuildWriteConcern removeBlankFields
               newBulk t0 a p p1 Halive Hs He). }
    assert (Hlen : (List.length (sentDocs [a]) <= 1)%nat).
    { destruct a; simpl; lia. }
    destruct (IH p1 p' _ Halive He1 Hk1 Hc1 Hr) as (Hc' & Hl').
    split.
    + replace (k + List.length (sentDocs (a :: rest)))%nat
        with (k + List.length (sentDocs [a]) + List.length (sentDocs rest))%nat;
        [exact Hc'|].
      destruct a; simpl; lia.
    + rewrite Hl'. exact (step_length a p p1 Hs).
Qed.

(** X14: when [ingestDocuments] returns nil, whatever the number of workers
    and the schedule, the channel is closed and empty and the count is the
    number of records the producer sent: every record read from the input
    is counted once, whether or not the server took it. *)
Theorem count_of_a_successful_import (imp : MongoImport) (w : db.World Store)
        (sched : list Action) p :
  dying (Tomb imp) = false ->
  insertionCount imp = 0 ->
  Z.of_nat (List.length sched) < 2 ^ 64 ->
  run sched (begin imp w) = Some p ->
  ingestDocuments p = Some None ->
  readDocs p = [] /\ closed p = true
  /\ insertionCount (importer p) = Z.of_nat (List.length (sentDocs sched)).
Proof.
  intros Halive H0 Hk Hr Hi.
  assert (Hc0 : counting 0 (begin (B := B) imp w)).
  { intros _. simpl. rewrite H0. split; [lia|]. split; [reflexivity|].
    intros i Hi'. unfold spawn in Hi'. apply nth_error_In, repeat_spec in Hi'.
    discriminate. }
  destruct (run_counting (Tomb imp) sched _ p 0%nat Halive
              (begin_errors_agree Store imp w) ltac:(simpl; lia) Hc0 Hr)
    as (Hc & Hl).
  pose proof (run_errors_agree Store exec Marshal BuildWriteConcern removeBlankFields
                newBulk (Tomb imp) sched _ p Halive Hr (begin_errors_agree Store imp w))
    as (_ & _ & H3).
  unfold ingestDocuments in Hi.
  destruct (forallb isFinished (workers p)) eqn:Hall; [|discriminate].
  apply Some_eq in Hi. destruct (Hc Hi) as (_ & Hcount & Hdone).
  simpl in Hl. unfold spawn in Hl. rewrite repeat_length in Hl.
  assert (Hn : 1 <= numInsertionWorkers imp).
  { unfold numInsertionWorkers.
    destruct (Z.leb_spec (NumInsertionWorkers (IngestOptions imp)) 0); lia. }
  destruct (workers p) as [|g rest] eqn:Ew; [simpl in Hl; lia|].
  simpl in Hall. apply andb_true_iff in Hall. destruct Hall as [Hg _].
  destruct g as [| |[e|]]; try discriminate.
  - exfalso. apply (H3 0%nat e); [reflexivity|exact Hi].
  - destruct (Hdone 0%nat) as (Hq & Hcl); [reflexivity|].
    rewrite Hq in Hcount. simpl in Hcount. split; [exact Hq|]. split; [exact Hcl|].
    lia.
Qed.

End CountFacts.

(** ** The flag [continueOnError] *)

Section ContinueFacts.

Variable Store : Type.
Variable Marshal : D -> error + list byte.
Context {B : Type} {BI : db.BulkInserter Store B}.

Notation call := (db.call Store Marshal).
Notation calls := (db.calls Store Marshal).

(** The inserter [bb] with the flag set to [v]. *)
Definition with_continueOnError (v : bool) (bb : @db.BufferedBulkInserter B)
  : @db.BufferedBulkInserter B :=
  {| db.bulk := db.bulk bb; db.collection := db.collection bb;
     db.continueOnError := v; db.docLimit := db.docLimit bb;
     db.byteCount := db.byteCount bb; db.docCount := db.docCount bb |}.

Lemma call_with_continueOnError v c bb (w : db.World Store) :
  call c (with_continueOnError v bb) w
  = (fst (fst (call c bb w)), with_continueOnError v (snd (fst (call c bb w))),
     snd (call c bb w)).
Proof.
  assert (HF : db.Flush Store (with_continueOnError v bb) w
               = (fst (fst (db.Flush Store bb w)),
                  with_continueOnError v (snd (fst (db.Flush Store bb w))),
                  snd (db.Flush Store bb w))).
  { unfold db.Flush. simpl. destruct (db.docCount bb =? 0); [reflexivity|].
    destruct (db.Run Store (db.bulk bb) w) as [err w']. reflexivity. }
  destruct c as [doc|]; simpl; [|exact HF].
  unfold db.Insert. destruct (Marshal doc) as [err|rawBytes]; [reflexivity|].
  change (db.full (with_continueOnError v bb) rawBytes) with (db.full bb rawBytes).
  destruct (db.full bb rawBytes).
  - rewrite HF. destruct (db.Flush Store bb w) as [[e bb1] w1]. reflexivity.
  - reflexivity.
Qed.

Lemma calls_with_continueOnError v cs : forall bb (w : db.World Store),
  calls cs (with_continueOnError v bb) w
  = (with_continueOnError v (fst (calls cs bb w)), snd (calls cs bb w)).
Proof.
  induction cs as [|c rest IH]; intros bb w; simpl; [reflexivity|].
  rewrite call_with_continueOnError.
  destruct (call c bb w) as [[e bb'] w']. simpl. apply IH.
Qed.

(** X15: the flag [continueOnError] given to [NewBufferedBulkInserter] is
    never read by [Insert] or [Flush]: an inserter with the flag set and one
    with the flag cleared return the same error from every call, send the
    same requests and leave the same server, buffer and counters behind.
    The flag is read by [resetBulk] alone, which nothing calls. *)
Theorem continueOnError_is_never_read
        (c : mgoCollection) (limit : Z) (b : B) (cs : list db.Call)
        (w : db.World Store) (next : db.Call) :
  let on := calls cs (db.NewBufferedBulkInserter Store c limit true b) w in
  let off := calls cs (db.NewBufferedBulkInserter Store c limit false b) w in
  snd on = snd off
  /\ db.bulk (fst on) = db.bulk (fst off)
  /\ db.docCount (fst on) = db.docCount (fst off)
  /\ db.byteCount (fst on) = db.byteCount (fst off)
  /\ fst (fst (call next (fst on) (snd on))) = fst (fst (call next (fst off) (snd off)))
  /\ snd (call next (fst on) (snd on)) = snd (call next (fst off) (snd off)).
Proof.
  intros on off.
  assert (H : on = (with_continueOnError true (fst off), snd off)).
  { unfold on, off.
    change (db.NewBufferedBulkInserter Store c limit true b)
      with (with_continueOnError true (db.NewBufferedBulkInserter Store c limit false b)).
    apply calls_with_continueOnError. }
  rewrite H. simpl. rewrite call_with_continueOnError. simpl. auto 10.
Qed.

End ContinueFacts.

(** ** The further properties on the test double *)

(** The state the pipeline of [imp] over [w] is in after [sched]. *)
Definition reached (sched : list mongoimport.Action) (imp : mongoimport.MongoImport)
           (w : Mock.World) : mongoimport.Pipeline Mock.Store :=
  match Mock.run sched (mongoimport.begin imp w) with
  | Some p => p
  | None => mongoimport.begin imp w
  end.

Local Notation runs :=
  (@mongoimport.run Mock.Store Mock.exec Mock.Marshal Mock.BuildWriteConcern
     Mock.removeBlankFields db.WriteCommandBulk Mock.wcbInserter Mock.newBulk).

Lemma records_are_delivered_in_order_witness :
  batches (db.wire (snd (Mock.calls
             [db.DoInsert (Mock.record 1); db.DoInsert (Mock.record 2);
              db.DoInsert (Mock.record 3); db.DoFlush]
             (Mock.fresh 2) (Mock.world0 []))))
  = db.accepted Mock.Marshal
      [db.DoInsert (Mock.record 1); db.DoInsert (Mock.record 2);
       db.DoInsert (Mock.record 3)].
Proof.
  exact (proj2 (@records_are_delivered_in_order Mock.Store Mock.Marshal
                  db.WriteCommandBulk Mock.wcbInserter wcbSpec Mock.users 2 true
                  Mock.wcb0
                  [db.DoInsert (Mock.record 1); db.DoInsert (Mock.record 2);
                   db.DoInsert (Mock.record 3)]
                  (Mock.world0 []) eq_refl)).
Defined.

(** One worker has started and taken one of three records sent. *)
Definition oneTaken : list mongoimport.Action :=
  [mongoimport.Start 0; mongoimport.Send (Mock.record 1);
   mongoimport.Send (Mock.record 2); mongoimport.Recv 0;
   mongoimport.Send (Mock.record 3)].

Lemma count_bounded_by_records_taken_witness :
  Z.of_nat (List.length (mongoimport.readDocs
                           (reached oneTaken (Mock.importer 1 1000 false false)
                              (Mock.world0 [])))) <= 16
  /\ 0 <= mongoimport.insertionCount
            (mongoimport.importer
               (reached oneTaken (Mock.importer 1 1000 false false) (Mock.world0 [])))
  /\ mongoimport.insertionCount
       (mongoimport.importer
          (reached oneTaken (Mock.importer 1 1000 false false) (Mock.world0 [])))
     + Z.of_nat (List.length (mongoimport.readDocs
                                (reached oneTaken (Mock.importer 1 1000 false false)
                                   (Mock.world0 []))))
     <= Z.of_nat (List.length (mongoimport.sentDocs oneTaken)).
Proof.
  assert (H : runs oneTaken
                (mongoimport.begin (Mock.importer 1 1000 false false) (Mock.world0 []))
              = Some (reached oneTaken (Mock.importer 1 1000 false false)
                        (Mock.world0 []))).
  { vm_compute. reflexivity. }
  exact (@count_bounded_by_records_taken Mock.Store Mock.exec Mock.Marshal
           Mock.BuildWriteConcern Mock.removeBlankFields db.WriteCommandBulk
           Mock.wcbInserter Mock.newBulk (Mock.importer 1 1000 false false)
           (Mock.world0 []) oneTaken _ eq_refl H).
Defined.

(** A doc limit of 1, stop-on-error on, [_id = 1] already in the store:
    worker 0 takes two records and its flush of the first fails; the
    producer returns and worker 1 returns without a record. *)
Definition firstFails : list mongoimport.Action :=
  [mongoimport.Start 0; mongoimport.Start 1;
   mongoimport.Send (Mock.record 1); mongoimport.Recv 0;
   mongoimport.Send (Mock.record 2); mongoimport.Recv 0;
   mongoimport.Return None; mongoimport.Recv 1].

Lemma tomb_dies_with_the_first_error_witness :
  mongoimport.Tomb
    (mongoimport.importer
       (reached firstFails (Mock.importer 2 1 true false) (Mock.world0 [1])))
  = {| mongoimport.dying := true;
       mongoimport.reason := Some (ErrWriteCommandBulk [Mock.duplicateKey 0] None) |}.
Proof.
  assert (H : runs firstFails
                (mongoimport.begin (Mock.importer 2 1 true false) (Mock.world0 [1]))
              = Some (reached firstFails (Mock.importer 2 1 true false)
                        (Mock.world0 [1]))).
  { vm_compute. reflexivity. }
  assert (He : mongoimport.retErr
                 (reached firstFails (Mock.importer 2 1 true false) (Mock.world0 [1]))
               = Some (ErrWriteCommandBulk [Mock.duplicateKey 0] None)).
  { vm_compute. reflexivity. }
  exact (proj2 (@tomb_dies_with_the_first_error Mock.Store Mock.exec Mock.Marshal
                  Mock.BuildWriteConcern Mock.removeBlankFields db.WriteCommandBulk
                  Mock.wcbInserter Mock.newBulk (Mock.importer 2 1 true false)
                  (Mock.world0 [1]) firstFails _ eq_refl H) _ He).
Defined.

Lemma ingestDocuments_returns_a_worker_error_witness :
  mongoimport.ingestDocuments
    (reached firstFails (Mock.importer 2 1 true false) (Mock.world0 [1]))
  = Some (Some (ErrWriteCommandBulk [Mock.duplicateKey 0] None))
  /\ exists i,
       nth_error (mongoimport.workers
                    (reached firstFails (Mock.importer 2 1 true false) (Mock.world0 [1]))) i
       = Some (mongoimport.Finished
                 (Some (ErrWriteCommandBulk [Mock.duplicateKey 0] None))).
Proof.
  assert (H : runs firstFails
                (mongoimport.begin (Mock.importer 2 1 true false) (Mock.world0 [1]))
              = Some (reached firstFails (Mock.importer 2 1 true false)
                        (Mock.world0 [1]))).
  { vm_compute. reflexivity. }
  assert (Hi : mongoimport.ingestDocuments
                 (reached firstFails (Mock.importer 2 1 true false) (Mock.world0 [1]))
               = Some (Some (ErrWriteCommandBulk [Mock.duplicateKey 0] None))).
  { vm_compute. reflexivity. }
  split; [exact Hi|].
  exact (proj2 (proj2 (@ingestDocuments_returns_a_worker_error Mock.Store Mock.exec
                         Mock.Marshal Mock.BuildWriteConcern Mock.removeBlankFields
                         db.WriteCommandBulk Mock.wcbInserter Mock.newBulk
                         (Mock.importer 2 1 true false) (Mock.world0 [1]) firstFails
                         _ _ eq_refl H Hi)) _ eq_refl).
Defined.

(** Two workers, one of them started; the producer has sent two records
    and returned. *)
Definition producerDone : list mongoimport.Action :=
  [mongoimport.Start 0; mongoimport.Send (Mock.record 1);
   mongoimport.Send (Mock.record 2); mongoimport.Return None].

Lemma workers_return_once_the_channel_is_closed_witness :
  exists sched p' err,
    Mock.run sched (reached producerDone (Mock.importer 2 1 false false) (Mock.world0 []))
    = Some p'
    /\ Forall (fun a => mongoimport.actor a <> None) sched
    /\ mongoimport.ingestDocuments p' = Some err
    /\ mongoimport.streamed p'
       = mongoimport.streamed
           (reached producerDone (Mock.importer 2 1 false false) (Mock.world0 [])).
Proof.
  assert (Hc : mongoimport.closed
                 (reached producerDone (Mock.importer 2 1 false false) (Mock.world0 []))
               = true).
  { vm_compute. reflexivity. }
  exact (@workers_return_once_the_channel_is_closed Mock.Store Mock.exec Mock.Marshal
           Mock.BuildWriteConcern Mock.removeBlankFields db.WriteCommandBulk
           Mock.wcbInserter Mock.newBulk _ Hc).
Defined.

Lemma one_worker_writes_the_input_in_order_witness :
  mongoimport.readDocs
    (reached (Mock.lockstep 0 (Mock.records 5)) (Mock.importer 1 2 false true)
       (Mock.world0 [])) = []
  /\ batches (db.wire (mongoimport.world
                         (reached (Mock.lockstep 0 (Mock.records 5))
                            (Mock.importer 1 2 false true) (Mock.world0 []))))
     = batches (db.wire (Mock.world0 []))
       ++ handed Mock.Marshal Mock.removeBlankFields (Mock.importer 1 2 false true)
            (mongoimport.sentDocs (Mock.lockstep 0 (Mock.records 5))).
Proof.
  assert (H : runs (Mock.lockstep 0 (Mock.records 5))
                (mongoimport.begin (Mock.importer 1 2 false true) (Mock.world0 []))
              = Some (reached (Mock.lockstep 0 (Mock.records 5))
                        (Mock.importer 1 2 false true) (Mock.world0 []))).
  { vm_compute. reflexivity. }
  assert (Hi : mongoimport.ingestDocuments
                 (reached (Mock.lockstep 0 (Mock.records 5))
                    (Mock.importer 1 2 false true) (Mock.world0 []))
               = Some None).
  { vm_compute. reflexivity. }
  assert (Hl : Z.of_nat (List.length (Mock.lockstep 0 (Mock.records 5))) < GoInt.maxInt).
  { vm_compute. reflexivity. }
  exact (proj2 (@one_worker_writes_the_input_in_order Mock.Store Mock.exec Mock.Marshal
                  Mock.BuildWriteConcern Mock.removeBlankFields db.WriteCommandBulk
                  Mock.wcbInserter wcbSpec Mock.newBulk (Mock.importer 1 2 false true)
                  (Mock.world0 []) eq_refl eq_refl eq_refl
                  (Mock.lockstep 0 (Mock.records 5)) _ eq_refl Hl H) Hi).
Defined.

(** The input type in capitals. *)
Definition capitals : mongoimport.MongoImport :=
  mongoimport.with_InputOptions (mongoimport.set_InputType "JSON")
    (Mock.importer 1 1000 false false).

Lemma ValidateSettings_accepts_consistent_input_witness :
  mongoimport.InputType
    (mongoimport.InputOptions
       (fst (mongoimport.ValidateSettings Mock.ValidateName Mock.validateFields
               Mock.ValidateName [] capitals)))
  = "json".
Proof.
  exact (proj1 (ValidateSettings_accepts_consistent_input Mock.ValidateName
                  Mock.validateFields Mock.ValidateName [] capitals _ eq_refl)).
Defined.

Lemma ValidateSettings_accepts_a_valid_namespace_witness :
  mongoimport.BulkBufferSize
    (mongoimport.ToolOptions
       (fst (mongoimport.ValidateSettings Mock.ValidateName Mock.validateFields
               Mock.ValidateName [] (Mock.importer 1 0 false false))))
  = 10000.
Proof.
  destruct (ValidateSettings_accepts_a_valid_namespace Mock.ValidateName
              Mock.validateFields Mock.ValidateName [] (Mock.importer 1 0 false false)
              _ eq_refl) as (_ & _ & _ & _ & _ & _ & H & _).
  apply H. simpl. lia.
Defined.

(** Neither a collection nor [--file]: the file is the positional
    argument. *)
Definition unnamed : mongoimport.MongoImport :=
  mongoimport.with_ToolOptions (mongoimport.set_Collection "")
    (mongoimport.with_InputOptions (mongoimport.set_File "")
       (Mock.importer 1 1000 false false)).

Lemma ValidateSettings_names_the_collection_after_the_file_witness :
  mongoimport.Collection
    (mongoimport.ToolOptions
       (fst (mongoimport.ValidateSettings Mock.ValidateName Mock.validateFields
               Mock.ValidateName ["/data/users.v2.json"] unnamed)))
  = "users.v2".
Proof.
  destruct (ValidateSettings_names_the_collection_after_the_file Mock.ValidateName
              Mock.validateFields Mock.ValidateName ["/data/users.v2.json"] unnamed
              _ eq_refl) as (_ & _ & _ & H).
  destruct (H eq_refl) as (Hext & _).
  exact (Hext "/data/" "users.v2" "json" eq_refl
           (or_intror (ex_intro _ "/data" eq_refl)) eq_refl eq_refl eq_refl).
Defined.

(** The importer asking for upserts, once validated: one worker, the
    selector on [_id]. *)
Definition upsertingOne : mongoimport.MongoImport :=
  fst (mongoimport.ValidateSettings Mock.ValidateName Mock.validateFields
         Mock.ValidateName [] Mock.upserting).

Lemma one_worker_upserts_the_input_in_order_witness :
  exists sent taken,
    db.wire (mongoimport.world
               (reached (Mock.lockstep 0 (Mock.records 3)) upsertingOne
                  (Mock.world0 [2])))
    = db.wire (Mock.world0 [2]) ++ sent
    /\ map written sent = map (target Mock.removeBlankFields upsertingOne) taken
    /\ mongoimport.sentDocs (Mock.lockstep 0 (Mock.records 3))
       = taken
         ++ mongoimport.readDocs
              (reached (Mock.lockstep 0 (Mock.records 3)) upsertingOne
                 (Mock.world0 [2]))
    /\ mongoimport.readDocs
         (reached (Mock.lockstep 0 (Mock.records 3)) upsertingOne (Mock.world0 [2]))
       = [].
Proof.
  assert (H : runs (Mock.lockstep 0 (Mock.records 3))
                (mongoimport.begin upsertingOne (Mock.world0 [2]))
              = Some (reached (Mock.lockstep 0 (Mock.records 3)) upsertingOne
                        (Mock.world0 [2]))).
  { vm_compute. reflexivity. }
  assert (Hi : mongoimport.ingestDocuments
                 (reached (Mock.lockstep 0 (Mock.records 3)) upsertingOne
                    (Mock.world0 [2]))
               = Some None).
  { vm_compute. reflexivity. }
  destruct (@one_worker_upserts_the_input_in_order Mock.Store Mock.exec Mock.Marshal
              Mock.BuildWriteConcern Mock.removeBlankFields db.WriteCommandBulk
              Mock.wcbInserter Mock.newBulk upsertingOne (Mock.world0 [2])
              eq_refl eq_refl (Mock.lockstep 0 (Mock.records 3)) _ eq_refl H)
    as (sent & taken & Hw & Hm & Hs & Hq).
  exists sent, taken. split; [exact Hw|]. split; [exact Hm|]. split; [exact Hs|].
  exact (Hq Hi).
Defined.

(** The importer asked to drop the collection first. *)
Definition dropping : mongoimport.MongoImport :=
  mongoimport.with_IngestOptions
    (fun o =>
       {| mongoimport.Drop := true;
          mongoimport.IgnoreBlanks := mongoimport.IgnoreBlanks o;
          mongoimport.MaintainInsertionOrder := mongoimport.MaintainInsertionOrder o;
          mongoimport.NumInsertionWorkers := mongoimport.NumInsertionWorkers o;
          mongoimport.StopOnError := mongoimport.StopOnError o;
          mongoimport.Upsert := mongoimport.Upsert o;
          mongoimport.UpsertFields := mongoimport.UpsertFields o;
          mongoimport.WriteConcern := mongoimport.WriteConcern o |})
    (Mock.importer 1 1000 false true).

(** What the import of two records returns, and the server after it. *)
Definition dropped : Z * option error * Mock.World :=
  match Mock.importDocuments dropping (Mock.world0 [7])
          (Mock.lockstep 0 (Mock.records 2)) true with
  | Some r => r
  | None => (0, None, Mock.world0 [])
  end.

Lemma importDocuments_drops_before_it_writes_witness :
  exists sent,
    db.wire (snd dropped) = ReqDrop Mock.users :: sent
    /\ Forall (fun r => isDrop r = false) sent
    /\ db.store (snd dropped) = [1; 2].
Proof.
  assert (H : @mongoimport.importDocuments Mock.Store Mock.exec Mock.Marshal
                Mock.BuildWriteConcern Mock.removeBlankFields "ns not found"
                db.WriteCommandBulk Mock.wcbInserter Mock.newBulk
                dropping (Mock.world0 [7]) (Mock.lockstep 0 (Mock.records 2)) true
              = Some (fst (fst dropped), snd (fst dropped), snd dropped)).
  { vm_compute. reflexivity. }
  destruct (@importDocuments_drops_before_it_writes Mock.Store Mock.exec Mock.Marshal
              Mock.BuildWriteConcern Mock.removeBlankFields "ns not found"
              db.WriteCommandBulk Mock.wcbInserter wcbSpec Mock.newBulk
              dropping (Mock.world0 [7]) (Mock.lockstep 0 (Mock.records 2)) true
              _ _ _ H) as (_ & _ & _ & Hd).
  destruct (Hd _ _ _ eq_refl eq_refl eq_refl) as (sent & Hw & Hs & _).
  exists sent. split; [exact Hw|]. split; [exact Hs|]. vm_compute. reflexivity.
Defined.

(** Two workers, a doc limit of 1, stop-on-error off, [_id = 1] already in
    the store: the write of the first record fails and the import goes on. *)
Definition oneRefused : list mongoimport.Action :=
  [mongoimport.Start 0; mongoimport.Start 1;
   mongoimport.Send (Mock.record 1); mongoimport.Recv 0;
   mongoimport.Send (Mock.record 2); mongoimport.Recv 0;
   mongoimport.Return None; mongoimport.Recv 1; mongoimport.Recv 0].

Lemma count_of_a_successful_import_witness :
  mongoimport.insertionCount
    (mongoimport.importer
       (reached oneRefused (Mock.importer 2 1 false false) (Mock.world0 [1])))
  = 2
  /\ db.store (mongoimport.world
                 (reached oneRefused (Mock.importer 2 1 false false) (Mock.world0 [1])))
     = [1; 2].
Proof.
  assert (H : runs oneRefused
                (mongoimport.begin (Mock.importer 2 1 false false) (Mock.world0 [1]))
              = Some (reached oneRefused (Mock.importer 2 1 false false)
                        (Mock.world0 [1]))).
  { vm_compute. reflexivity. }
  assert (Hi : mongoimport.ingestDocuments
                 (reached oneRefused (Mock.importer 2 1 false false) (Mock.world0 [1]))
               = Some None).
  { vm_compute. reflexivity. }
  assert (Hl : Z.of_nat (List.length oneRefused) < 2 ^ 64).
  { vm_compute. reflexivity. }
  split; [|vm_compute; reflexivity].
  exact (proj2 (proj2 (@count_of_a_successful_import Mock.Store Mock.exec Mock.Marshal
                         Mock.BuildWriteConcern Mock.removeBlankFields
                         db.WriteCommandBulk Mock.wcbInserter Mock.newBulk
                         (Mock.importer 2 1 false false) (Mock.world0 [1]) oneRefused
                         _ eq_refl eq_refl Hl H Hi))).
Defined.

(** A server that refuses the first document of every batch with a
    message that holds quotes and a backslash. *)
Definition dupKeyMsg : string :=
  ("dup key: { : " ++ String dquote ("a" ++ String backslash ("b" ++ String dquote " }")))%string.

Definition refusing (r : Request) (s : unit) : Reply * unit :=
  ({| reply_err := None;
      reply_writeErrors := [{| we_index := 0; we_code := 11000; we_errmsg := dupKeyMsg |}] |},
   s).

Lemma WriteCommandBulk_Run_reports_witness :
  exists e,
    fst (db.WriteCommandBulk_Run unit refusing Mock.wcb0 {| db.store := tt; db.wire := [] |})
    = Some e
    /\ Error e
       = (newline
          ++ String dquote
               ("dup key: { : "
                ++ String backslash (String dquote
                     ("a" ++ String backslash (String backslash
                        ("b" ++ String backslash (String dquote
                           (" }" ++ String dquote EmptyString))))))))%string.
Proof.
  destruct (WriteCommandBulk_Run_reports unit refusing Mock.wcb0
              {| db.store := tt; db.wire := [] |}) as (_ & _ & H).
  destruct H as (Herr & Hmsg); [reflexivity|discriminate|].
  eexists. split; [exact Herr|].
  rewrite (Hmsg ltac:(constructor; [reflexivity|constructor]) _ Herr).
  reflexivity.
Defined.
